(** * Multi-modal content index: chunking, storage, search and de-duplication

    A shallow embedding of the indexing and retrieval core of the adaptive
    learning assistant (src/indexing/*.py and the aggregator of
    src/adaptive_learning/prompt_system.py), followed by the properties
    that the design document states about it.

    Conventions of the embedding.
    - A Python [str] is a [string]; a character is read as a code point
      below 256, so the whitespace test and [lower] are the Unicode ones
      restricted to that range.
    - A Python [int] is a [Z]; a Python [float] is the rational [Q] it
      denotes, and so is a float32 number of NumPy. The embeddings and
      the similarities are float32: where the code converts a number to
      float32 the model applies [float32], the rounding to the nearest
      float32 number.
    - A Python [dict] with string keys is a [gmap string value]; nested
      dictionaries are association lists inside [value], which keeps the
      insertion order that [dict.items()] iterates in.
    - A call that can raise returns a [result]; a method that mutates the
      indexer returns the new store next to its result.
    - The libraries the code delegates to (pathlib, the file system, the
      sentence-embedding model, the PDF, image, video and speech packages)
      are fields of environment records. *)

From Stdlib Require Import ZArith QArith Qround Qpower Lqa Ascii String List Permutation
  Sorted.
From stdpp Require Import gmap strings list fin_maps pretty sorting.

Local Open Scope Z_scope.
Set Warnings "-register-all".

(** ** Outcomes of calls that can raise *)

Inductive exn : Type :=
| ValueError | TypeError | KeyError | IndexError | ZeroDivisionError | OSError.

Inductive result (A : Type) : Type :=
| Ok (a : A)
| Raise (e : exn).
Arguments Ok {A} a.
Arguments Raise {A} e.

Definition bind {A B} (r : result A) (k : A -> result B) : result B :=
  match r with
  | Ok a => k a
  | Raise e => Raise e
  end.

Notation "'let*' x := r 'in' k" := (bind r (fun x => k))
  (at level 10, x name, r at level 100, k at level 200).

Fixpoint mapM {A B} (f : A -> result B) (l : list A) : result (list B) :=
  match l with
  | [] => Ok []
  | a :: r => let* b := f a in let* bs := mapM f r in Ok (b :: bs)
  end.

(** [try: ... except Exception: return d] *)
Definition try_except {A} (r : result A) (d : A) : A :=
  match r with
  | Ok a => a
  | Raise _ => d
  end.

(** ** Python built-ins used by the indexers *)

Module Py.

(** [str.isspace] on one character: TAB..CR, FS..US, space, NEL, NBSP. *)
Definition isspace (c : ascii) : bool :=
  let n := N_of_ascii c in
  ((9 <=? n) && (n <=? 13) || (28 <=? n) && (n <=? 32)
   || (n =? 133) || (n =? 160))%N.

(** [str.lower] on one character. *)
Definition lower_char (c : ascii) : ascii :=
  let n := N_of_ascii c in
  if ((65 <=? n) && (n <=? 90)
      || (192 <=? n) && (n <=? 222) && negb (n =? 215))%N
  then ascii_of_N (n + 32) else c.

Fixpoint lower (s : string) : string :=
  match s with
  | EmptyString => EmptyString
  | String c r => String (lower_char c) (lower r)
  end.

(** The one-character string of code point [n]. *)
Definition chr (n : nat) : string := String (ascii_of_nat n) EmptyString.

(** A character that the regular expression class [\w] matches:
    alphanumeric or the underscore. *)
Definition isword (c : ascii) : bool :=
  let n := N_of_ascii c in
  ((48 <=? n) && (n <=? 57) || (65 <=? n) && (n <=? 90) || (n =? 95)
   || (97 <=? n) && (n <=? 122)
   || (n =? 170) || (n =? 178) || (n =? 179) || (n =? 181)
   || (n =? 185) || (n =? 186) || (188 <=? n) && (n <=? 190)
   || (192 <=? n) && (n <=? 214) || (216 <=? n) && (n <=? 246)
   || (248 <=? n) && (n <=? 255))%N.

(** [c in chars] *)
Fixpoint char_in (c : ascii) (chars : string) : bool :=
  match chars with
  | EmptyString => false
  | String d r => Ascii.eqb c d || char_in c r
  end.

(** [str(n)] and [f"{n}"] for an integer. *)
Definition str_of_int (n : Z) : string := pretty n.

(** [bool(s)] for a string. *)
Definition truthy (s : string) : bool :=
  match s with
  | EmptyString => false
  | String _ _ => true
  end.

(** [re.sub(r'\s+', ' ', s)]: every maximal run of whitespace becomes one
    space. [in_run] tells that the previous character was whitespace. *)
Fixpoint collapse_ws (in_run : bool) (s : string) : string :=
  match s with
  | EmptyString => EmptyString
  | String c r =>
      if isspace c
      then if in_run then collapse_ws true r
           else String " " (collapse_ws true r)
      else String c (collapse_ws false r)
  end.

Fixpoint lstrip (s : string) : string :=
  match s with
  | EmptyString => EmptyString
  | String c r => if isspace c then lstrip r else s
  end.

Fixpoint rstrip (s : string) : string :=
  match s with
  | EmptyString => EmptyString
  | String c r =>
      match rstrip r with
      | EmptyString => if isspace c then EmptyString else String c EmptyString
      | r' => String c r'
      end
  end.

(** [s.strip()] *)
Definition strip (s : string) : string := rstrip (lstrip s).

(** [s.split()]: the maximal runs of non-whitespace characters. *)
Fixpoint split (s : string) : list string :=
  match s with
  | EmptyString => []
  | String c r =>
      if isspace c then split r
      else match r with
           | EmptyString => [String c EmptyString]
           | String d _ =>
               if isspace d then String c EmptyString :: split r
               else match split r with
                    | w :: ws => String c w :: ws
                    | [] => [String c EmptyString]
                    end
           end
  end.

(** [sep.join(l)] *)
Fixpoint join (sep : string) (l : list string) : string :=
  match l with
  | [] => EmptyString
  | w :: ws =>
      match ws with
      | [] => w
      | _ :: _ => w +:+ sep +:+ join sep ws
      end
  end.

(** [s[:n]] for [n >= 0] *)
Fixpoint prefix (n : nat) (s : string) : string :=
  match n, s with
  | S n', String c r => String c (prefix n' r)
  | _, _ => EmptyString
  end.

(** [sub in s] *)
Fixpoint contains (sub s : string) : bool :=
  String.prefix sub s
  || match s with
     | EmptyString => false
     | String _ r => contains sub r
     end.

(** [s.endswith(suf)] *)
Definition endswith (s suf : string) : bool :=
  String.prefix (String.rev suf) (String.rev s).

(** [s.replace(a, b)] for one-character [a] and [b]. *)
Fixpoint replace_char (a b : ascii) (s : string) : string :=
  match s with
  | EmptyString => EmptyString
  | String c r => String (if Ascii.eqb c a then b else c) (replace_char a b r)
  end.

(** [len(range(start, stop, step))] for a non-zero step. *)
Definition range_len (start stop step : Z) : Z :=
  if 0 <? step
  then if start <? stop then (stop - start - 1) / step + 1 else 0
  else if stop <? start then (start - stop - 1) / (- step) + 1 else 0.

(** [range(start, stop, step)]; a zero step raises [ValueError]. *)
Definition range (start stop step : Z) : result (list Z) :=
  if step =? 0 then Raise ValueError
  else Ok (map (fun i : nat => start + Z.of_nat i * step)
               (seq 0 (Z.to_nat (range_len start stop step)))).

(** A slice bound brought into [0, len]: negative bounds count from the
    end, bounds past either end are clipped. *)
Definition clamp_index (len i : Z) : Z :=
  if i <? 0 then Z.max 0 (i + len) else Z.min i len.

(** [l[i:j]] *)
Definition slice {A} (l : list A) (i j : Z) : list A :=
  let len := Z.of_nat (length l) in
  let lo := clamp_index len i in
  let hi := clamp_index len j in
  firstn (Z.to_nat (hi - lo)) (skipn (Z.to_nat lo) l).

(** [l[:j]] *)
Definition slice_to {A} (l : list A) (j : Z) : list A := slice l 0 j.

(** [l[i:]] *)
Definition slice_from {A} (l : list A) (i : Z) : list A :=
  slice l i (Z.of_nat (length l)).

(** [l[i]] for [i >= 0]; out of range raises [IndexError]. *)
Definition index {A} (l : list A) (i : nat) : result A :=
  match l !! i with
  | Some a => Ok a
  | None => Raise IndexError
  end.

(** [enumerate(l)] *)
Definition enumerate {A} (l : list A) : list (nat * A) :=
  combine (seq 0 (length l)) l.

End Py.

(** ** Values, metadata and the indexer store *)

(** The Python values that end up in metadata. *)
Inductive value : Type :=
| VNone
| VBool (b : bool)
| VInt (z : Z)
| VFloat (q : Q)
| VStr (s : string)
| VList (l : list value)
| VTuple (l : list value)
| VDict (d : list (value * value)).

(** An embedding vector and the similarity of two of them, [np.dot]. *)
Definition vec : Type := list Q.

Definition dot (u v : vec) : Q :=
  fold_right Qplus 0%Q (zip_with Qmult u v).

(** The three parallel containers of an indexer: [self.documents],
    [self.embeddings], [self.metadata]. *)
Record Store : Type := mkStore {
  documents : list string;
  embeddings : list vec;
  metadata : list (gmap string value)
}.

(** [__init__]: the three containers start empty. *)
Definition empty_store : Store := mkStore [] [] [].

(** [self.documents.extend(contents); self.embeddings.extend(embs);
     self.metadata.extend(docs)] *)
Definition store_extend (st : Store) (contents : list string)
    (embs : list vec) (docs : list (gmap string value)) : Store :=
  mkStore (documents st ++ contents) (embeddings st ++ embs) (metadata st ++ docs).

(** [meta[key]] where the code goes on to use the value as a string. *)
Definition meta_str (key : string) (m : gmap string value) : result string :=
  match m !! key with
  | Some (VStr s) => Ok s
  | Some _ => Raise TypeError
  | None => Raise KeyError
  end.

(** [doc['content']] *)
Definition doc_content (doc : gmap string value) : result string :=
  meta_str "content" doc.

(** [round(q)]: the nearest integer, halves to the even neighbour. *)
Definition round_half_even (q : Q) : Z :=
  let f := Qfloor q in
  let r := (q - inject_Z f)%Q in
  match (r ?= 1 # 2)%Q with
  | Lt => f
  | Gt => f + 1
  | Eq => if Z.even f then f else f + 1
  end.

(** [round(q, 2)], where [q] is the exact value of the double that is
    rounded: Python rounds that value, halves to the even neighbour, and
    answers with the double nearest to the decimal, which the model keeps
    as the decimal itself. *)
Definition round2 (q : Q) : Q := (round_half_even (q * 100) # 100)%Q.

(** *** float32

    The embeddings that sentence-transformers returns, and so the
    similarities, are float32 numbers; the thresholds are Python floats
    that NumPy converts to float32 before it compares. A float32 number
    is modelled by the rational it denotes. [float32 x] is the float32
    nearest to [x], halves to the even significand: 24 significant bits,
    gradual underflow below [2^-126]. The exponent is not bounded from
    above: the model has no infinities, which only magnitudes beyond
    [2^128] would reach. *)

(** [floor(log2 x)] for a positive [x]. *)
Definition binade (x : Q) : Z :=
  let e := Z.log2 (Qnum x) - Z.log2 (Zpos (Qden x)) in
  if Qle_bool (2 ^ e) x then e else e - 1.

(** The exponent float32 gives to a positive [x]: its binade, and -126
    for the subnormal numbers. *)
Definition exponent32 (x : Q) : Z := Z.max (binade x) (-126).

(** The distance of two neighbouring float32 numbers around [x]. *)
Definition ulp32 (x : Q) : Q := (2 ^ (exponent32 x - 23))%Q.

(** The significand of the float32 nearest to a positive [x]. *)
Definition sig32 (x : Q) : Z := round_half_even (x / ulp32 x).

Definition float32_pos (x : Q) : Q := (inject_Z (sig32 x) * ulp32 x)%Q.

Definition float32 (x : Q) : Q :=
  match (x ?= 0)%Q with
  | Eq => 0%Q
  | Gt => float32_pos x
  | Lt => (- float32_pos (- x))%Q
  end.

(** A value used as a number: [int], [float] and [bool] are accepted,
    anything else raises [TypeError]. *)
Definition num_of_value (v : value) : result Q :=
  match v with
  | VInt n => Ok (inject_Z n)
  | VFloat q => Ok q
  | VBool b => Ok (if b then 1 else 0)%Q
  | _ => Raise TypeError
  end.

(** [bool(v)] *)
Definition value_truthy (v : value) : bool :=
  match v with
  | VNone => false
  | VBool b => b
  | VInt n => negb (n =? 0)
  | VFloat q => negb (Qeq_bool q 0)
  | VStr s => Py.truthy s
  | VList l | VTuple l => negb (bool_decide (l = []))
  | VDict d => negb (bool_decide (d = []))
  end.

(** [d.get(key)] on a nested dictionary. *)
Fixpoint dict_get (key : string) (d : list (value * value)) : option value :=
  match d with
  | [] => None
  | (VStr k, v) :: r => if String.eqb k key then Some v else dict_get key r
  | _ :: r => dict_get key r
  end.

(** The sentence-embedding model: [embed s] is the row that
    [model.encode] returns for the input [s]. *)
Definition Embedder : Type := string -> vec.

(** [self.model.encode(contents)]: one row per input string. *)
Definition encode (embed : Embedder) (contents : list string) : list vec :=
  map embed contents.

(** pathlib and the file system, as far as [index_file] looks at them. *)
Record FileSystem : Type := {
  path_str : string -> string;      (* str(Path(p)) *)
  path_suffix : string -> string;   (* Path(p).suffix *)
  path_name : string -> string;     (* Path(p).name *)
  path_exists : string -> bool;     (* Path(p).exists() *)
  stat_size : string -> option Z;   (* Path(p).stat().st_size *)
  read_text : string -> option string (* open(p).read(); None when it raises *)
}.

(** ** Similarity search shared by the four indexers

    The four [search] methods have the same body up to the presentation
    fields they add to each hit; the common part is defined once. *)

Module Search.

(** One hit as [search] returns it. [time_info] and [visual_info] are the
    presentation fields of the video and image indexers; [source_type] and
    [is_topic_search] are the keys the aggregator adds afterwards. *)
Record SearchResult : Type := mkResult {
  content : string;
  similarity : Q;
  result_metadata : gmap string value;
  time_info : option (list (string * value));
  visual_info : option (list (string * value));
  source_type : option string;
  is_topic_search : bool
}.

(** [np.dot(embeddings_array, query_embedding.T).flatten()]: a float32
    array. The model rounds the exact product once. *)
Definition similarities (E : list vec) (q : vec) : list Q :=
  map (fun e => float32 (dot e q)) E.

(** [np.where(similarities >= min_similarity)[0]]: the positions, in
    increasing order, whose similarity reaches the threshold. The
    comparison is done in float32: the threshold [m], a Python float, is
    converted to float32 first. *)
Fixpoint where_ge (i : nat) (sims : list Q) (m : Q) : list nat :=
  match sims with
  | [] => []
  | s :: r =>
      if Qle_bool (float32 m) s then i :: where_ge (S i) r m else where_ge (S i) r m
  end.

(** [np.argsort]: the positions of [l] ordered by increasing value. The
    order numpy gives to equal values is unspecified; this model keeps
    them in position order. *)
Fixpoint insert_by (key : nat -> Q) (i : nat) (l : list nat) : list nat :=
  match l with
  | [] => [i]
  | j :: r => if Qle_bool (key i) (key j) then i :: j :: r else j :: insert_by key i r
  end.

Definition argsort (l : list Q) : list nat :=
  fold_right (insert_by (fun i => nth i l 0%Q)) [] (seq 0 (length l)).

(** The body shared by the four [search] methods. [decorate] is the part
    of the loop body that differs: the presentation fields an indexer
    adds to a hit. *)
Definition search_with
    (decorate : SearchResult -> result SearchResult)
    (embed : Embedder) (st : Store)
    (query : string) (top_k : Z) (min_similarity : Q)
    : result (list SearchResult) :=
  match embeddings st with
  | [] => Ok []
  | _ :: _ =>
      let query_embedding := embed query in
      let sims := similarities (embeddings st) query_embedding in
      let valid_indices := where_ge 0 sims min_similarity in
      match valid_indices with
      | [] => Ok []
      | _ :: _ =>
          let valid_similarities := map (fun i => nth i sims 0%Q) valid_indices in
          let sorted_indices :=
            Py.slice_to (rev (argsort valid_similarities)) top_k in
          mapM (fun idx =>
                  let* original_idx := Py.index valid_indices idx in
                  let* doc := Py.index (documents st) original_idx in
                  let* sim := Py.index sims original_idx in
                  let* meta := Py.index (metadata st) original_idx in
                  decorate (mkResult doc sim meta None None None false))
               sorted_indices
      end
  end.

End Search.

(** ** Text indexer (src/indexing/text_indexer.py) *)

Module TextIndexer.

(** Python's [str()] and [json.load], which the JSON path relies on. *)
Record Env : Type := {
  fs : FileSystem;
  embed : Embedder;
  py_str : value -> string;
  json_load : string -> option value  (* None when reading or parsing raises *)
}.

Definition clean_text (text : string) : string :=
  Py.strip (Py.collapse_ws false text).

(** The body of the loop of [chunk_text], over the start positions. *)
Fixpoint chunk_loop (words : list string) (chunk_size : Z) (starts : list Z)
    : list string :=
  match starts with
  | [] => []
  | i :: rest =>
      let chunk := Py.join " " (Py.slice words i (i + chunk_size)) in
      if Py.truthy chunk
      then chunk :: chunk_loop words chunk_size rest
      else chunk_loop words chunk_size rest
  end.

Definition chunk_text (text : string) (chunk_size overlap : Z)
    : result (list string) :=
  let words := Py.split text in
  let* starts := Py.range 0 (Z.of_nat (length words)) (chunk_size - overlap) in
  Ok (chunk_loop words chunk_size starts).

(** The dictionary built for chunk [i] of a .txt file. *)
Definition txt_document (source : string) (total : nat) (ic : nat * string)
    : gmap string value :=
  <["content" := VStr (snd ic)]>
  (<["source" := VStr source]>
  (<["type" := VStr "text"]>
  (<["chunk_index" := VInt (Z.of_nat (fst ic))]>
  (<["total_chunks" := VInt (Z.of_nat total)]> ∅)))).

Definition process_txt_file (env : Env) (file_path : string)
    : list (gmap string value) :=
  try_except
    (match read_text (fs env) file_path with
     | None => Raise OSError
     | Some content =>
         let cleaned_content := clean_text content in
         let* chunks := chunk_text cleaned_content 300 50 in
         Ok (map (txt_document (path_str (fs env) file_path) (length chunks))
                 (Py.enumerate chunks))
     end)
    [].

(** [_extract_text_from_dict]; on a value that is not a dictionary there
    is nothing to iterate over. *)
Fixpoint _extract_text_from_dict (str : value -> string) (data : value) : string :=
  match data with
  | VDict d =>
      Py.join " "
        ((fix parts (d : list (value * value)) : list string :=
            match d with
            | [] => []
            | (key, v) :: r =>
                match v with
                | VStr s => [str key +:+ ": " +:+ s]
                | VInt _ | VFloat _ | VBool _ => [str key +:+ ": " +:+ str v]
                | VList l => [str key +:+ ": " +:+ Py.join ", " (map str l)]
                | VDict _ =>
                    [str key +:+ ": " +:+ _extract_text_from_dict str v]
                | VNone | VTuple _ => []
                end ++ parts r
            end) d)
  | _ => EmptyString
  end.

(** The dictionary built for element [i] of a JSON array. *)
Definition json_item_document (env : Env) (source : string) (i : nat) (item : value)
    : gmap string value :=
  <["content" := VStr (_extract_text_from_dict (py_str env) item)]>
  (<["source" := VStr source]>
  (<["type" := VStr "json"]>
  (<["item_index" := VInt (Z.of_nat i)]>
  (<["raw_data" := item]> ∅)))).

(** The dictionary built for a JSON file that holds one object. *)
Definition json_object_document (env : Env) (source : string) (data : value)
    : gmap string value :=
  <["content" := VStr (_extract_text_from_dict (py_str env) data)]>
  (<["source" := VStr source]>
  (<["type" := VStr "json"]>
  (<["raw_data" := data]> ∅))).

Definition is_dict (v : value) : bool :=
  match v with
  | VDict _ => true
  | _ => false
  end.

Definition process_json_file (env : Env) (file_path : string)
    : list (gmap string value) :=
  try_except
    (match json_load env file_path with
     | None => Raise ValueError
     | Some data =>
         let source := path_str (fs env) file_path in
         match data with
         | VList items =>
             Ok (omap (fun '(i, item) =>
                         if is_dict item
                         then Some (json_item_document env source i item)
                         else None)
                      (Py.enumerate items))
         | VDict _ => Ok [json_object_document env source data]
         | _ => Ok []
         end
     end)
    [].

(** [index_file]: the returned boolean and the store after the call. *)
Definition index_file (env : Env) (st : Store) (file_path : string)
    : result bool * Store :=
  if negb (path_exists (fs env) file_path) then (Ok false, st)
  else
    let suffix := Py.lower (path_suffix (fs env) file_path) in
    if String.eqb suffix ".txt" then
      let docs := process_txt_file env file_path in
      match docs with
      | [] => (Ok false, st)
      | _ :: _ =>
          match mapM doc_content docs with
          | Ok contents =>
              (Ok true, store_extend st contents (encode (embed env) contents) docs)
          | Raise e => (Raise e, st)
          end
      end
    else if String.eqb suffix ".json" then
      let docs := process_json_file env file_path in
      match docs with
      | [] => (Ok false, st)
      | _ :: _ =>
          match mapM doc_content docs with
          | Ok contents =>
              (Ok true, store_extend st contents (encode (embed env) contents) docs)
          | Raise e => (Raise e, st)
          end
      end
    else (Ok false, st).

Definition search (env : Env) (st : Store)
    (query : string) (top_k : Z) (min_similarity : Q)
    : result (list Search.SearchResult) :=
  Search.search_with Ok (embed env) st query top_k min_similarity.

Record Stats : Type := {
  total_documents : nat;
  total_files : nat;
  types : gset string
}.

Definition get_stats (st : Store) : result Stats :=
  let* sources := mapM (meta_str "source") (metadata st) in
  let* tys := mapM (meta_str "type") (metadata st) in
  Ok {| total_documents := length (documents st);
        total_files := size (list_to_set sources : gset string);
        types := list_to_set tys |}.

End TextIndexer.

(** ** PDF indexer (src/indexing/pdf_indexer.py) *)

Module PDFIndexer.

(** What pdfplumber and PyPDF2 report for one file. A page's text is
    [Raise] when [extract_text] raises, [Ok None] when it returns nothing;
    [doc_info] is the document information dictionary, empty when the file
    has none. *)
Record PlumberPage : Type := {
  plumber_text : result (option string);
  plumber_tables : result (list (list (list (option string))))
}.

Record PlumberPdf : Type := {
  plumber_pages : list PlumberPage;
  plumber_info : gmap string value
}.

Record PyPdf : Type := {
  pypdf_pages : list (result (option string));
  pypdf_info : gmap string value
}.

Record Env : Type := {
  fs : FileSystem;
  embed : Embedder;
  pdfplumber_open : string -> option PlumberPdf;  (* None when it raises *)
  pypdf2_reader : string -> option PyPdf          (* None when it raises *)
}.

(** The characters that the second substitution of [clean_text] keeps. *)
Definition kept_char (c : ascii) : bool :=
  Py.isword c || Py.isspace c || Py.char_in c ".,!?;:-()[]'/@#$%&*+="
  || (N_of_ascii c =? 34)%N.

Fixpoint blank_others (s : string) : string :=
  match s with
  | EmptyString => EmptyString
  | String c r => String (if kept_char c then c else " "%char) (blank_others r)
  end.

Definition clean_text (text : string) : string :=
  Py.strip (blank_others (Py.collapse_ws false text)).

Definition is_stop (c : ascii) : bool := Py.char_in c ".!?".

(** [re.split(r'[.!?]+\s+', text)]. The scanner is in one of three
    places: inside a sentence, inside a run of stops that may turn out to
    be a separator, or inside the whitespace of a separator. [cur] is the
    sentence read so far and [stops] the pending run of stops. *)
Inductive scan : Type := InSentence | InStops | InGap.

Fixpoint split_sentences (st : scan) (cur stops : string) (s : string)
    : list string :=
  match s with
  | EmptyString =>
      match st with
      | InGap => [EmptyString]
      | _ => [cur +:+ stops]
      end
  | String c r =>
      match st with
      | InSentence =>
          if is_stop c
          then split_sentences InStops cur (String c EmptyString) r
          else split_sentences InSentence (cur +:+ String c EmptyString) EmptyString r
      | InStops =>
          if is_stop c
          then split_sentences InStops cur (stops +:+ String c EmptyString) r
          else if Py.isspace c
          then cur :: split_sentences InGap EmptyString EmptyString r
          else split_sentences InSentence
                 (cur +:+ stops +:+ String c EmptyString) EmptyString r
      | InGap =>
          if Py.isspace c
          then split_sentences InGap EmptyString EmptyString r
          else if is_stop c
          then split_sentences InStops EmptyString (String c EmptyString) r
          else split_sentences InSentence (String c EmptyString) EmptyString r
      end
  end.

Definition word_count (s : string) : Z := Z.of_nat (length (Py.split s)).

(** The loop of [chunk_text]: [chunks] are the chunks closed so far,
    [current_chunk] the sentences of the open one. *)
Fixpoint chunk_loop (chunk_size overlap : Z) (sentences : list string)
    (chunks : list string) (current_chunk : list string) (current_length : Z)
    : list string * list string :=
  match sentences with
  | [] => (chunks, current_chunk)
  | sentence :: rest =>
      let sentence_words := word_count sentence in
      if (chunk_size <? current_length + sentence_words)
         && negb (bool_decide (current_chunk = []))
      then
        let overlap_sentences :=
          if overlap / 20 <? Z.of_nat (length current_chunk)
          then Py.slice_from current_chunk ((- overlap) / 20)
          else current_chunk in
        let next_chunk := overlap_sentences ++ [sentence] in
        chunk_loop chunk_size overlap rest
          (chunks ++ [Py.join " " current_chunk]) next_chunk
          (fold_right Z.add 0 (map word_count next_chunk))
      else
        chunk_loop chunk_size overlap rest chunks
          (current_chunk ++ [sentence]) (current_length + sentence_words)
  end.

Definition chunk_text (text : string) (chunk_size overlap : Z) : list string :=
  let sentences := split_sentences InSentence EmptyString EmptyString text in
  let '(chunks, current_chunk) := chunk_loop chunk_size overlap sentences [] [] 0 in
  match current_chunk with
  | [] => chunks
  | _ :: _ => chunks ++ [Py.join " " current_chunk]
  end.

(** The page marker ["\n[Página n]\n"]. *)
Definition page_marker (page_num : nat) : string :=
  Py.chr 10 +:+ "[P" +:+ Py.chr 225 +:+ "gina " +:+ Py.str_of_int (Z.of_nat page_num)
  +:+ "]" +:+ Py.chr 10.

Definition option_truthy (o : option string) : option string :=
  match o with
  | Some s => if Py.truthy s then Some s else None
  | None => None
  end.

(** [metadata.update({'title': info.get(k_title, ''), ...})] when the
    document information is not empty. *)
Definition info_fields (info : gmap string value) (k_title k_author k_subject k_creator : string)
    (base : gmap string value) : gmap string value :=
  if bool_decide (info = ∅) then base
  else
    <["title" := default (VStr "") (info !! k_title)]>
    (<["author" := default (VStr "") (info !! k_author)]>
    (<["subject" := default (VStr "") (info !! k_subject)]>
    (<["creator" := default (VStr "") (info !! k_creator)]> base))).

Definition extract_text_pypdf2 (env : Env) (file_path : string)
    : string * gmap string value :=
  match pypdf2_reader env file_path with
  | None => (EmptyString, ∅)
  | Some pdf =>
      let base : gmap string value :=
        <["total_pages" := VInt (Z.of_nat (length (pypdf_pages pdf)))]>
        (<["extractor" := VStr "PyPDF2"]> ∅) in
      let meta := info_fields (pypdf_info pdf) "/Title" "/Author" "/Subject" "/Creator" base in
      let text :=
        fold_left (fun text '(i, page) =>
                     match page with
                     | Ok page_text =>
                         match option_truthy page_text with
                         | Some t => text +:+ page_marker (S i) +:+ t
                         | None => text
                         end
                     | Raise _ => text
                     end)
                  (Py.enumerate (pypdf_pages pdf)) EmptyString in
      (text, meta)
  end.

(** [_process_tables] *)
Definition table_row_text (row : list (option string)) : string :=
  match row with
  | [] => EmptyString
  | _ :: _ => Py.join " | " (map (default EmptyString) row) +:+ Py.chr 10
  end.

Definition _process_tables (tables : list (list (list (option string)))) : string :=
  Py.join (Py.chr 10)
    (omap (fun '(i, table) =>
             match table with
             | [] => None
             | _ :: _ =>
                 Some (fold_left (fun acc row => acc +:+ table_row_text row) table
                         ("Tabela " +:+ Py.str_of_int (Z.of_nat (S i)) +:+ ":" +:+ Py.chr 10))
             end)
          (Py.enumerate tables)).

(** The tables marker ["\n[Tabelas da página n]\n"]. *)
Definition tables_marker (page_num : nat) : string :=
  Py.chr 10 +:+ "[Tabelas da p" +:+ Py.chr 225 +:+ "gina "
  +:+ Py.str_of_int (Z.of_nat page_num) +:+ "]" +:+ Py.chr 10.

(** The text one pdfplumber page contributes; [None] when the page is
    skipped (no text, or one of the two calls raised). *)
Definition plumber_page_text (page_num : nat) (page : PlumberPage) : option string :=
  match plumber_text page with
  | Raise _ => None
  | Ok page_text =>
      match option_truthy page_text with
      | None => None
      | Some t =>
          match plumber_tables page with
          | Raise _ => None
          | Ok [] => Some t
          | Ok (tb :: tbs) =>
              Some (t +:+ tables_marker page_num +:+ _process_tables (tb :: tbs))
          end
      end
  end.

Definition extract_text_pdfplumber (env : Env) (file_path : string)
    : string * gmap string value :=
  match pdfplumber_open env file_path with
  | None => (EmptyString, ∅)
  | Some pdf =>
      let base : gmap string value :=
        <["total_pages" := VInt (Z.of_nat (length (plumber_pages pdf)))]>
        (<["extractor" := VStr "pdfplumber"]> ∅) in
      let meta := info_fields (plumber_info pdf) "Title" "Author" "Subject" "Creator" base in
      let text :=
        fold_left (fun text '(i, page) =>
                     match plumber_page_text (S i) page with
                     | Some t => text +:+ page_marker (S i) +:+ t
                     | None => text
                     end)
                  (Py.enumerate (plumber_pages pdf)) EmptyString in
      (text, meta)
  end.

Definition extract_text (env : Env) (file_path : string)
    : string * gmap string value :=
  let '(text, meta) := extract_text_pdfplumber env file_path in
  if (String.length (Py.strip text) <? 100)%nat
  then
    let '(text_pypdf2, metadata_pypdf2) := extract_text_pypdf2 env file_path in
    if (String.length (Py.strip text) <? String.length (Py.strip text_pypdf2))%nat
    then (text_pypdf2, metadata_pypdf2)
    else (text, meta)
  else (text, meta).

(** The dictionary built for chunk [i]; the keys of [pdf_metadata] are
    written last, as [**pdf_metadata] does. *)
Definition pdf_document (source : string) (total : nat)
    (pdf_metadata : gmap string value) (ic : nat * string) : gmap string value :=
  pdf_metadata ∪
  (<["content" := VStr (snd ic)]>
  (<["source" := VStr source]>
  (<["type" := VStr "pdf"]>
  (<["chunk_index" := VInt (Z.of_nat (fst ic))]>
  (<["total_chunks" := VInt (Z.of_nat total)]> ∅))))).

Definition index_file (env : Env) (st : Store) (file_path : string)
    : result bool * Store :=
  if negb (path_exists (fs env) file_path) then (Ok false, st)
  else if negb (String.eqb (Py.lower (path_suffix (fs env) file_path)) ".pdf")
  then (Ok false, st)
  else
    let '(text, pdf_metadata) := extract_text env file_path in
    if negb (Py.truthy (Py.strip text)) then (Ok false, st)
    else
      let cleaned_text := clean_text text in
      let chunks := chunk_text cleaned_text 400 100 in
      match chunks with
      | [] => (Ok false, st)
      | _ :: _ =>
          let docs :=
            map (pdf_document (path_str (fs env) file_path) (length chunks) pdf_metadata)
                (Py.enumerate chunks) in
          match mapM doc_content docs with
          | Ok contents =>
              (Ok true, store_extend st contents (encode (embed env) contents) docs)
          | Raise e => (Raise e, st)
          end
      end.

Definition search (env : Env) (st : Store)
    (query : string) (top_k : Z) (min_similarity : Q)
    : result (list Search.SearchResult) :=
  Search.search_with Ok (embed env) st query top_k min_similarity.

Record Stats : Type := {
  total_documents : nat;
  total_files : nat;
  total_pages : Z;
  files_processed : gset string;
  average_chunks_per_file : Q
}.

(** [meta.get('total_pages', 0)] inside [sum]. *)
Definition pages_of (m : gmap string value) : result Z :=
  match m !! "total_pages" with
  | None => Ok 0
  | Some (VInt n) => Ok n
  | Some _ => Raise TypeError
  end.

Definition get_stats (st : Store) : result Stats :=
  let* sources := mapM (meta_str "source") (metadata st) in
  let* pages := mapM pages_of (metadata st) in
  let files : gset string := list_to_set sources in
  Ok {| total_documents := length (documents st);
        total_files := size files;
        total_pages := fold_right Z.add 0 pages;
        files_processed := files;
        average_chunks_per_file :=
          if bool_decide (files = ∅) then 0%Q
          else (Z.of_nat (length (documents st)) # Pos.of_nat (size files))%Q |}.

End PDFIndexer.

(** ** Image indexer (src/indexing/image_indexer.py) *)

Module ImageIndexer.

(** What PIL reports for an opened image. *)
Record PilImage : Type := {
  img_format : value;
  img_mode : string;
  img_width : Z;
  img_height : Z
}.

(** PIL, hashlib and OpenCV. [exif_data] and [colors_analysis] are the
    dictionaries that [extract_exif_data] and [analyze_image_colors]
    return (empty when they fail); [describe] is
    [generate_image_description], whose text no property below looks
    into, and which raises on some EXIF values. *)
Record Env : Type := {
  fs : FileSystem;
  embed : Embedder;
  py_str : value -> string;
  image_open : string -> option PilImage;  (* None when it raises *)
  file_md5 : string -> option string;      (* None when reading raises *)
  open_error : string -> string;           (* str(e) of that exception *)
  exif_data : string -> list (value * value);
  colors_analysis : string -> list (value * value);
  describe : string -> gmap string value -> result string
}.

Definition supported_formats : list string :=
  [".jpg"; ".jpeg"; ".png"; ".bmp"; ".gif"; ".tiff"; ".tif"; ".webp"].

Definition _get_color_mode_description (mode : string) : string :=
  if String.eqb mode "1" then "Preto e Branco (1-bit)"
  else if String.eqb mode "L" then "Escala de Cinza (8-bit)"
  else if String.eqb mode "P" then "Paleta (8-bit)"
  else if String.eqb mode "RGB" then "RGB (24-bit)"
  else if String.eqb mode "RGBA"
  then "RGB com Transpar" +:+ Py.chr 234 +:+ "ncia (32-bit)"
  else if String.eqb mode "CMYK" then "CMYK (32-bit)"
  else if String.eqb mode "YCbCr" then "YCbCr (24-bit)"
  else if String.eqb mode "LAB" then "LAB (24-bit)"
  else if String.eqb mode "HSV" then "HSV (24-bit)"
  else "Desconhecido (" +:+ mode +:+ ")".

(** The EXIF-derived keys that [get_image_metadata] adds. *)
Definition add_exif (env : Env) (exif : list (value * value))
    (m : gmap string value) : gmap string value :=
  match exif with
  | [] => m
  | _ :: _ =>
      let m1 := <["exif" := VDict exif]> m in
      let m2 := match dict_get "DateTime" exif with
                | Some d => <["date_taken" := VStr (py_str env d)]> m1
                | None => m1
                end in
      let m3 := match dict_get "Make" exif, dict_get "Model" exif with
                | Some mk, Some md =>
                    <["camera" := VStr (py_str env mk +:+ " " +:+ py_str env md)]> m2
                | _, _ => m2
                end in
      match dict_get "Software" exif with
      | Some sw => <["software" := VStr (py_str env sw)]> m3
      | None => m3
      end
  end.

(** The dictionary of the [except] branch of [get_image_metadata]. *)
Definition error_metadata (env : Env) (image_path : string)
    : result (gmap string value) :=
  let* size :=
    (if path_exists (fs env) image_path
     then match stat_size (fs env) image_path with
          | Some n => Ok n
          | None => Raise OSError
          end
     else Ok 0) in
  Ok (<["file_size" := VInt size]>
     (<["format" := VStr (Py.lower (path_suffix (fs env) image_path))]>
     (<["error" := VStr (open_error env image_path)]> ∅))).

Definition get_image_metadata (env : Env) (image_path : string)
    : result (gmap string value) :=
  match stat_size (fs env) image_path, image_open env image_path,
        file_md5 env image_path with
  | Some size, Some image, Some file_hash =>
      let w := img_width image in
      let h := img_height image in
      let m : gmap string value :=
        <["file_size" := VInt size]>
        (<["format" := img_format image]>
        (<["mode" := VStr (img_mode image)]>
        (<["size" := VTuple [VInt w; VInt h]]>
        (<["width" := VInt w]>
        (<["height" := VInt h]>
        (<["file_hash" := VStr file_hash]>
        (<["aspect_ratio" :=
             if 0 <? h then VFloat (round2 (inject_Z w / inject_Z h)) else VInt 0]>
        (<["total_pixels" := VInt (w * h)]>
        (<["color_mode" := VStr (_get_color_mode_description (img_mode image))]>
         ∅))))))))) in
      Ok (add_exif env (exif_data env image_path) m)
  | _, _, _ => error_metadata env image_path
  end.

(** The colour names [_get_color_name] can return for a pixel without a
    dominant channel. *)
Definition grey_names : list string := ["branco"; "preto"; "cinza"].

(** [_get_color_name]; the list [rgb] is unpacked into its three
    channels. The block for a dominant red falls through when none of its
    two tests holds. *)
Definition _get_color_name (r g b : Z) : string :=
  let hi := Z.max r (Z.max g b) in
  let lo := Z.min r (Z.min g b) in
  if hi - lo <? 30 then
    if 200 <? hi then "branco" else if hi <? 80 then "preto" else "cinza"
  else
    let red :=
      if (g + 50 <? r) && (b + 50 <? r)
      then if (200 <? r) && (g <? 100) && (b <? 100) then Some "vermelho"
           else if (100 <? g) || (100 <? b) then Some "rosa" else None
      else None in
    match red with
    | Some name => name
    | None =>
        if (r + 50 <? g) && (b + 50 <? g) then "verde"
        else if (r + 50 <? b) && (g + 50 <? b) then "azul"
        else if (150 <? r) && (150 <? g) && (b <? 100) then "amarelo"
        else if (100 <? r) && (g <? 150) && (100 <? b) then "roxo"
        else if (150 <? r) && (100 <? g) && (b <? 100) then "laranja"
        else "colorido"
    end.

Definition index_file (env : Env) (st : Store) (file_path : string)
    : result bool * Store :=
  if negb (path_exists (fs env) file_path) then (Ok false, st)
  else if negb (bool_decide
                  (Py.lower (path_suffix (fs env) file_path) ∈ supported_formats))
  then (Ok false, st)
  else
    match get_image_metadata env file_path with
    | Raise e => (Raise e, st)
    | Ok image_metadata0 =>
        let image_metadata :=
          match colors_analysis env file_path with
          | [] => image_metadata0
          | c :: cs => <["colors_analysis" := VDict (c :: cs)]> image_metadata0
          end in
        match describe env file_path image_metadata with
        | Raise e => (Raise e, st)
        | Ok description =>
            let doc_metadata : gmap string value :=
              image_metadata ∪
              (<["content" := VStr description]>
              (<["source" := VStr (path_str (fs env) file_path)]>
              (<["type" := VStr "image"]>
              (<["chunk_index" := VInt 0]>
              (<["total_chunks" := VInt 1]> ∅))))) in
            match encode (embed env) [description] with
            | e :: _ =>
                (Ok true,
                 mkStore (documents st ++ [description])
                         (embeddings st ++ [e])
                         (metadata st ++ [doc_metadata]))
            | [] => (Raise IndexError, st)
            end
        end
    end.

(** [meta.get('file_size', 0) / (1024*1024)] rounded to two places. *)
Definition size_mb (m : gmap string value) : result Q :=
  let* n := num_of_value (default (VInt 0) (m !! "file_size")) in
  Ok (round2 (n / 1048576)).

(** The [visual_info] that [search] attaches to a hit. *)
Definition add_visual_info (env : Env) (r : Search.SearchResult)
    : result Search.SearchResult :=
  let meta := Search.result_metadata r in
  let* mb := size_mb meta in
  Ok (Search.mkResult (Search.content r) (Search.similarity r) meta
        (Search.time_info r)
        (Some [("dimensions",
                VStr (py_str env (default (VStr "N/A") (meta !! "width")) +:+ "x"
                      +:+ py_str env (default (VStr "N/A") (meta !! "height"))));
               ("format", default (VStr "N/A") (meta !! "format"));
               ("size_mb", VFloat mb);
               ("aspect_ratio", default (VInt 0) (meta !! "aspect_ratio"))])
        (Search.source_type r) (Search.is_topic_search r)).

Definition search (env : Env) (st : Store)
    (query : string) (top_k : Z) (min_similarity : Q)
    : result (list Search.SearchResult) :=
  Search.search_with (add_visual_info env) (embed env) st query top_k min_similarity.

Record Stats : Type := {
  total_images : nat;
  total_files : nat;
  total_size_mb : Q;
  files_processed : gset string
}.

(** [meta.get('file_size', 0)] inside [sum]. *)
Definition file_size_of (m : gmap string value) : result Z :=
  match m !! "file_size" with
  | None => Ok 0
  | Some (VInt n) => Ok n
  | Some _ => Raise TypeError
  end.

(** [get_stats]: [None] stands for the empty dictionary returned when
    nothing is indexed. Of the returned dictionary the counts, the total
    size and the file set are kept. *)
Definition get_stats (st : Store) : result (option Stats) :=
  match metadata st with
  | [] => Ok None
  | _ :: _ =>
      let* sources := mapM (meta_str "source") (metadata st) in
      let* sizes := mapM file_size_of (metadata st) in
      let files : gset string := list_to_set sources in
      Ok (Some {| total_images := length (documents st);
                  total_files := size files;
                  total_size_mb := round2 (inject_Z (fold_right Z.add 0 sizes) / 1048576);
                  files_processed := files |})
  end.

End ImageIndexer.

(** ** Video indexer (src/indexing/video_indexer.py) *)

Module VideoIndexer.

(** What moviepy reports for an opened video. *)
Record VideoClip : Type := {
  clip_duration : value;
  clip_fps : value;
  clip_w : Z;
  clip_h : Z;
  clip_has_audio : bool;      (* video.audio is not None *)
  clip_audio_writes : bool    (* audio.write_audiofile succeeds *)
}.

(** moviepy, tempfile, pydub, speech_recognition and [os.unlink]. The
    paths are those of the temporary files the calls read, write or
    remove. *)
Record Env : Type := {
  fs : FileSystem;
  embed : Embedder;
  speech_enabled : bool;                       (* self.speech_enabled *)
  video_open : string -> option VideoClip;     (* None when it raises *)
  temp_stem : gset string -> string;           (* the name tempfile picks, before its suffix *)
  convert_ok : string -> bool;                 (* from_file and export succeed *)
  wav_length_ms : string -> option Z;          (* len(AudioSegment.from_wav(p)) *)
  export_ok : string -> bool;                  (* chunk.export(p) succeeds *)
  audio_file_ok : string -> bool;              (* sr.AudioFile(p) can be recorded *)
  recognize : string -> list (result string);  (* what each engine answers, in order *)
  unlink_ok : string -> bool                   (* os.unlink(p) does not raise *)
}.

(** The temporary files on disk. *)
Definition Disk : Type := gset string.

(** [os.unlink(p)] inside [try: ... except: ...]: when the call raises,
    the exception is swallowed and the file stays. *)
Definition unlink (env : Env) (p : string) (disk : Disk) : Disk :=
  if unlink_ok env p then disk ∖ {[p]} else disk.

Definition supported_formats : list string :=
  [".mp4"; ".avi"; ".mov"; ".mkv"; ".m4v"; ".flv"; ".wmv"].

Record Segment : Type := mkSegment {
  seg_start : Q;
  seg_end : Q;
  seg_text : string
}.

Record Transcription : Type := mkTranscription {
  text : string;
  language : string;
  segments : list Segment
}.

Record Chunk : Type := mkChunk {
  chunk_text : string;
  start_time : Q;
  end_time : Q;
  chunk_segments : list Segment
}.

(** [extract_audio]: the path of the extracted audio, [None] when there is
    none, and the disk after the call. The temporary file is created
    before the audio track is looked at. *)
Definition extract_audio (env : Env) (disk : Disk) (video_path : string)
    : option string * Disk :=
  match video_open env video_path with
  | None => (None, disk)
  | Some video =>
      let temp_audio_path := temp_stem env disk +:+ ".wav" in
      let disk1 : Disk := {[temp_audio_path]} ∪ disk in
      if negb (clip_has_audio video) then (None, disk1)
      else if clip_audio_writes video then (Some temp_audio_path, disk1)
      else (None, disk1)
  end.

(** [audio_path.rsplit('.', 1)[0]] *)
Fixpoint before_last_dot (s : string) : option string :=
  match s with
  | EmptyString => None
  | String c r =>
      match before_last_dot r with
      | Some p => Some (String c p)
      | None => if Ascii.eqb c "." then Some EmptyString else None
      end
  end.

Definition _convert_to_wav (env : Env) (disk : Disk) (audio_path : string)
    : string * Disk :=
  if Py.endswith (Py.lower audio_path) ".wav" then (audio_path, disk)
  else if convert_ok env audio_path
  then let wav_path := default audio_path (before_last_dot audio_path) +:+ "_temp.wav" in
       (wav_path, {[wav_path]} ∪ disk)
  else (audio_path, disk).

(** The loop over the engines of [_transcribe_chunk]. *)
Fixpoint first_transcript (answers : list (result string)) : string :=
  match answers with
  | [] => EmptyString
  | Ok r :: rest =>
      if Py.truthy r && Py.truthy (Py.strip r) then r else first_transcript rest
  | Raise _ :: rest => first_transcript rest
  end.

Definition _transcribe_chunk (env : Env) (chunk_path : string) : result string :=
  if audio_file_ok env chunk_path
  then Ok (first_transcript (recognize env chunk_path))
  else Raise OSError.

(** The second loop of [transcribe_audio], over the 30-second pieces. *)
Fixpoint transcribe_chunks (env : Env) (wav_path : string)
    (chunks : list (nat * (Q * Q))) (disk : Disk)
    (full_text : string) (segs : list Segment)
    : string * list Segment * Disk :=
  match chunks with
  | [] => (full_text, segs, disk)
  | (i, (start, stop)) :: rest =>
      let chunk_path :=
        wav_path +:+ "_chunk_" +:+ Py.str_of_int (Z.of_nat i) +:+ ".wav" in
      if export_ok env chunk_path then
        let disk1 : Disk := {[chunk_path]} ∪ disk in
        match _transcribe_chunk env chunk_path with
        | Raise _ => transcribe_chunks env wav_path rest disk1 full_text segs
        | Ok t =>
            if Py.truthy (Py.strip t)
            then transcribe_chunks env wav_path rest (unlink env chunk_path disk1)
                   (full_text +:+ t +:+ " ")
                   (segs ++ [mkSegment start stop (Py.strip t)])
            else transcribe_chunks env wav_path rest (unlink env chunk_path disk1)
                   full_text segs
        end
      else transcribe_chunks env wav_path rest disk full_text segs
  end.

(** The placeholder ["[Transcrição não disponível - SpeechRecognition não
    instalado]"] and the marker the indexer looks for. *)
Definition unavailable_marker : string :=
  "[Transcri" +:+ Py.chr 231 +:+ Py.chr 227 +:+ "o n" +:+ Py.chr 227
  +:+ "o dispon" +:+ Py.chr 237 +:+ "vel".

Definition placeholder_text : string :=
  unavailable_marker +:+ " - SpeechRecognition n" +:+ Py.chr 227 +:+ "o instalado]".

Definition transcribe_audio (env : Env) (disk : Disk) (audio_path : string)
    : Transcription * Disk :=
  if negb (speech_enabled env)
  then (mkTranscription placeholder_text "unknown" [], disk)
  else
    let '(wav_path, disk1) := _convert_to_wav env disk audio_path in
    match wav_length_ms env wav_path with
    | None => (mkTranscription EmptyString "unknown" [], disk1)
    | Some len =>
        match Py.range 0 len 30000 with
        | Raise _ => (mkTranscription EmptyString "unknown" [], disk1)
        | Ok starts =>
            let chunks :=
              map (fun i => ((inject_Z i / 1000)%Q,
                             (inject_Z (i + Z.min 30000 (len - i)) / 1000)%Q))
                  starts in
            let '(full_text, segs, disk2) :=
              transcribe_chunks env wav_path (Py.enumerate chunks) disk1
                EmptyString [] in
            let disk3 :=
              if bool_decide (wav_path = audio_path) then disk2
              else unlink env wav_path disk2 in
            (mkTranscription (Py.strip full_text) "pt-BR" segs, disk3)
        end
    end.

(** The dictionary of the [except] branch of [get_video_metadata]. *)
Definition error_metadata (env : Env) (video_path : string)
    : result (gmap string value) :=
  let* size :=
    (if path_exists (fs env) video_path
     then match stat_size (fs env) video_path with
          | Some n => Ok n
          | None => Raise OSError
          end
     else Ok 0) in
  Ok (<["duration" := VNone]>
     (<["fps" := VNone]>
     (<["resolution" := VNone]>
     (<["file_size" := VInt size]>
     (<["format" := VStr (Py.lower (path_suffix (fs env) video_path))]> ∅))))).

Definition get_video_metadata (env : Env) (video_path : string)
    : result (gmap string value) :=
  match video_open env video_path, stat_size (fs env) video_path with
  | Some video, Some size =>
      Ok (<["duration" := clip_duration video]>
         (<["fps" := clip_fps video]>
         (<["resolution" :=
              if negb (clip_w video =? 0) && negb (clip_h video =? 0)
              then VTuple [VInt (clip_w video); VInt (clip_h video)]
              else VNone]>
         (<["file_size" := VInt size]>
         (<["format" := VStr (Py.lower (path_suffix (fs env) video_path))]> ∅)))))
  | _, _ => error_metadata env video_path
  end.

(** [f"{n:02d}"] *)
Definition format_02d (n : Z) : string :=
  if n <? 0 then "-" +:+ Py.str_of_int (- n)
  else if n <? 10 then "0" +:+ Py.str_of_int n
  else Py.str_of_int n.

Definition format_timestamp (seconds : Q) : string :=
  let minutes := Qfloor (seconds / 60) in
  let secs := Qfloor (seconds - 60 * inject_Z minutes) in
  format_02d minutes +:+ ":" +:+ format_02d secs.

(** The first loop of [chunk_transcription]: [chunks] are the chunks
    closed so far, [cur] is [current_chunk]. *)
Fixpoint time_chunks (chunk_duration : Q) (segs : list Segment)
    (chunks : list Chunk) (cur : Chunk) : list Chunk * Chunk :=
  match segs with
  | [] => (chunks, cur)
  | segment :: rest =>
      if Qle_bool (start_time cur + chunk_duration) (seg_start segment)
         && Py.truthy (chunk_text cur)
      then
        let closed := Py.strip (chunk_text cur) in
        let chunks' :=
          if Py.truthy closed
          then chunks ++ [mkChunk closed (start_time cur) (end_time cur)
                            (chunk_segments cur)]
          else chunks in
        time_chunks chunk_duration rest chunks'
          (mkChunk (seg_text segment) (seg_start segment) (seg_end segment) [segment])
      else
        let start' :=
          if Py.truthy (chunk_text cur) then start_time cur else seg_start segment in
        time_chunks chunk_duration rest chunks
          (mkChunk (chunk_text cur +:+ " " +:+ seg_text segment) start'
             (seg_end segment) (chunk_segments cur ++ [segment]))
  end.

(** [max(l, default=0)] *)
Definition max_default (l : list Q) : Q :=
  match l with
  | [] => 0%Q
  | x :: r => fold_left (fun a b => if Qle_bool a b then b else a) r x
  end.

(** [min(a, b)] *)
Definition Qmin_py (a b : Q) : Q := if Qle_bool a b then a else b.

(** The chunk the word-count fallback builds at word position [i]. *)
Definition word_chunk (transcription : Transcription) (words : list string)
    (word_chunk_size : Z) (i : Z) : Chunk :=
  let chunk_words := Py.slice words i (i + word_chunk_size) in
  let total_duration := max_default (map seg_end (segments transcription)) in
  let len := inject_Z (Z.of_nat (length words)) in
  let start_ratio := (inject_Z i / len)%Q in
  let end_ratio := Qmin_py (inject_Z (i + word_chunk_size) / len) 1 in
  mkChunk (Py.join " " chunk_words)
    (start_ratio * total_duration) (end_ratio * total_duration) [].

Definition chunk_transcription (transcription : Transcription) (chunk_duration : Q)
    : result (list Chunk) :=
  let '(closed, cur) :=
    time_chunks chunk_duration (segments transcription) []
      (mkChunk EmptyString 0 0 []) in
  let chunks :=
    if Py.truthy (Py.strip (chunk_text cur)) then closed ++ [cur] else closed in
  match chunks with
  | [] =>
      if Py.truthy (text transcription) then
        let words := Py.split (text transcription) in
        let* starts := Py.range 0 (Z.of_nat (length words)) 200 in
        Ok (map (word_chunk transcription words 200) starts)
      else Ok []
  | _ :: _ => Ok chunks
  end.

(** [video_metadata.get(key)] *)
Definition get_or_none (key : string) (m : gmap string value) : value :=
  default VNone (m !! key).

(** The dictionary built for chunk [i]. *)
Definition video_document (source : string) (total : nat) (lang : string)
    (video_metadata : gmap string value) (ic : nat * Chunk) : gmap string value :=
  let chunk := snd ic in
  <["content" := VStr (chunk_text chunk)]>
  (<["source" := VStr source]>
  (<["type" := VStr "video"]>
  (<["chunk_index" := VInt (Z.of_nat (fst ic))]>
  (<["total_chunks" := VInt (Z.of_nat total)]>
  (<["start_time" := VFloat (start_time chunk)]>
  (<["end_time" := VFloat (end_time chunk)]>
  (<["start_timestamp" := VStr (format_timestamp (start_time chunk))]>
  (<["end_timestamp" := VStr (format_timestamp (end_time chunk))]>
  (<["language" := VStr lang]>
  (<["duration" := get_or_none "duration" video_metadata]>
  (<["resolution" := get_or_none "resolution" video_metadata]>
  (<["fps" := get_or_none "fps" video_metadata]>
  (<["file_size" := get_or_none "file_size" video_metadata]>
  (<["segments_count" := VInt (Z.of_nat (length (chunk_segments chunk)))]>
   ∅)))))))))))))).

(** The [try] block of [index_file], from the transcription on. *)
Definition index_audio (env : Env) (st : Store) (disk : Disk)
    (file_path audio_path : string) (video_metadata : gmap string value)
    : result bool * Store * Disk :=
  let '(transcription, disk1) := transcribe_audio env disk audio_path in
  if (negb (Py.truthy (Py.strip (text transcription)))
      || Py.contains unavailable_marker (text transcription))
     && speech_enabled env
  then (Ok false, st, disk1)
  else
    match chunk_transcription transcription 60 with
    | Raise e => (Raise e, st, disk1)
    | Ok chunks =>
        let docs :=
          map (video_document (path_str (fs env) file_path) (length chunks)
                 (language transcription) video_metadata)
              (Py.enumerate chunks) in
        match docs with
        | [] => (Ok false, st, disk1)
        | _ :: _ =>
            match mapM doc_content docs with
            | Ok contents =>
                (Ok true,
                 store_extend st contents (encode (embed env) contents) docs,
                 disk1)
            | Raise e => (Raise e, st, disk1)
            end
        end
    end.

(** [index_file]: the returned boolean (or the exception), the store and
    the disk after the call. The [finally] clause covers the part after
    the audio has been extracted: it removes the audio file if the path
    is not empty and the file exists. *)
Definition index_file (env : Env) (st : Store) (disk : Disk) (file_path : string)
    : result bool * Store * Disk :=
  if negb (path_exists (fs env) file_path) then (Ok false, st, disk)
  else if negb (bool_decide
                  (Py.lower (path_suffix (fs env) file_path) ∈ supported_formats))
  then (Ok false, st, disk)
  else
    match get_video_metadata env file_path with
    | Raise e => (Raise e, st, disk)
    | Ok video_metadata =>
        (* the duration is printed with the format [.1f] *)
        match num_of_value (default (VInt 0) (video_metadata !! "duration")) with
        | Raise e => (Raise e, st, disk)
        | Ok _ =>
            match extract_audio env disk file_path with
            | (None, disk1) => (Ok false, st, disk1)
            | (Some audio_path, disk1) =>
                let '(r, st', disk2) :=
                  index_audio env st disk1 file_path audio_path video_metadata in
                let disk3 :=
                  if Py.truthy audio_path && bool_decide (audio_path ∈ disk2)
                  then unlink env audio_path disk2
                  else disk2 in
                (r, st', disk3)
            end
        end
    end.

(** The [time_info] that [search] attaches to a hit. *)
Definition add_time_info (r : Search.SearchResult) : result Search.SearchResult :=
  let meta := Search.result_metadata r in
  let* e := num_of_value (default (VInt 0) (meta !! "end_time")) in
  let* s := num_of_value (default (VInt 0) (meta !! "start_time")) in
  Ok (Search.mkResult (Search.content r) (Search.similarity r) meta
        (Some [("start", default (VStr "00:00") (meta !! "start_timestamp"));
               ("end", default (VStr "00:00") (meta !! "end_timestamp"));
               ("duration_seconds", VFloat (e - s))])
        (Search.visual_info r)
        (Search.source_type r) (Search.is_topic_search r)).

Definition search (env : Env) (st : Store)
    (query : string) (top_k : Z) (min_similarity : Q)
    : result (list Search.SearchResult) :=
  Search.search_with add_time_info (embed env) st query top_k min_similarity.

Record Stats : Type := {
  total_documents : nat;
  total_files : nat;
  total_duration_seconds : Q;
  total_duration_formatted : string;
  files_processed : gset string;
  average_chunks_per_file : Q;
  transcription_engine : string
}.

(** One term of [sum(meta.get('duration', 0) ... if meta.get('duration'))]. *)
Definition duration_of (m : gmap string value) : result Q :=
  match m !! "duration" with
  | None => Ok 0%Q
  | Some v => if value_truthy v then num_of_value v else Ok 0%Q
  end.

Definition get_stats (env : Env) (st : Store) : result Stats :=
  let* sources := mapM (meta_str "source") (metadata st) in
  let* durations := mapM duration_of (metadata st) in
  let files : gset string := list_to_set sources in
  let total_duration := fold_right Qplus 0%Q durations in
  Ok {| total_documents := length (documents st);
        total_files := size files;
        total_duration_seconds := total_duration;
        total_duration_formatted := format_timestamp total_duration;
        files_processed := files;
        average_chunks_per_file :=
          if bool_decide (files = ∅) then 0%Q
          else (Z.of_nat (length (documents st)) # Pos.of_nat (size files))%Q;
        transcription_engine :=
          if speech_enabled env then "SpeechRecognition"
          else "N" +:+ Py.chr 227 +:+ "o dispon" +:+ Py.chr 237 +:+ "vel" |}.

End VideoIndexer.

(** ** Retrieval aggregator (src/adaptive_learning/prompt_system.py) *)

Module AdaptivePromptSystem.

Section Dedup.

(** Python's [hash] on strings: fixed within one process, otherwise
    unspecified. *)
Variable py_hash : string -> Z.

(** [hash(result.get('content', '')[:100])] *)
Definition content_hash (r : Search.SearchResult) : Z :=
  py_hash (Py.prefix 100 (Search.content r)).

(** The loop of [_deduplicate_results]: [seen_content] is the set of
    fingerprints met so far. *)
Fixpoint dedup_loop (seen_content : gset Z) (results : list Search.SearchResult)
    : list Search.SearchResult :=
  match results with
  | [] => []
  | r :: rest =>
      if bool_decide (content_hash r ∈ seen_content)
      then dedup_loop seen_content rest
      else r :: dedup_loop ({[content_hash r]} ∪ seen_content) rest
  end.

Definition _deduplicate_results (results : list Search.SearchResult)
    : list Search.SearchResult :=
  dedup_loop ∅ results.

End Dedup.

(** An indexer as the aggregator uses it: its key in [self.indexers] and
    its [search] method. *)
Definition Indexer : Type :=
  (string * (string -> Z -> Q -> result (list Search.SearchResult)))%type.

(** [result['source_type'] = indexer_type] *)
Definition tag_source (indexer_type : string) (r : Search.SearchResult)
    : Search.SearchResult :=
  Search.mkResult (Search.content r) (Search.similarity r)
    (Search.result_metadata r) (Search.time_info r) (Search.visual_info r)
    (Some indexer_type) (Search.is_topic_search r).

(** [result['source_type'] = indexer_type; result['is_topic_search'] = True] *)
Definition tag_topic (indexer_type : string) (r : Search.SearchResult)
    : Search.SearchResult :=
  Search.mkResult (Search.content r) (Search.similarity r)
    (Search.result_metadata r) (Search.time_info r) (Search.visual_info r)
    (Some indexer_type) true.

(** The loop over the detected topics, inside the [try] of one indexer: a
    search that raises ends the work on that indexer, and what was
    appended before stays. *)
Fixpoint topic_hits (ix : Indexer) (detected_topics : list string)
    : list Search.SearchResult :=
  match detected_topics with
  | [] => []
  | topic :: rest =>
      let topic_query := Py.replace_char "_" " " topic in
      match snd ix topic_query 2 (1 # 5)%Q with
      | Ok topic_results => map (tag_topic (fst ix)) topic_results ++ topic_hits ix rest
      | Raise _ => []
      end
  end.

(** What one indexer adds to [all_results]. *)
Definition indexer_hits (similarity_threshold : Q) (query : string)
    (detected_topics : list string) (ix : Indexer) : list Search.SearchResult :=
  match snd ix query 3 similarity_threshold with
  | Ok results => map (tag_source (fst ix)) results ++ topic_hits ix detected_topics
  | Raise _ => []
  end.

(** [sorted(l, key=similarity, reverse=True)]: by non-increasing
    similarity, hits of equal similarity in their order in [l]. *)
Fixpoint insert_desc (x : Search.SearchResult) (l : list Search.SearchResult)
    : list Search.SearchResult :=
  match l with
  | [] => [x]
  | y :: r =>
      if Qle_bool (Search.similarity y) (Search.similarity x)
      then x :: y :: r
      else y :: insert_desc x r
  end.

Definition sorted_desc (l : list Search.SearchResult) : list Search.SearchResult :=
  fold_right insert_desc [] l.

(** [_search_indexed_content]. [indexers] are the items of
    [self.indexers] in iteration order; [max_search_results] and
    [similarity_threshold] are the attributes of that name. *)
Definition _search_indexed_content (py_hash : string -> Z)
    (indexers : list Indexer) (max_search_results : Z) (similarity_threshold : Q)
    (query : string) (detected_topics : list string) : list Search.SearchResult :=
  let all_results :=
    flat_map (indexer_hits similarity_threshold query detected_topics) indexers in
  let unique_results := _deduplicate_results py_hash all_results in
  let sorted_results := sorted_desc unique_results in
  Py.slice_to sorted_results max_search_results.

(** The update of [self.conversation_history] at the end of
    [process_user_input]: the interaction is appended and only the last
    [conversation_memory] ones are kept. *)
Definition remember {A} (conversation_memory : Z) (conversation_history : list A)
    (interaction : A) : list A :=
  let history := conversation_history ++ [interaction] in
  if conversation_memory <? Z.of_nat (length history)
  then Py.slice_from history (- conversation_memory)
  else history.

End AdaptivePromptSystem.

(** ** The ingestion driver (src/app.py) *)

Module App.

(** The modality whose indexer [index_resources_data] hands a file to,
    from the lower-cased suffix of the file; [None] when the file is
    skipped as unsupported. *)
Definition route (extension : string) : option string :=
  if bool_decide (extension ∈ [".txt"]) then Some "text"
  else if bool_decide (extension ∈ [".json"]) then Some "text"
  else if bool_decide (extension ∈ [".pdf"]) then Some "pdf"
  else if bool_decide (extension ∈ [".mp4"; ".avi"; ".mov"]) then Some "video"
  else if bool_decide (extension ∈ [".jpg"; ".jpeg"; ".png"; ".bmp"]) then Some "image"
  else None.

End App.

(** ** Predicates used in the statements *)

(** A string without whitespace. *)
Fixpoint no_space (s : string) : bool :=
  match s with
  | EmptyString => true
  | String c r => negb (Py.isspace c) && no_space r
  end.

(** A word: what [split] produces, a non-empty string without whitespace. *)
Definition wordlike (w : string) : Prop :=
  Py.truthy w = true ∧ no_space w = true.

(** The number of words of a text. *)
Definition count_words (s : string) : nat := length (Py.split s).

(** The three containers have the same length. *)
Definition aligned (st : Store) : Prop :=
  length (documents st) = length (embeddings st)
  ∧ length (embeddings st) = length (metadata st).

(** Position [i] of the three containers describes the same chunk: the
    metadata carries the document as its content and the embedding is the
    one of that document. *)
Definition index_aligned (embed : Embedder) (st : Store) : Prop :=
  Forall2 (fun d m => m !! "content" = Some (VStr d)) (documents st) (metadata st)
  ∧ embeddings st = map embed (documents st).

(** [st'] is [st] with the same number of entries appended to each
    container: no entry of [st] has moved in any of them. *)
Definition grows (st st' : Store) : Prop :=
  ∃ contents embs docs,
    length contents = length embs ∧ length embs = length docs
    ∧ documents st' = documents st ++ contents
    ∧ embeddings st' = embeddings st ++ embs
    ∧ metadata st' = metadata st ++ docs.

(** [st'] is [st] after a successful [index_file]: the documents [docs],
    each of which satisfies [P], were appended together with their
    contents and the embeddings of those contents. *)
Definition extended_with (embed : Embedder) (P : gmap string value -> Prop)
    (st st' : Store) : Prop :=
  ∃ docs contents,
    docs ≠ []
    ∧ mapM doc_content docs = Ok contents
    ∧ Forall P docs
    ∧ st' = store_extend st contents (encode embed contents) docs.

(** What a call of [index_file] that returned [r] did to the store:
    nothing unless it returned [True], and then an extension by documents
    that satisfy [P]. *)
Definition index_outcome (embed : Embedder) (P : gmap string value -> Prop)
    (st : Store) (r : result bool) (st' : Store) : Prop :=
  (r ≠ Ok true ∧ st' = st) ∨ (r = Ok true ∧ extended_with embed P st st').

(** The metadata of a document that comes from a JSON file. *)
Definition json_keys (source : string) (m : gmap string value) : Prop :=
  m !! "source" = Some (VStr source)
  ∧ m !! "type" = Some (VStr "json")
  ∧ m !! "chunk_index" = None
  ∧ m !! "total_chunks" = None.

(** What [search] of the image and of the video indexer read from the
    metadata of a hit. *)
Definition has_file_size (m : gmap string value) : Prop :=
  ∃ n, m !! "file_size" = Some (VInt n).

Definition has_times (m : gmap string value) : Prop :=
  ∃ s e, m !! "start_time" = Some (VFloat s) ∧ m !! "end_time" = Some (VFloat e).

(** The public operations of an indexer. *)
Inductive operation : Type :=
| OpIndexFile (file_path : string)
| OpSearch (query : string) (top_k : Z) (min_similarity : Q)
| OpGetStats.

(** The store after one public operation. [search] and [get_stats] only
    read the store. *)
Definition text_after (env : TextIndexer.Env) (st : Store) (op : operation) : Store :=
  match op with
  | OpIndexFile p => snd (TextIndexer.index_file env st p)
  | OpSearch _ _ _ | OpGetStats => st
  end.

Definition pdf_after (env : PDFIndexer.Env) (st : Store) (op : operation) : Store :=
  match op with
  | OpIndexFile p => snd (PDFIndexer.index_file env st p)
  | OpSearch _ _ _ | OpGetStats => st
  end.

Definition image_after (env : ImageIndexer.Env) (st : Store) (op : operation) : Store :=
  match op with
  | OpIndexFile p => snd (ImageIndexer.index_file env st p)
  | OpSearch _ _ _ | OpGetStats => st
  end.

Definition video_after (env : VideoIndexer.Env) (disk : VideoIndexer.Disk)
    (st : Store) (op : operation) : Store :=
  match op with
  | OpIndexFile p => snd (fst (VideoIndexer.index_file env st disk p))
  | OpSearch _ _ _ | OpGetStats => st
  end.

(** The stores an indexer can hold: the empty one, and what a call of
    [index_file] leaves. [step] is that call. *)
Inductive reachable (step : Store -> string -> Store) : Store -> Prop :=
| reach_empty : reachable step empty_store
| reach_index st file_path :
    reachable step st -> reachable step (step st file_path).

Definition text_step (env : TextIndexer.Env) (st : Store) (p : string) : Store :=
  snd (TextIndexer.index_file env st p).
Definition pdf_step (env : PDFIndexer.Env) (st : Store) (p : string) : Store :=
  snd (PDFIndexer.index_file env st p).
Definition image_step (env : ImageIndexer.Env) (st : Store) (p : string) : Store :=
  snd (ImageIndexer.index_file env st p).

(** For the video indexer the temporary files on disk vary from call to
    call; any disk is allowed at each step. *)
Inductive video_reachable (env : VideoIndexer.Env) : Store -> Prop :=
| vreach_empty : video_reachable env empty_store
| vreach_index st disk file_path :
    video_reachable env st ->
    video_reachable env (snd (fst (VideoIndexer.index_file env st disk file_path))).

(** The modality tags of the data model. *)
Definition modality_tags : list string := ["text"; "pdf"; "image"; "video"].

(** The keys every stored metadata is said to carry, for a chunk that
    comes from [source]. *)
Definition core_keys (source : string) (m : gmap string value) : Prop :=
  m !! "source" = Some (VStr source)
  ∧ (∃ t, m !! "type" = Some (VStr t) ∧ t ∈ modality_tags)
  ∧ is_Some (m !! "chunk_index")
  ∧ is_Some (m !! "total_chunks").

(** The documents a successful call of the text indexer appends: those
    of a .txt file carry the core keys, those of a .json file the JSON
    keys. *)
Definition text_doc (env : TextIndexer.Env) (file_path : string)
    (m : gmap string value) : Prop :=
  let source := path_str (TextIndexer.fs env) file_path in
  if String.eqb (Py.lower (path_suffix (TextIndexer.fs env) file_path)) ".txt"
  then core_keys source m
  else json_keys source m.

(** A dictionary that defines none of the keys [index_file] writes
    itself, so that merging it in with [**] overrides none of them. *)
Definition no_core_keys (m : gmap string value) : Prop :=
  m !! "content" = None ∧ m !! "source" = None ∧ m !! "type" = None
  ∧ m !! "chunk_index" = None ∧ m !! "total_chunks" = None.

(** The order [argsort] sorts positions by. *)
Definition by_key (key : nat -> Q) (i j : nat) : Prop := (key i <= key j)%Q.

(** What a search is said to return: at most [k] hits, ordered by
    non-increasing similarity, none below the threshold [m]. *)
Definition ranked (k : Z) (m : Q) (rs : list Search.SearchResult) : Prop :=
  Z.of_nat (length rs) <= k
  ∧ StronglySorted (fun a b => (Search.similarity b <= Search.similarity a)%Q) rs
  ∧ Forall (fun r => (m <= Search.similarity r)%Q) rs.

(** A chunk whose two time bounds are zero and print as 00:00. *)
Definition zero_timed (c : VideoIndexer.Chunk) : Prop :=
  (VideoIndexer.start_time c == 0)%Q
  ∧ (VideoIndexer.end_time c == 0)%Q
  ∧ VideoIndexer.format_timestamp (VideoIndexer.start_time c) = "00:00"
  ∧ VideoIndexer.format_timestamp (VideoIndexer.end_time c) = "00:00".

(** ** Sample files and environments *)

Module Sample.

(** A file system that holds the single file [path]. *)
Definition one_file (path suffix content : string) : FileSystem :=
  {| path_str := fun p => p;
     path_suffix := fun p => if String.eqb p path then suffix else EmptyString;
     path_name := fun p => p;
     path_exists := String.eqb path;
     stat_size := fun p => if String.eqb p path
                           then Some (Z.of_nat (String.length content)) else None;
     read_text := fun p => if String.eqb p path then Some content else None |}.

(** A two-dimensional embedding: the length of the text and a constant. *)
Definition embed : Embedder :=
  fun s => [inject_Z (Z.of_nat (String.length s)) / 100; 1]%Q.

Definition py_str (v : value) : string :=
  match v with
  | VStr s => s
  | VInt n => Py.str_of_int n
  | VBool true => "True"
  | VBool false => "False"
  | VNone => "None"
  | _ => "?"
  end.

(** A text of exactly 300 words. *)
Definition text_300 : string := Py.join " " (replicate 300 "word").

Definition txt_env : TextIndexer.Env :=
  {| TextIndexer.fs := one_file "notes.txt" ".txt" text_300;
     TextIndexer.embed := embed;
     TextIndexer.py_str := py_str;
     TextIndexer.json_load := fun _ => None |}.

(** An embedder whose stored rows have the similarity [float32 0.7] with
    the query loops: the largest float32 number below 0.7. *)
Definition edge_embed : Embedder :=
  fun s => if String.eqb s "loops" then [1%Q] else [float32 (7 # 10)].

Definition edge_env : TextIndexer.Env :=
  {| TextIndexer.fs := one_file "edge.txt" ".txt" "loops repeat work";
     TextIndexer.embed := edge_embed;
     TextIndexer.py_str := py_str;
     TextIndexer.json_load := fun _ => None |}.




(** A one-page PDF. *)
Definition pdf_env : PDFIndexer.Env :=
  {| PDFIndexer.fs := one_file "paper.pdf" ".PDF" "%PDF";
     PDFIndexer.embed := embed;
     PDFIndexer.pdfplumber_open :=
       fun p => if String.eqb p "paper.pdf"
                then Some {| PDFIndexer.plumber_pages :=
                               [{| PDFIndexer.plumber_text :=
                                     Ok (Some "Loops repeat work. Functions name work.");
                                   PDFIndexer.plumber_tables := Ok [] |}];
                             PDFIndexer.plumber_info := ∅ |}
                else None;
     PDFIndexer.pypdf2_reader := fun _ => None |}.

(** A 640x480 PNG. *)
Definition image_env : ImageIndexer.Env :=
  {| ImageIndexer.fs := one_file "photo.png" ".png" "PNG";
     ImageIndexer.embed := embed;
     ImageIndexer.py_str := py_str;
     ImageIndexer.image_open :=
       fun p => if String.eqb p "photo.png"
                then Some {| ImageIndexer.img_format := VStr "PNG";
                             ImageIndexer.img_mode := "RGB";
                             ImageIndexer.img_width := 640;
                             ImageIndexer.img_height := 480 |}
                else None;
     ImageIndexer.file_md5 := fun _ => Some "0cc175b9c0f1b6a831c399e269772661";
     ImageIndexer.open_error := fun _ => "cannot identify image file";
     ImageIndexer.exif_data := fun _ => [];
     ImageIndexer.colors_analysis := fun _ => [];
     ImageIndexer.describe :=
       fun _ _ => Ok "Imagem de 640x480 pixels (baixa resolucao). Formato PNG em RGB (24-bit)." |}.

(** A video: [has_audio] tells whether it has an audio track. Speech
    recognition is not installed. *)
Definition video_env (has_audio : bool) : VideoIndexer.Env :=
  {| VideoIndexer.fs := one_file "clip.mp4" ".mp4" "mp4";
     VideoIndexer.embed := embed;
     VideoIndexer.speech_enabled := false;
     VideoIndexer.video_open :=
       fun p => if String.eqb p "clip.mp4"
                then Some {| VideoIndexer.clip_duration := VFloat 12;
                             VideoIndexer.clip_fps := VFloat 25;
                             VideoIndexer.clip_w := 1280;
                             VideoIndexer.clip_h := 720;
                             VideoIndexer.clip_has_audio := has_audio;
                             VideoIndexer.clip_audio_writes := true |}
                else None;
     VideoIndexer.temp_stem := fun _ => "/tmp/tmpk3x9";
     VideoIndexer.convert_ok := fun _ => true;
     VideoIndexer.wav_length_ms := fun _ => Some 12000;
     VideoIndexer.export_ok := fun _ => true;
     VideoIndexer.audio_file_ok := fun _ => true;
     VideoIndexer.recognize := fun _ => [];
     VideoIndexer.unlink_ok := fun _ => true |}.

(** The same video with an audio track, on a system where [os.unlink]
    raises (the file is still held open, say). *)
Definition locked_video_env : VideoIndexer.Env :=
  {| VideoIndexer.fs := one_file "clip.mp4" ".mp4" "mp4";
     VideoIndexer.embed := embed;
     VideoIndexer.speech_enabled := false;
     VideoIndexer.video_open :=
       fun p => if String.eqb p "clip.mp4"
                then Some {| VideoIndexer.clip_duration := VFloat 12;
                             VideoIndexer.clip_fps := VFloat 25;
                             VideoIndexer.clip_w := 1280;
                             VideoIndexer.clip_h := 720;
                             VideoIndexer.clip_has_audio := true;
                             VideoIndexer.clip_audio_writes := true |}
                else None;
     VideoIndexer.temp_stem := fun _ => "/tmp/tmpk3x9";
     VideoIndexer.convert_ok := fun _ => true;
     VideoIndexer.wav_length_ms := fun _ => Some 12000;
     VideoIndexer.export_ok := fun _ => true;
     VideoIndexer.audio_file_ok := fun _ => true;
     VideoIndexer.recognize := fun _ => [];
     VideoIndexer.unlink_ok := fun _ => false |}.

(** The record [transcribe_audio] returns when speech recognition is not
    installed. *)
Definition placeholder : VideoIndexer.Transcription :=
  VideoIndexer.mkTranscription VideoIndexer.placeholder_text "unknown" [].

(** A bare hit, as the text and PDF indexers return it. *)
Definition hit (content : string) (sim : Q) : Search.SearchResult :=
  Search.mkResult content sim ∅ None None None false.

End Sample.

(** ** Further predicates *)

(** An answer of a speech engine that [_transcribe_chunk] passes over:
    the engine raised, or what it returned is blank. *)
Definition passed_over (answer : result string) : Prop :=
  match answer with
  | Raise _ => True
  | Ok r => Py.truthy (Py.strip r) = false
  end.

(** The hit is one that the search of an indexer in [indexers] returned,
    for the query or for one of the detected topics, and it carries the
    key of that indexer as its source type. *)
Definition returned_by (similarity_threshold : Q) (query : string)
    (detected_topics : list string) (indexers : list AdaptivePromptSystem.Indexer)
    (r : Search.SearchResult) : Prop :=
  ∃ ix, ix ∈ indexers
    ∧ Search.source_type r = Some (fst ix)
    ∧ ((∃ results r0,
          snd ix query 3 similarity_threshold = Ok results
          ∧ r0 ∈ results
          ∧ r = AdaptivePromptSystem.tag_source (fst ix) r0)
       ∨ (∃ topic results r0,
            topic ∈ detected_topics
            ∧ snd ix (Py.replace_char "_" " " topic) 2 (1 # 5)%Q = Ok results
            ∧ r0 ∈ results
            ∧ r = AdaptivePromptSystem.tag_topic (fst ix) r0)).

(** All characters of a string satisfy [p]. *)
Fixpoint all_chars (p : ascii -> bool) (s : string) : bool :=
  match s with
  | EmptyString => true
  | String c r => p c && all_chars p r
  end.

(** A chunk of a transcription cut by time: it starts where its first
    segment starts, ends where its last segment ends, and every one of
    its segments starts less than [chunk_duration] after the chunk. *)
Definition well_timed (chunk_duration : Q) (c : VideoIndexer.Chunk) : Prop :=
  (∃ first, head (VideoIndexer.chunk_segments c) = Some first
            ∧ VideoIndexer.start_time c = VideoIndexer.seg_start first)
  ∧ (∃ final, last (VideoIndexer.chunk_segments c) = Some final
              ∧ VideoIndexer.end_time c = VideoIndexer.seg_end final)
  ∧ Forall (fun seg => (VideoIndexer.seg_start seg
                        < VideoIndexer.start_time c + chunk_duration)%Q)
           (VideoIndexer.chunk_segments c).

(** * Properties *)

(** ** Words, joining and cleaning *)

Lemma app_String c (r s : string) : String c r +:+ s = String c (r +:+ s).
Proof. reflexivity. Qed.

Lemma truthy_app_l (a b : string) : Py.truthy a = true -> Py.truthy (a +:+ b) = true.
Proof. destruct a; [discriminate | reflexivity]. Qed.

Lemma split_head_nonspace c r :
  Py.isspace c = false -> exists w ws, Py.split (String c r) = String c w :: ws.
Proof.
  intros Hc. simpl. rewrite Hc.
  destruct r as [|d r']; [by eexists _, _|].
  destruct (Py.isspace d); [by eexists _, _|].
  destruct (Py.split (String d r')); by eexists _, _.
Qed.

Lemma split_wordlike t : Forall wordlike (Py.split t).
Proof.
  induction t as [|c r IH]; [constructor|].
  simpl. destruct (Py.isspace c) eqn:Hc; [exact IH|].
  destruct r as [|d r'].
  { repeat constructor. simpl. by rewrite Hc. }
  destruct (Py.isspace d) eqn:Hd.
  { constructor; [|exact IH]. split; [done|]. simpl. by rewrite Hc. }
  destruct (Py.split (String d r')) as [|w ws] eqn:Hs.
  { repeat constructor. simpl. by rewrite Hc. }
  inversion IH as [|? ? [Hw1 Hw2] Hws]; subst.
  constructor; [|done]. split; [done|]. simpl. by rewrite Hc.
Qed.

Lemma join_truthy w ws : Py.truthy w = true -> Py.truthy (Py.join " " (w :: ws)) = true.
Proof. intros H. simpl. destruct ws; [done|]. by apply truthy_app_l. Qed.

Lemma join_cons_cons (c : ascii) w ws :
  Py.join " " (String c w :: ws) = String c (Py.join " " (w :: ws)).
Proof. simpl. destruct ws; reflexivity. Qed.

Lemma lstrip_collapse_true t :
  Py.lstrip (Py.collapse_ws true t) = Py.collapse_ws true t.
Proof.
  induction t as [|c r IH]; [done|].
  simpl. destruct (Py.isspace c) eqn:Hc; [exact IH|]. simpl. by rewrite Hc.
Qed.

Lemma lstrip_collapse t :
  Py.lstrip (Py.collapse_ws false t) = Py.collapse_ws true t.
Proof.
  destruct t as [|c r]; [done|].
  simpl. destruct (Py.isspace c) eqn:Hc.
  - simpl. apply lstrip_collapse_true.
  - simpl. by rewrite Hc.
Qed.

Lemma rstrip_collapse t :
  Py.rstrip (Py.collapse_ws true t) = Py.join " " (Py.split t).
Proof.
  induction t as [|c r IH]; [done|].
  cbn [Py.collapse_ws Py.split]. destruct (Py.isspace c) eqn:Hc; [exact IH|].
  cbn [Py.rstrip]. rewrite Hc.
  destruct r as [|d r']; [done|].
  destruct (Py.isspace d) eqn:Hd.
  - (* the word ends here *)
    assert (Hr : Py.collapse_ws false (String d r') =
                 String " " (Py.collapse_ws true (String d r'))).
    { simpl. by rewrite Hd. }
    rewrite Hr. cbn [Py.rstrip]. rewrite IH.
    destruct (Py.split (String d r')) as [|w ws] eqn:Hs; [done|].
    pose proof (split_wordlike (String d r')) as Hw. rewrite Hs in Hw.
    inversion Hw as [|? ? [Hw1 _] _]; subst.
    pose proof (join_truthy w ws Hw1) as Hj.
    destruct (Py.join " " (w :: ws)) as [|j js] eqn:Ej; [discriminate|].
    change (Py.join " " (String c "" :: w :: ws))
      with (String c (String " " (Py.join " " (w :: ws)))).
    by rewrite Ej.
  - (* the word goes on *)
    assert (Hr : Py.collapse_ws false (String d r') = Py.collapse_ws true (String d r')).
    { simpl. by rewrite Hd. }
    rewrite Hr, IH.
    destruct (split_head_nonspace d r' Hd) as (w & ws & Hs). rewrite Hs.
    by rewrite !join_cons_cons.
Qed.

Lemma clean_text_join t : TextIndexer.clean_text t = Py.join " " (Py.split t).
Proof.
  unfold TextIndexer.clean_text, Py.strip.
  by rewrite lstrip_collapse, rstrip_collapse.
Qed.

Lemma split_word_then_space w s :
  wordlike w -> Py.split (w +:+ String " " s) = w :: Py.split s.
Proof.
  intros [Hne Hns]. induction w as [|c w' IH]; [discriminate|].
  simpl in Hns. apply andb_true_iff in Hns as [Hc Hw'].
  apply negb_true_iff in Hc.
  rewrite app_String. cbn [Py.split]. rewrite Hc.
  destruct w' as [|d w''].
  - reflexivity.
  - rewrite app_String.
    assert (Hd : Py.isspace d = false).
    { simpl in Hw'. apply andb_true_iff in Hw' as [Hd _]. by apply negb_true_iff. }
    rewrite Hd. rewrite <- app_String. by rewrite IH.
Qed.

Lemma split_word w : wordlike w -> Py.split w = [w].
Proof.
  intros [Hne Hns]. induction w as [|c w' IH]; [discriminate|].
  simpl in Hns. apply andb_true_iff in Hns as [Hc Hw'].
  apply negb_true_iff in Hc.
  cbn [Py.split]. rewrite Hc.
  destruct w' as [|d w'']; [done|].
  assert (Hd : Py.isspace d = false).
  { simpl in Hw'. apply andb_true_iff in Hw' as [Hd _]. by apply negb_true_iff. }
  rewrite Hd. by rewrite IH.
Qed.

Lemma split_join ws : Forall wordlike ws -> Py.split (Py.join " " ws) = ws.
Proof.
  induction 1 as [|w ws Hw Hws IH]; [done|].
  destruct ws as [|w2 ws'].
  - by apply split_word.
  - change (Py.join " " (w :: w2 :: ws'))
      with (w +:+ String " " (Py.join " " (w2 :: ws'))).
    by rewrite split_word_then_space, IH.
Qed.

Lemma split_clean_text t : Py.split (TextIndexer.clean_text t) = Py.split t.
Proof. rewrite clean_text_join. apply split_join, split_wordlike. Qed.

Lemma clean_text_idempotent t :
  TextIndexer.clean_text (TextIndexer.clean_text t) = TextIndexer.clean_text t.
Proof. by rewrite (clean_text_join (TextIndexer.clean_text t)), split_clean_text, clean_text_join. Qed.

(** ** Slices and ranges *)

Lemma slice_all {A} (l : list A) (j : Z) :
  Z.of_nat (length l) <= j -> Py.slice l 0 j = l.
Proof.
  intros Hj. unfold Py.slice, Py.clamp_index.
  replace (0 <? 0) with false by done.
  destruct (Z.ltb_spec j 0); [lia|].
  rewrite (Z.min_l 0) by lia. rewrite (Z.min_r j) by lia.
  rewrite Z.sub_0_r, Nat2Z.id. simpl. apply firstn_all.
Qed.

Lemma slice_suffix {A} (l : list A) (i j : Z) :
  0 <= i <= Z.of_nat (length l) -> Z.of_nat (length l) <= j ->
  Py.slice l i j = skipn (Z.to_nat i) l.
Proof.
  intros Hi Hj. unfold Py.slice, Py.clamp_index.
  destruct (Z.ltb_spec i 0); [lia|]. destruct (Z.ltb_spec j 0); [lia|].
  rewrite (Z.min_l i) by lia. rewrite (Z.min_r j) by lia.
  apply firstn_all2. rewrite length_skipn. lia.
Qed.

Lemma slice_to_firstn {A} (l : list A) (j : Z) :
  0 <= j -> Py.slice_to l j = firstn (Z.to_nat j) l.
Proof.
  intros Hj. unfold Py.slice_to, Py.slice, Py.clamp_index.
  replace (0 <? 0) with false by done.
  destruct (Z.ltb_spec j 0); [lia|].
  rewrite (Z.min_l 0) by lia. rewrite Z.sub_0_r.
  change (Z.to_nat 0) with 0%nat. rewrite skipn_O.
  destruct (Z.le_gt_cases j (Z.of_nat (length l))).
  - by rewrite Z.min_l by lia.
  - rewrite Z.min_r by lia. rewrite Nat2Z.id.
    rewrite firstn_all. symmetry. apply firstn_all2. lia.
Qed.

Lemma slice_to_length_le {A} (l : list A) (j : Z) :
  0 <= j -> Z.of_nat (length (Py.slice_to l j)) <= j.
Proof.
  intros Hj. rewrite slice_to_firstn by done. rewrite length_firstn. lia.
Qed.

Lemma slice_Forall {A} (P : A -> Prop) (l : list A) (i j : Z) :
  Forall P l -> Forall P (Py.slice l i j).
Proof. intros H. unfold Py.slice. by apply Forall_take, Forall_drop. Qed.

(** ** The error monad *)

Lemma mapM_map_ok {A B C} (f : B -> result C) (g : A -> B) (h : A -> C) l :
  (forall x, f (g x) = Ok (h x)) -> mapM f (map g l) = Ok (map h l).
Proof.
  intros H. induction l as [|a l IH]; [done|].
  simpl. by rewrite H, IH.
Qed.

Lemma mapM_length {A B} (f : A -> result B) l bs :
  mapM f l = Ok bs -> length bs = length l.
Proof.
  revert bs. induction l as [|a l IH]; intros bs; simpl.
  - by intros [= <-].
  - destruct (f a); [|done]. simpl.
    destruct (mapM f l) as [bs'|]; [|done]. simpl.
    intros [= <-]. simpl. f_equal. by apply IH.
Qed.

Lemma mapM_Forall2 {A B} (f : A -> result B) l bs :
  mapM f l = Ok bs -> Forall2 (fun a b => f a = Ok b) l bs.
Proof.
  revert bs. induction l as [|a l IH]; intros bs; simpl.
  - intros [= <-]. constructor.
  - destruct (f a) eqn:Ha; [|done]. simpl.
    destruct (mapM f l) as [bs'|]; [|done]. simpl.
    intros [= <-]. constructor; [done|]. by apply IH.
Qed.

Lemma enumerate_snd {A} (l : list A) : map snd (Py.enumerate l) = l.
Proof.
  unfold Py.enumerate. generalize 0%nat.
  induction l as [|a l IH]; intros k; [done|].
  simpl. f_equal. apply IH.
Qed.

Lemma enumerate_length {A} (l : list A) : length (Py.enumerate l) = length l.
Proof. unfold Py.enumerate. rewrite length_combine, length_seq. lia. Qed.

(** ** Word chunks of the text indexer *)

Lemma chunk_loop_words words chunk_size starts :
  Forall wordlike words ->
  Forall (fun c => (0 < count_words c)%nat)
         (TextIndexer.chunk_loop words chunk_size starts).
Proof.
  intros Hw. induction starts as [|i rest IH]; [constructor|].
  cbn [TextIndexer.chunk_loop].
  destruct (Py.truthy _) eqn:Ht; [|exact IH].
  constructor; [|exact IH].
  unfold count_words. rewrite split_join by by apply slice_Forall.
  destruct (Py.slice words i (i + chunk_size)); [discriminate|simpl; lia].
Qed.

Lemma range_300 : Py.range 0 (Z.of_nat 300) (300 - 50) = Ok [0; 250].
Proof. reflexivity. Qed.

Lemma chunk_text_300 text :
  count_words text = 300%nat ->
  TextIndexer.chunk_text text 300 50 =
    Ok [Py.join " " (Py.split text); Py.join " " (skipn 250 (Py.split text))].
Proof.
  unfold count_words. intros Hn.
  unfold TextIndexer.chunk_text. rewrite Hn, range_300. cbn [bind].
  pose proof (split_wordlike text) as Hw.
  cbn [TextIndexer.chunk_loop].
  rewrite slice_all by (rewrite Hn; lia).
  rewrite (slice_suffix _ 250) by (rewrite Hn; lia).
  change (Z.to_nat 250) with 250%nat.
  assert (H1 : Py.truthy (Py.join " " (Py.split text)) = true).
  { destruct (Py.split text) as [|w ws]; [discriminate|].
    inversion Hw as [|? ? [Hw1 _] _]; subst. by apply join_truthy. }
  assert (H2 : Py.truthy (Py.join " " (skipn 250 (Py.split text))) = true).
  { pose proof (Forall_drop _ 250 _ Hw) as Hd.
    pose proof (length_skipn 250 (Py.split text)) as Hl. rewrite Hn in Hl.
    destruct (skipn 250 (Py.split text)) as [|w ws]; [discriminate|].
    inversion Hd as [|? ? [Hw1 _] _]; subst. by apply join_truthy. }
  by rewrite H1, H2.
Qed.

(** ** The text indexer on a .txt file *)

Lemma txt_document_content source total ic :
  doc_content (TextIndexer.txt_document source total ic) = Ok (snd ic).
Proof.
  unfold doc_content, meta_str, TextIndexer.txt_document.
  by rewrite lookup_insert_eq.
Qed.

Lemma txt_documents_contents source total chunks :
  mapM doc_content
    (map (TextIndexer.txt_document source total) (Py.enumerate chunks)) = Ok chunks.
Proof.
  rewrite (mapM_map_ok _ _ snd) by apply txt_document_content.
  by rewrite enumerate_snd.
Qed.

Lemma chunk_text_defaults text :
  exists chunks,
    TextIndexer.chunk_text text 300 50 = Ok chunks
    ∧ Forall (fun c => (0 < count_words c)%nat) chunks.
Proof.
  unfold TextIndexer.chunk_text, Py.range.
  change (300 - 50 =? 0) with false. cbn [bind].
  eexists. split; [reflexivity|].
  apply chunk_loop_words, split_wordlike.
Qed.

Lemma process_txt_file_chunks env file_path content chunks :
  read_text (TextIndexer.fs env) file_path = Some content ->
  TextIndexer.chunk_text (TextIndexer.clean_text content) 300 50 = Ok chunks ->
  TextIndexer.process_txt_file env file_path =
    map (TextIndexer.txt_document (path_str (TextIndexer.fs env) file_path) (length chunks))
        (Py.enumerate chunks).
Proof.
  intros Hr Hc. unfold TextIndexer.process_txt_file. by rewrite Hr, Hc.
Qed.

Lemma index_txt_file env st file_path content chunks :
  path_exists (TextIndexer.fs env) file_path = true ->
  Py.lower (path_suffix (TextIndexer.fs env) file_path) = ".txt" ->
  read_text (TextIndexer.fs env) file_path = Some content ->
  TextIndexer.chunk_text (TextIndexer.clean_text content) 300 50 = Ok chunks ->
  chunks <> [] ->
  TextIndexer.index_file env st file_path =
    (Ok true,
     store_extend st chunks (encode (TextIndexer.embed env) chunks)
       (map (TextIndexer.txt_document (path_str (TextIndexer.fs env) file_path)
               (length chunks))
            (Py.enumerate chunks))).
Proof.
  intros He Hs Hr Hc Hne. unfold TextIndexer.index_file.
  rewrite He, Hs. cbn [negb String.eqb].
  change (".txt" =? ".txt")%string with true. cbn iota.
  rewrite (process_txt_file_chunks _ _ _ _ Hr Hc).
  rewrite txt_documents_contents.
  destruct chunks as [|c cs]; [done|]. reflexivity.
Qed.

(** C1, as the code has it. A .txt file whose cleaned text has exactly
    300 words is indexed, with the default chunk size 300 and overlap 50,
    as two chunks: the whole cleaned text, and the 50 words from position
    250 on, where the second window starts. *)
Theorem index_txt_300_words env st file_path content :
  path_exists (TextIndexer.fs env) file_path = true ->
  Py.lower (path_suffix (TextIndexer.fs env) file_path) = ".txt" ->
  read_text (TextIndexer.fs env) file_path = Some content ->
  count_words (TextIndexer.clean_text content) = 300%nat ->
  let cleaned := TextIndexer.clean_text content in
  let last_words := Py.join " " (skipn 250 (Py.split cleaned)) in
  TextIndexer.chunk_text cleaned 300 50 = Ok [cleaned; last_words]
  ∧ count_words last_words = 50%nat
  ∧ ∃ st', TextIndexer.index_file env st file_path = (Ok true, st')
           ∧ documents st' = documents st ++ [cleaned; last_words].
Proof.
  intros He Hs Hr Hn cleaned last_words.
  assert (Hc : TextIndexer.chunk_text cleaned 300 50 = Ok [cleaned; last_words]).
  { rewrite (chunk_text_300 cleaned Hn). unfold last_words.
    do 3 f_equal. subst cleaned.
    by rewrite <- clean_text_join, clean_text_idempotent. }
  split; [exact Hc|]. split.
  - unfold last_words, count_words.
    rewrite split_join by apply Forall_drop, split_wordlike.
    rewrite length_skipn. unfold count_words in Hn. fold cleaned in Hn.
    rewrite Hn. reflexivity.
  - eexists. split.
    + by apply (index_txt_file env st file_path content [cleaned; last_words]).
    + reflexivity.
Qed.

Lemma index_txt_300_words_witness :
  let cleaned := TextIndexer.clean_text Sample.text_300 in
  let last_words := Py.join " " (skipn 250 (Py.split cleaned)) in
  TextIndexer.chunk_text cleaned 300 50 = Ok [cleaned; last_words]
  ∧ count_words last_words = 50%nat
  ∧ ∃ st', TextIndexer.index_file Sample.txt_env empty_store "notes.txt" = (Ok true, st')
           ∧ documents st' = documents empty_store ++ [cleaned; last_words].
Proof.
  apply (index_txt_300_words Sample.txt_env empty_store "notes.txt" Sample.text_300).
  - reflexivity.
  - reflexivity.
  - reflexivity.
  - vm_compute. reflexivity.
Defined.

(** C1 fails as stated: the sample file has exactly 300 words after
    cleaning, and indexing it stores two chunks, not one. *)
Lemma one_chunk_for_300_words_fails :
  count_words (TextIndexer.clean_text Sample.text_300) = 300%nat
  ∧ TextIndexer.chunk_text (TextIndexer.clean_text Sample.text_300) 300 50
    <> Ok [TextIndexer.clean_text Sample.text_300]
  ∧ length (documents
              (snd (TextIndexer.index_file Sample.txt_env empty_store "notes.txt")))
    = 2%nat.
Proof.
  split; [vm_compute; reflexivity|]. split.
  - vm_compute. discriminate.
  - vm_compute. reflexivity.
Qed.

(** C2, as the code has it. Whenever the chunk size differs from the
    overlap, [chunk_text] returns, and every chunk it returns has at least
    one word. *)
Theorem chunk_text_never_empty_chunk text chunk_size overlap :
  chunk_size <> overlap ->
  ∃ chunks,
    TextIndexer.chunk_text text chunk_size overlap = Ok chunks
    ∧ Forall (fun c => (0 < count_words c)%nat) chunks.
Proof.
  intros Hne. unfold TextIndexer.chunk_text, Py.range.
  destruct (Z.eqb_spec (chunk_size - overlap) 0) as [H0|_]; [lia|].
  cbn [bind]. eexists. split; [reflexivity|].
  apply chunk_loop_words, split_wordlike.
Qed.

Lemma chunk_text_never_empty_chunk_witness :
  ∃ chunks,
    TextIndexer.chunk_text "for while if else return" 3 1 = Ok chunks
    ∧ Forall (fun c => (0 < count_words c)%nat) chunks.
Proof.
  apply (chunk_text_never_empty_chunk "for while if else return" 3 1). lia.
Defined.

(** C2 fails as stated: with the chunk size equal to the overlap the call
    raises instead of returning. *)
Lemma chunk_text_equal_size_overlap_raises :
  ¬ ∃ chunks,
      TextIndexer.chunk_text "for while if else return" 50 50 = Ok chunks
      ∧ Forall (fun c => (0 < count_words c)%nat) chunks.
Proof. intros (chunks & H & _). vm_compute in H. discriminate. Qed.

(** With an overlap larger than the chunk size the stride is negative and
    no chunk is produced at all. *)
Lemma chunk_text_negative_stride text chunk_size overlap :
  chunk_size < overlap -> TextIndexer.chunk_text text chunk_size overlap = Ok [].
Proof.
  intros Hlt. unfold TextIndexer.chunk_text, Py.range, Py.range_len.
  destruct (Z.eqb_spec (chunk_size - overlap) 0); [lia|].
  destruct (Z.ltb_spec 0 (chunk_size - overlap)); [lia|].
  destruct (Z.ltb_spec (Z.of_nat (length (Py.split text))) 0); [lia|].
  reflexivity.
Qed.

Lemma chunk_text_zero_stride text chunk_size :
  TextIndexer.chunk_text text chunk_size chunk_size = Raise ValueError.
Proof.
  unfold TextIndexer.chunk_text, Py.range. by rewrite Z.sub_diag.
Qed.

(** ** De-duplication in the aggregator *)

Section DedupFacts.

Variable py_hash : string -> Z.

Lemma dedup_loop_idempotent seen results :
  AdaptivePromptSystem.dedup_loop py_hash seen
    (AdaptivePromptSystem.dedup_loop py_hash seen results)
  = AdaptivePromptSystem.dedup_loop py_hash seen results.
Proof.
  revert seen. induction results as [|r rest IH]; intros seen; [done|].
  cbn [AdaptivePromptSystem.dedup_loop].
  destruct (bool_decide _) eqn:Hseen; [apply IH|].
  cbn [AdaptivePromptSystem.dedup_loop]. rewrite Hseen.
  f_equal. apply IH.
Qed.

(** Every hit that survives has a fingerprint that was not seen before. *)
Lemma dedup_loop_unseen seen results :
  Forall (fun r => AdaptivePromptSystem.content_hash py_hash r ∉ seen)
         (AdaptivePromptSystem.dedup_loop py_hash seen results).
Proof.
  revert seen. induction results as [|r rest IH]; intros seen; [constructor|].
  cbn [AdaptivePromptSystem.dedup_loop].
  destruct (bool_decide _) eqn:Hseen; [apply IH|].
  apply bool_decide_eq_false in Hseen.
  constructor; [done|].
  eapply Forall_impl; [apply IH|]. intros r' Hr'. set_solver.
Qed.

End DedupFacts.

(** C9. De-duplicating the output of the de-duplication step changes
    nothing, whatever [hash] is. *)
Theorem deduplicate_results_idempotent (py_hash : string -> Z)
    (results : list Search.SearchResult) :
  AdaptivePromptSystem._deduplicate_results py_hash
    (AdaptivePromptSystem._deduplicate_results py_hash results)
  = AdaptivePromptSystem._deduplicate_results py_hash results.
Proof. apply dedup_loop_idempotent. Qed.

(** ** Timestamps of the word-count fallback *)

Lemma format_timestamp_zero (q : Q) :
  (q == 0)%Q -> VideoIndexer.format_timestamp q = "00:00".
Proof.
  intros Hq. unfold VideoIndexer.format_timestamp.
  assert (H1 : Qfloor (q / 60) = 0).
  { rewrite Hq. reflexivity. }
  rewrite H1.
  assert (H2 : Qfloor (q - 60 * inject_Z 0) = 0).
  { rewrite Hq. reflexivity. }
  rewrite H2. reflexivity.
Qed.

Lemma word_chunk_zero_timed t words size i :
  VideoIndexer.segments t = [] ->
  zero_timed (VideoIndexer.word_chunk t words size i).
Proof.
  intros Hs. unfold VideoIndexer.word_chunk. rewrite Hs.
  cbn [map VideoIndexer.max_default].
  assert (Hz : forall x : Q, (x * 0 == 0)%Q) by (intros; ring).
  repeat split; cbn [VideoIndexer.start_time VideoIndexer.end_time];
    try apply format_timestamp_zero; apply Hz.
Qed.

(** C10. A transcription that has text but no segment is cut into word
    chunks, one per 200 words, and every one of them starts and ends at
    time zero and carries the timestamps 00:00. *)
Theorem word_fallback_timestamps_are_zero
    (t : VideoIndexer.Transcription) (chunk_duration : Q) :
  VideoIndexer.segments t = [] ->
  Py.truthy (VideoIndexer.text t) = true ->
  ∃ chunks,
    VideoIndexer.chunk_transcription t chunk_duration = Ok chunks
    ∧ length chunks
      = Z.to_nat (Py.range_len 0 (Z.of_nat (count_words (VideoIndexer.text t))) 200)
    ∧ Forall zero_timed chunks.
Proof.
  intros Hs Ht. unfold VideoIndexer.chunk_transcription.
  rewrite Hs. cbn [VideoIndexer.time_chunks VideoIndexer.chunk_text Py.strip
                   Py.lstrip Py.rstrip Py.truthy].
  rewrite Ht. unfold Py.range. change (200 =? 0) with false. cbn [bind].
  eexists. split; [reflexivity|]. split.
  - by rewrite !length_map, length_seq.
  - apply Forall_map, Forall_forall. intros i _.
    by apply word_chunk_zero_timed.
Qed.

Lemma word_fallback_timestamps_are_zero_witness :
  ∃ chunks,
    VideoIndexer.chunk_transcription Sample.placeholder 60 = Ok chunks
    ∧ length chunks
      = Z.to_nat (Py.range_len 0
                    (Z.of_nat (count_words (VideoIndexer.text Sample.placeholder))) 200)
    ∧ Forall zero_timed chunks.
Proof.
  apply (word_fallback_timestamps_are_zero Sample.placeholder 60).
  - reflexivity.
  - reflexivity.
Defined.

(** The placeholder of a missing speech engine gives exactly one chunk. *)
Lemma placeholder_one_chunk :
  Z.to_nat (Py.range_len 0
              (Z.of_nat (count_words (VideoIndexer.text Sample.placeholder))) 200)
  = 1%nat.
Proof. reflexivity. Qed.

(** ** Searching an empty store, indexing a missing file *)

Lemma search_with_empty decorate embed query top_k min_similarity :
  Search.search_with decorate embed empty_store query top_k min_similarity = Ok [].
Proof. reflexivity. Qed.

(** C7. On a store in which nothing has been indexed, [search] returns
    the empty list, in each of the four indexers. *)
Theorem search_empty_store_returns_nothing
    (tenv : TextIndexer.Env) (penv : PDFIndexer.Env)
    (ienv : ImageIndexer.Env) (venv : VideoIndexer.Env)
    (query : string) (top_k : Z) (min_similarity : Q) :
  TextIndexer.search tenv empty_store query top_k min_similarity = Ok []
  ∧ PDFIndexer.search penv empty_store query top_k min_similarity = Ok []
  ∧ ImageIndexer.search ienv empty_store query top_k min_similarity = Ok []
  ∧ VideoIndexer.search venv empty_store query top_k min_similarity = Ok [].
Proof. repeat split. Qed.

(** C8. [index_file] on a path that does not exist returns [False] and
    leaves the store (and, for videos, the disk) as it was. *)
Theorem index_missing_file_is_refused
    (tenv : TextIndexer.Env) (penv : PDFIndexer.Env)
    (ienv : ImageIndexer.Env) (venv : VideoIndexer.Env)
    (st : Store) (disk : VideoIndexer.Disk) (file_path : string) :
  path_exists (TextIndexer.fs tenv) file_path = false ->
  path_exists (PDFIndexer.fs penv) file_path = false ->
  path_exists (ImageIndexer.fs ienv) file_path = false ->
  path_exists (VideoIndexer.fs venv) file_path = false ->
  TextIndexer.index_file tenv st file_path = (Ok false, st)
  ∧ PDFIndexer.index_file penv st file_path = (Ok false, st)
  ∧ ImageIndexer.index_file ienv st file_path = (Ok false, st)
  ∧ VideoIndexer.index_file venv st disk file_path = (Ok false, st, disk).
Proof.
  intros Ht Hp Hi Hv.
  unfold TextIndexer.index_file, PDFIndexer.index_file,
    ImageIndexer.index_file, VideoIndexer.index_file.
  rewrite Ht, Hp, Hi, Hv. repeat split.
Qed.

Lemma index_missing_file_is_refused_witness :
  TextIndexer.index_file Sample.txt_env empty_store "missing.bin" = (Ok false, empty_store)
  ∧ PDFIndexer.index_file Sample.pdf_env empty_store "missing.bin" = (Ok false, empty_store)
  ∧ ImageIndexer.index_file Sample.image_env empty_store "missing.bin"
    = (Ok false, empty_store)
  ∧ VideoIndexer.index_file (Sample.video_env true) empty_store ∅ "missing.bin"
    = (Ok false, empty_store, ∅).
Proof.
  apply (index_missing_file_is_refused Sample.txt_env Sample.pdf_env Sample.image_env
           (Sample.video_env true) empty_store ∅ "missing.bin");
    reflexivity.
Defined.

(** ** A video without an audio track *)

(** The temporary file is created before the audio track is looked at,
    and the early return of [index_file] comes before its [try ...
    finally]: the file stays on disk. *)
Lemma index_file_no_audio_track env st disk file_path video size d :
  path_exists (VideoIndexer.fs env) file_path = true ->
  Py.lower (path_suffix (VideoIndexer.fs env) file_path) ∈ VideoIndexer.supported_formats ->
  VideoIndexer.video_open env file_path = Some video ->
  stat_size (VideoIndexer.fs env) file_path = Some size ->
  num_of_value (VideoIndexer.clip_duration video) = Ok d ->
  VideoIndexer.clip_has_audio video = false ->
  VideoIndexer.index_file env st disk file_path
  = (Ok false, st, {[VideoIndexer.temp_stem env disk +:+ ".wav"]} ∪ disk).
Proof.
  intros He Hs Hv Hz Hd Ha. unfold VideoIndexer.index_file.
  rewrite He. cbn [negb]. rewrite bool_decide_eq_true_2 by done. cbn [negb].
  unfold VideoIndexer.get_video_metadata. rewrite Hv, Hz.
  rewrite lookup_insert_eq. cbn [from_option id]. rewrite Hd.
  unfold VideoIndexer.extract_audio. rewrite Hv, Ha. reflexivity.
Qed.

(** C3 on the sample video without audio: [index_file] returns [False],
    and the temporary audio file it created is still on disk. *)
Theorem silent_video_leaves_temp_file :
  VideoIndexer.index_file (Sample.video_env false) empty_store ∅ "clip.mp4"
  = (Ok false, empty_store, {["/tmp/tmpk3x9.wav"]})
  ∧ "/tmp/tmpk3x9.wav" ∈
      snd (VideoIndexer.index_file (Sample.video_env false) empty_store ∅ "clip.mp4").
Proof.
  assert (H : VideoIndexer.index_file (Sample.video_env false) empty_store ∅ "clip.mp4"
              = (Ok false, empty_store, {["/tmp/tmpk3x9.wav"]})).
  { vm_compute. reflexivity. }
  split; [exact H|]. rewrite H. cbn [snd]. set_solver.
Qed.

(** With an audio track the same call removes the file again. *)
Lemma sounding_video_leaves_no_temp_file :
  snd (VideoIndexer.index_file (Sample.video_env true) empty_store ∅ "clip.mp4") = ∅.
Proof. vm_compute. reflexivity. Qed.

(** When [os.unlink] raises, the same call succeeds all the same and the
    file stays. *)
Example locked_video_leaves_temp_file :
  fst (fst (VideoIndexer.index_file Sample.locked_video_env empty_store ∅ "clip.mp4"))
  = Ok true
  ∧ snd (VideoIndexer.index_file Sample.locked_video_env empty_store ∅ "clip.mp4")
    = {["/tmp/tmpk3x9.wav"]}.
Proof. split; vm_compute; reflexivity. Qed.

(** ** Extending the store *)

Lemma aligned_empty : aligned empty_store.
Proof. by split. Qed.

Lemma encode_length embed contents : length (encode embed contents) = length contents.
Proof. apply length_map. Qed.

Lemma extended_grows embed P st st' : extended_with embed P st st' -> grows st st'.
Proof.
  intros (docs & contents & _ & Hc & _ & ->).
  exists contents, (encode embed contents), docs.
  rewrite encode_length. apply mapM_length in Hc. by rewrite Hc.
Qed.

Lemma grows_aligned st st' : grows st st' -> aligned st -> aligned st'.
Proof.
  intros (c & e & d & H1 & H2 & Hd & He & Hm) [A1 A2].
  unfold aligned. rewrite Hd, He, Hm, !length_app. lia.
Qed.

Lemma grows_refl st : grows st st.
Proof. exists [], [], []. by rewrite !app_nil_r. Qed.

Lemma index_outcome_grows embed P st r st' :
  index_outcome embed P st r st' -> grows st st'.
Proof.
  intros [[_ ->]|[_ H]]; [apply grows_refl | by eapply extended_grows].
Qed.

Lemma index_outcome_metadata embed (P : gmap string value -> Prop) st r st' :
  index_outcome embed P st r st' ->
  Forall P (metadata st) -> Forall P (metadata st').
Proof.
  intros [[_ ->]|[_ (docs & contents & _ & _ & Hd & ->)]] H; [done|].
  cbn. by apply Forall_app.
Qed.

Lemma index_outcome_weaken embed (P Q : gmap string value -> Prop) st r st' :
  (forall m, P m -> Q m) ->
  index_outcome embed P st r st' -> index_outcome embed Q st r st'.
Proof.
  intros HPQ [H|[Hr (docs & contents & H1 & H2 & H3 & H4)]]; [by left|].
  right. split; [done|]. exists docs, contents.
  repeat split; try done. by eapply Forall_impl.
Qed.

Lemma doc_content_inv m d : doc_content m = Ok d -> m !! "content" = Some (VStr d).
Proof.
  unfold doc_content, meta_str.
  destruct (m !! "content") as [[]|]; try discriminate. by intros [= ->].
Qed.

Lemma index_outcome_index_aligned embed P st r st' :
  index_outcome embed P st r st' ->
  index_aligned embed st -> index_aligned embed st'.
Proof.
  intros [[_ ->]|[_ (docs & contents & _ & Hc & _ & ->)]] [H1 H2]; [done|].
  split; cbn.
  - apply Forall2_app; [done|].
    apply mapM_Forall2 in Hc. apply Forall2_flip.
    eapply Forall2_impl; [exact Hc|]. intros m d. apply doc_content_inv.
  - unfold encode. by rewrite map_app, H2.
Qed.

(** ** What [index_file] does, indexer by indexer *)

Lemma txt_document_core_keys source total ic :
  core_keys source (TextIndexer.txt_document source total ic).
Proof.
  unfold core_keys, TextIndexer.txt_document. split; [|split; [|split]].
  - by simplify_map_eq.
  - exists "text". split; [by simplify_map_eq|]. unfold modality_tags. set_solver.
  - simplify_map_eq. eauto.
  - simplify_map_eq. eauto.
Qed.

Lemma process_txt_file_shape env file_path :
  ∃ chunks,
    TextIndexer.process_txt_file env file_path
    = map (TextIndexer.txt_document (path_str (TextIndexer.fs env) file_path)
             (length chunks))
          (Py.enumerate chunks).
Proof.
  unfold TextIndexer.process_txt_file.
  destruct (read_text _ _) as [content|]; [|by exists []].
  destruct (chunk_text_defaults (TextIndexer.clean_text content)) as (chunks & Hc & _).
  exists chunks. by rewrite Hc.
Qed.

Lemma json_item_document_keys env source i item :
  json_keys source (TextIndexer.json_item_document env source i item)
  ∧ ∃ c, doc_content (TextIndexer.json_item_document env source i item) = Ok c.
Proof.
  unfold json_keys, doc_content, meta_str, TextIndexer.json_item_document.
  split; [repeat split; by simplify_map_eq|].
  eexists. by simplify_map_eq.
Qed.

Lemma json_object_document_keys env source data :
  json_keys source (TextIndexer.json_object_document env source data)
  ∧ ∃ c, doc_content (TextIndexer.json_object_document env source data) = Ok c.
Proof.
  unfold json_keys, doc_content, meta_str, TextIndexer.json_object_document.
  split; [repeat split; by simplify_map_eq|].
  eexists. by simplify_map_eq.
Qed.

Lemma process_json_file_keys env file_path :
  Forall (fun m => json_keys (path_str (TextIndexer.fs env) file_path) m
                   ∧ ∃ c, doc_content m = Ok c)
         (TextIndexer.process_json_file env file_path).
Proof.
  unfold TextIndexer.process_json_file.
  destruct (TextIndexer.json_load env file_path) as [data|]; [|constructor].
  destruct data; try constructor; cbn [try_except].
  - apply Forall_forall. intros m Hm.
    apply list_elem_of_omap in Hm as ([i item] & _ & Hm).
    destruct (TextIndexer.is_dict item); [|done].
    injection Hm as <-. apply json_item_document_keys.
  - apply json_object_document_keys.
  - constructor.
Qed.

Lemma mapM_ok_Forall {A B} (f : A -> result B) l :
  Forall (fun a => ∃ b, f a = Ok b) l -> ∃ bs, mapM f l = Ok bs.
Proof.
  induction 1 as [|a l [b Hb] _ [bs IH]]; [by exists []|].
  exists (b :: bs). simpl. by rewrite Hb, IH.
Qed.

Lemma text_index_file_outcome env st file_path :
  index_outcome (TextIndexer.embed env) (text_doc env file_path) st
    (fst (TextIndexer.index_file env st file_path))
    (snd (TextIndexer.index_file env st file_path)).
Proof.
  unfold TextIndexer.index_file, text_doc.
  destruct (negb _); [by left|].
  destruct (String.eqb _ ".txt") eqn:Htxt.
  - destruct (process_txt_file_shape env file_path) as (chunks & ->).
    rewrite txt_documents_contents.
    destruct (map _ _) as [|d ds] eqn:Hd; [by left|].
    right. split; [done|]. exists (d :: ds), chunks.
    split; [done|]. split; [by rewrite <- Hd, txt_documents_contents|].
    split; [|done]. rewrite <- Hd. apply Forall_map, Forall_forall.
    intros ic _. apply txt_document_core_keys.
  - destruct (String.eqb _ ".json"); [|by left].
    pose proof (process_json_file_keys env file_path) as Hk.
    destruct (TextIndexer.process_json_file env file_path) as [|d ds]; [by left|].
    destruct (mapM_ok_Forall doc_content (d :: ds)) as [contents Hc].
    { eapply Forall_impl; [exact Hk|]. by intros m [_ H]. }
    rewrite Hc. right. split; [done|]. exists (d :: ds), contents.
    repeat split; try done. eapply Forall_impl; [exact Hk|]. by intros m [H _].
Qed.

Lemma no_core_keys_empty : no_core_keys ∅.
Proof. by repeat split. Qed.

Lemma no_core_keys_insert k v m :
  k <> "content" -> k <> "source" -> k <> "type" ->
  k <> "chunk_index" -> k <> "total_chunks" ->
  no_core_keys m -> no_core_keys (<[k := v]> m).
Proof.
  intros K1 K2 K3 K4 K5 (H1 & H2 & H3 & H4 & H5).
  repeat split; by rewrite lookup_insert_ne.
Qed.

Ltac fresh_key := apply no_core_keys_insert; [discriminate..|].

(** *** PDF *)

Lemma info_fields_no_core_keys info k1 k2 k3 k4 base :
  no_core_keys base -> no_core_keys (PDFIndexer.info_fields info k1 k2 k3 k4 base).
Proof.
  intros Hb. unfold PDFIndexer.info_fields. case_bool_decide; [done|].
  by repeat fresh_key.
Qed.

Lemma extract_text_pdfplumber_no_core_keys env file_path :
  no_core_keys (snd (PDFIndexer.extract_text_pdfplumber env file_path)).
Proof.
  unfold PDFIndexer.extract_text_pdfplumber.
  destruct (PDFIndexer.pdfplumber_open env file_path); [|apply no_core_keys_empty].
  cbn [snd]. apply info_fields_no_core_keys.
  repeat fresh_key. apply no_core_keys_empty.
Qed.

Lemma extract_text_pypdf2_no_core_keys env file_path :
  no_core_keys (snd (PDFIndexer.extract_text_pypdf2 env file_path)).
Proof.
  unfold PDFIndexer.extract_text_pypdf2.
  destruct (PDFIndexer.pypdf2_reader env file_path); [|apply no_core_keys_empty].
  cbn [snd]. apply info_fields_no_core_keys.
  repeat fresh_key. apply no_core_keys_empty.
Qed.

Lemma extract_text_no_core_keys env file_path :
  no_core_keys (snd (PDFIndexer.extract_text env file_path)).
Proof.
  unfold PDFIndexer.extract_text.
  pose proof (extract_text_pdfplumber_no_core_keys env file_path) as H1.
  pose proof (extract_text_pypdf2_no_core_keys env file_path) as H2.
  destruct (PDFIndexer.extract_text_pdfplumber env file_path) as [t1 m1].
  destruct (PDFIndexer.extract_text_pypdf2 env file_path) as [t2 m2].
  destruct (_ <? 100)%nat; [|done].
  by destruct (_ <? _)%nat.
Qed.

Lemma pdf_document_keys source total pdf_metadata ic :
  no_core_keys pdf_metadata ->
  core_keys source (PDFIndexer.pdf_document source total pdf_metadata ic)
  ∧ doc_content (PDFIndexer.pdf_document source total pdf_metadata ic) = Ok (snd ic).
Proof.
  intros (H1 & H2 & H3 & H4 & H5).
  unfold core_keys, doc_content, meta_str, PDFIndexer.pdf_document.
  rewrite !lookup_union_r by done.
  split; [split; [|split; [|split]]|].
  - by simplify_map_eq.
  - exists "pdf". split; [by simplify_map_eq|]. unfold modality_tags. set_solver.
  - simplify_map_eq. eauto.
  - simplify_map_eq. eauto.
  - by simplify_map_eq.
Qed.

Lemma pdf_index_file_outcome env st file_path :
  index_outcome (PDFIndexer.embed env)
    (core_keys (path_str (PDFIndexer.fs env) file_path)) st
    (fst (PDFIndexer.index_file env st file_path))
    (snd (PDFIndexer.index_file env st file_path)).
Proof.
  unfold PDFIndexer.index_file.
  destruct (negb (path_exists _ _)); [by left|].
  destruct (negb (String.eqb _ _)); [by left|].
  pose proof (extract_text_no_core_keys env file_path) as Hk.
  destruct (PDFIndexer.extract_text env file_path) as [text pdf_metadata].
  cbn [snd] in Hk.
  destruct (negb (Py.truthy _)); [by left|].
  set (chunks := PDFIndexer.chunk_text _ 400 100).
  set (docs := map _ (Py.enumerate chunks)).
  assert (Hc : mapM doc_content docs = Ok chunks).
  { unfold docs. rewrite (mapM_map_ok _ _ snd), enumerate_snd; [done|].
    intros ic. by apply pdf_document_keys. }
  assert (Hd : Forall (core_keys (path_str (PDFIndexer.fs env) file_path)) docs).
  { unfold docs. apply Forall_map, Forall_forall. intros ic _.
    by apply pdf_document_keys. }
  assert (Hl : length docs = length chunks).
  { unfold docs. by rewrite length_map, enumerate_length. }
  destruct chunks as [|c cs]; [by left|].
  rewrite Hc. right. split; [done|]. exists docs, (c :: cs).
  repeat split; done.
Qed.

(** *** Images *)

Lemma has_file_size_insert k v m :
  k <> "file_size" -> has_file_size m -> has_file_size (<[k := v]> m).
Proof. intros Hk [n Hn]. exists n. by rewrite lookup_insert_ne. Qed.

Lemma add_exif_keys env exif m :
  no_core_keys m ∧ has_file_size m ->
  no_core_keys (ImageIndexer.add_exif env exif m)
  ∧ has_file_size (ImageIndexer.add_exif env exif m).
Proof.
  intros [H1 H2]. unfold ImageIndexer.add_exif.
  destruct exif as [|e es]; [done|].
  repeat match goal with
         | |- context [match ?x with _ => _ end] => destruct x
         end;
    (split; [by repeat fresh_key | by repeat (apply has_file_size_insert; [done|])]).
Qed.

Lemma error_metadata_keys env image_path m :
  ImageIndexer.error_metadata env image_path = Ok m ->
  no_core_keys m ∧ has_file_size m.
Proof.
  unfold ImageIndexer.error_metadata.
  destruct (if path_exists _ _ then _ else _) as [size|]; [|done].
  cbn [bind]. intros [= <-]. split.
  - repeat fresh_key. apply no_core_keys_empty.
  - exists size. by simplify_map_eq.
Qed.

Lemma get_image_metadata_keys env image_path m :
  ImageIndexer.get_image_metadata env image_path = Ok m ->
  no_core_keys m ∧ has_file_size m.
Proof.
  unfold ImageIndexer.get_image_metadata.
  destruct (stat_size _ _) as [size|]; [|apply error_metadata_keys].
  destruct (ImageIndexer.image_open _ _) as [image|]; [|apply error_metadata_keys].
  destruct (ImageIndexer.file_md5 _ _) as [h|]; [|apply error_metadata_keys].
  intros [= <-]. apply add_exif_keys. split.
  - repeat fresh_key. apply no_core_keys_empty.
  - exists size. by simplify_map_eq.
Qed.

Lemma image_index_file_outcome env st file_path :
  index_outcome (ImageIndexer.embed env)
    (fun m => core_keys (path_str (ImageIndexer.fs env) file_path) m ∧ has_file_size m)
    st
    (fst (ImageIndexer.index_file env st file_path))
    (snd (ImageIndexer.index_file env st file_path)).
Proof.
  unfold ImageIndexer.index_file.
  destruct (negb (path_exists _ _)); [by left|].
  destruct (negb (bool_decide _)); [by left|].
  destruct (ImageIndexer.get_image_metadata env file_path) as [m0|] eqn:Hm; [|by left].
  apply get_image_metadata_keys in Hm as [Hk Hs].
  set (image_metadata := match ImageIndexer.colors_analysis env file_path with
                         | [] => m0 | c :: cs => _ end).
  assert (Hk' : no_core_keys image_metadata ∧ has_file_size image_metadata).
  { unfold image_metadata. destruct (ImageIndexer.colors_analysis env file_path); [done|].
    split; [by fresh_key | by apply has_file_size_insert]. }
  destruct Hk' as [(K1 & K2 & K3 & K4 & K5) [n Hn]].
  destruct (ImageIndexer.describe env file_path image_metadata) as [description|];
    [|by left].
  cbn [encode map fst snd]. right. split; [done|].
  eexists [_], [description]. split; [done|]. split; [|split; [|reflexivity]].
  - cbn [mapM]. unfold doc_content, meta_str.
    rewrite lookup_union_r by done. by simplify_map_eq.
  - constructor; [|constructor]. split.
    + unfold core_keys. rewrite !lookup_union_r by done.
      split; [|split; [|split]].
      * by simplify_map_eq.
      * exists "image". split; [by simplify_map_eq|]. unfold modality_tags. set_solver.
      * simplify_map_eq. eauto.
      * simplify_map_eq. eauto.
    + exists n. by apply lookup_union_Some_l.
Qed.

(** *** Videos *)

Lemma video_document_keys source total lang video_metadata ic :
  core_keys source (VideoIndexer.video_document source total lang video_metadata ic)
  ∧ has_times (VideoIndexer.video_document source total lang video_metadata ic)
  ∧ doc_content (VideoIndexer.video_document source total lang video_metadata ic)
    = Ok (VideoIndexer.chunk_text (snd ic)).
Proof.
  unfold core_keys, has_times, doc_content, meta_str, VideoIndexer.video_document.
  split; [split; [|split; [|split]]|split].
  - by simplify_map_eq.
  - exists "video". split; [by simplify_map_eq|]. unfold modality_tags. set_solver.
  - simplify_map_eq. eauto.
  - simplify_map_eq. eauto.
  - eexists _, _. by simplify_map_eq.
  - by simplify_map_eq.
Qed.

Lemma video_index_audio_outcome env st disk file_path audio_path video_metadata :
  index_outcome (VideoIndexer.embed env)
    (fun m => core_keys (path_str (VideoIndexer.fs env) file_path) m ∧ has_times m)
    st
    (fst (fst (VideoIndexer.index_audio env st disk file_path audio_path video_metadata)))
    (snd (fst (VideoIndexer.index_audio env st disk file_path audio_path video_metadata))).
Proof.
  unfold VideoIndexer.index_audio.
  destruct (VideoIndexer.transcribe_audio env disk audio_path) as [transcription disk1].
  destruct (_ && VideoIndexer.speech_enabled env); [by left|].
  destruct (VideoIndexer.chunk_transcription transcription 60) as [chunks|]; [|by left].
  set (docs := map _ (Py.enumerate chunks)).
  assert (Hc : mapM doc_content docs = Ok (map VideoIndexer.chunk_text chunks)).
  { unfold docs.
    rewrite (mapM_map_ok _ _ (fun ic => VideoIndexer.chunk_text (snd ic))).
    - by rewrite <- (map_map snd VideoIndexer.chunk_text), enumerate_snd.
    - intros ic. apply video_document_keys. }
  assert (Hd : Forall (fun m => core_keys (path_str (VideoIndexer.fs env) file_path) m
                                ∧ has_times m) docs).
  { unfold docs. apply Forall_map, Forall_forall. intros ic _.
    split; apply video_document_keys. }
  destruct docs as [|d ds] eqn:Ed; [by left|].
  rewrite Hc. right. split; [done|]. by exists (d :: ds), (map VideoIndexer.chunk_text chunks).
Qed.

Lemma video_index_file_outcome env st disk file_path :
  index_outcome (VideoIndexer.embed env)
    (fun m => core_keys (path_str (VideoIndexer.fs env) file_path) m ∧ has_times m)
    st
    (fst (fst (VideoIndexer.index_file env st disk file_path)))
    (snd (fst (VideoIndexer.index_file env st disk file_path))).
Proof.
  unfold VideoIndexer.index_file.
  destruct (negb (path_exists _ _)); [by left|].
  destruct (negb (bool_decide _)); [by left|].
  destruct (VideoIndexer.get_video_metadata env file_path) as [video_metadata|]; [|by left].
  destruct (num_of_value _); [|by left].
  destruct (VideoIndexer.extract_audio env disk file_path) as [[audio_path|] disk1];
    [|by left].
  pose proof (video_index_audio_outcome env st disk1 file_path audio_path video_metadata)
    as H.
  by destruct (VideoIndexer.index_audio _ _ _ _ _ _) as [[r st'] disk2].
Qed.

(** ** Ranking *)

Section Argsort.

Variable key : nat -> Q.

Lemma insert_by_perm i l : Search.insert_by key i l ≡ₚ i :: l.
Proof.
  induction l as [|j r IH]; [done|].
  cbn [Search.insert_by]. destruct (Qle_bool _ _); [done|].
  rewrite IH. apply perm_swap.
Qed.

Lemma insert_by_sorted i l :
  StronglySorted (by_key key) l -> StronglySorted (by_key key) (Search.insert_by key i l).
Proof.
  induction 1 as [|j r Hr IH Hj]; [repeat constructor|].
  cbn [Search.insert_by]. destruct (Qle_bool (key i) (key j)) eqn:Hle.
  - apply Qle_bool_iff in Hle.
    constructor; [by constructor|].
    constructor; [exact Hle|].
    eapply Forall_impl; [exact Hj|]. intros x Hx. unfold by_key in *.
    by eapply Qle_trans.
  - constructor; [exact IH|].
    rewrite insert_by_perm. constructor; [|exact Hj].
    unfold by_key. apply Qlt_le_weak, Qnot_le_lt. intros Hc.
    apply Qle_bool_iff in Hc. congruence.
Qed.

Lemma sort_by_insertion l :
  fold_right (Search.insert_by key) [] l ≡ₚ l
  ∧ StronglySorted (by_key key) (fold_right (Search.insert_by key) [] l).
Proof.
  induction l as [|i l [IH1 IH2]]; [by repeat constructor|].
  cbn [fold_right]. split.
  - by rewrite insert_by_perm, IH1.
  - by apply insert_by_sorted.
Qed.

End Argsort.

Lemma argsort_perm l : Search.argsort l ≡ₚ seq 0 (length l).
Proof. apply sort_by_insertion. Qed.

Lemma argsort_sorted l :
  StronglySorted (fun i j => (nth i l 0 <= nth j l 0)%Q) (Search.argsort l).
Proof. apply (sort_by_insertion (fun i => nth i l 0%Q)). Qed.

Lemma StronglySorted_rev {A} (R : relation A) l :
  StronglySorted R l -> StronglySorted (flip R) (rev l).
Proof.
  induction 1 as [|a l Hl IH Ha]; [constructor|].
  cbn [rev]. apply StronglySorted_app_2; [|exact IH|repeat constructor].
  intros x y Hx Hy. apply list_elem_of_singleton in Hy as ->.
  rewrite list_elem_of_In in Hx. apply in_rev in Hx.
  rewrite <- list_elem_of_In in Hx. unfold flip.
  by eapply Forall_forall in Ha.
Qed.

Lemma StronglySorted_take {A} (R : relation A) n l :
  StronglySorted R l -> StronglySorted R (take n l).
Proof.
  intros H. rewrite <- (take_drop n l) in H. by apply StronglySorted_app_1_l in H.
Qed.

(** ** float32 rounding *)

(** The float32 numbers nearest to 0.7 and to 0.1: the first is below,
    the second above the decimal. *)
Example float32_7_10 : Qred (float32 (7 # 10)) = (11744051 # 16777216)%Q.
Proof. vm_compute. reflexivity. Qed.

Example float32_1_10 : Qred (float32 (1 # 10)) = (13421773 # 134217728)%Q.
Proof. vm_compute. reflexivity. Qed.

Lemma pow2_pos e : (0 < 2 ^ e)%Q.
Proof. by apply Qpower_0_lt. Qed.

Lemma pow2_add a b : (2 ^ (a + b) == 2 ^ a * 2 ^ b)%Q.
Proof. by apply Qpower_plus. Qed.

Lemma pow2_le a b : a <= b -> (2 ^ a <= 2 ^ b)%Q.
Proof. intros H. by apply Qpower_le_compat_l. Qed.

Lemma pow2_Z a : 0 <= a -> (2 ^ a == inject_Z (2 ^ a))%Q.
Proof. intros H. symmetry. by apply (Zpower_Qpower 2). Qed.

Lemma round_half_even_floor q : Qfloor q <= round_half_even q <= Qfloor q + 1.
Proof.
  unfold round_half_even. destruct (_ ?= _)%Q; [destruct (Z.even _)| |]; lia.
Qed.

Lemma round_half_even_ge q N : (inject_Z N <= q)%Q -> N <= round_half_even q.
Proof.
  intros H. pose proof (round_half_even_floor q).
  assert (N <= Qfloor q); [|lia].
  rewrite <- (Qfloor_Z N). by apply Qfloor_resp_le.
Qed.

Lemma round_half_even_le q N : (q <= inject_Z N)%Q -> round_half_even q <= N.
Proof.
  intros H. unfold round_half_even.
  pose proof (Qfloor_le q) as Hf. pose proof (Qlt_floor q) as Hc.
  assert (Hle : Qfloor q <= N).
  { rewrite <- (Qfloor_Z N). by apply Qfloor_resp_le. }
  destruct (Z.eq_dec (Qfloor q) N) as [Heq|Hne].
  - rewrite Heq in Hf |- *.
    assert (Hc' : (q - inject_Z N ?= 1 # 2)%Q = Lt).
    { apply (proj1 (Qlt_alt _ _)). clear Hc.
      generalize dependent (inject_Z N). intros v; intros. lra. }
    rewrite Hc'. lia.
  - destruct (_ ?= _)%Q; [destruct (Z.even _)| |]; lia.
Qed.

Lemma binade_spec x :
  (0 < x)%Q -> (2 ^ binade x <= x)%Q ∧ (x < 2 ^ (binade x + 1))%Q.
Proof.
  destruct x as [n d]. intros Hx.
  assert (Hn : 0 < n). { unfold Qlt in Hx. simpl in Hx. lia. }
  unfold binade. cbn [Qnum Qden].
  set (a := Z.log2 n). set (b := Z.log2 (Z.pos d)).
  assert (Ha0 : 0 <= a) by apply Z.log2_nonneg.
  assert (Hb0 : 0 <= b) by apply Z.log2_nonneg.
  destruct (Z.log2_spec n Hn) as [Ha1 Ha2]. fold a in Ha1, Ha2.
  destruct (Z.log2_spec (Z.pos d)) as [Hb1 Hb2]; [lia|]. fold b in Hb1, Hb2.
  assert (Hpa : 0 < 2 ^ a) by (apply Z.pow_pos_nonneg; lia).
  assert (Hpb : 0 < 2 ^ b) by (apply Z.pow_pos_nonneg; lia).
  assert (Hup : (n # d < 2 ^ (a - b + 1))%Q).
  { replace (a - b + 1) with (Z.succ a - b) by lia.
    rewrite Qpower_minus by done. rewrite !pow2_Z by lia.
    apply Qlt_shift_div_l.
    - change 0%Q with (inject_Z 0). rewrite <- Zlt_Qlt. done.
    - unfold Qlt, Qmult, inject_Z. cbn [Qnum Qden].
      rewrite Pos.mul_1_r. nia. }
  assert (Hlo : (2 ^ (a - b - 1) < n # d)%Q).
  { replace (a - b - 1) with (a - Z.succ b) by lia.
    rewrite Qpower_minus by done. rewrite !pow2_Z by lia.
    apply Qlt_shift_div_r.
    - change 0%Q with (inject_Z 0). rewrite <- Zlt_Qlt. lia.
    - unfold Qlt, Qmult, inject_Z. cbn [Qnum Qden].
      rewrite Pos.mul_1_r. nia. }
  destruct (Qle_bool (2 ^ (a - b)) (n # d)) eqn:Hc.
  - split; [by apply Qle_bool_iff|exact Hup].
  - split; [by apply Qlt_le_weak|].
    replace (a - b - 1 + 1) with (a - b) by lia.
    apply Qnot_le_lt. intros Hle. apply Qle_bool_iff in Hle. congruence.
Qed.

Lemma exponent32_upper x : (0 < x)%Q -> (x < 2 ^ (exponent32 x + 1))%Q.
Proof.
  intros Hx. destruct (binade_spec x Hx) as [_ H].
  eapply Qlt_le_trans; [exact H|]. apply pow2_le. unfold exponent32. lia.
Qed.

Lemma exponent32_lower x :
  (0 < x)%Q -> -126 < exponent32 x -> (2 ^ exponent32 x <= x)%Q.
Proof.
  intros Hx He. destruct (binade_spec x Hx) as [H _].
  unfold exponent32 in *. by replace (Z.max (binade x) (-126)) with (binade x) by lia.
Qed.

Lemma ulp32_pos x : (0 < ulp32 x)%Q.
Proof. apply pow2_pos. Qed.

Lemma pow2_exponent32 x k :
  0 <= k -> (2 ^ (exponent32 x - 23 + k) == inject_Z (2 ^ k) * ulp32 x)%Q.
Proof.
  intros Hk. unfold ulp32. rewrite Z.add_comm, pow2_add, pow2_Z by done. reflexivity.
Qed.

Lemma sig32_le x : (0 < x)%Q -> sig32 x <= 2 ^ 24.
Proof.
  intros Hx. apply round_half_even_le.
  apply Qle_shift_div_r; [apply ulp32_pos|].
  rewrite <- pow2_exponent32 by lia.
  replace (exponent32 x - 23 + 24) with (exponent32 x + 1) by lia.
  by apply Qlt_le_weak, exponent32_upper.
Qed.

Lemma sig32_ge x : (0 < x)%Q -> -126 < exponent32 x -> 2 ^ 23 <= sig32 x.
Proof.
  intros Hx He. apply round_half_even_ge.
  apply Qle_shift_div_l; [apply ulp32_pos|].
  rewrite <- pow2_exponent32 by lia.
  replace (exponent32 x - 23 + 23) with (exponent32 x) by lia.
  by apply exponent32_lower.
Qed.

Lemma sig32_nonneg x : (0 < x)%Q -> 0 <= sig32 x.
Proof.
  intros Hx. apply round_half_even_ge.
  apply Qle_shift_div_l; [apply ulp32_pos|].
  change (inject_Z 0) with 0%Q. rewrite Qmult_0_l. by apply Qlt_le_weak.
Qed.

Lemma float32_pos_nonneg x : (0 < x)%Q -> (0 <= float32_pos x)%Q.
Proof.
  intros Hx. unfold float32_pos. apply Qmult_le_0_compat.
  - change 0%Q with (inject_Z 0). rewrite <- Zle_Qle. by apply sig32_nonneg.
  - apply Qlt_le_weak, ulp32_pos.
Qed.

Lemma float32_pos_upper x : (0 < x)%Q -> (float32_pos x <= 2 ^ (exponent32 x + 1))%Q.
Proof.
  intros Hx. unfold float32_pos.
  replace (exponent32 x + 1) with (exponent32 x - 23 + 24) by lia.
  rewrite pow2_exponent32 by lia.
  apply Qmult_le_compat_r; [|apply Qlt_le_weak, ulp32_pos].
  rewrite <- Zle_Qle. by apply sig32_le.
Qed.

Lemma float32_pos_lower x :
  (0 < x)%Q -> -126 < exponent32 x -> (2 ^ exponent32 x <= float32_pos x)%Q.
Proof.
  intros Hx He. unfold float32_pos.
  replace (exponent32 x) with (exponent32 x - 23 + 23) at 1 by lia.
  rewrite pow2_exponent32 by lia.
  apply Qmult_le_compat_r; [|apply Qlt_le_weak, ulp32_pos].
  rewrite <- Zle_Qle. by apply sig32_ge.
Qed.

(** A float32 value at or above [m] is at or above the rounding of [m]:
    rounding to nearest does not step over a float32 value. *)
Lemma float32_pos_above m x :
  (0 < m)%Q -> (0 < x)%Q -> (m <= float32_pos x)%Q ->
  (float32_pos m <= float32_pos x)%Q.
Proof.
  intros Hm Hx Hle.
  destruct (Z_le_gt_dec (exponent32 m) (exponent32 x)) as [He|He].
  - set (N := sig32 x * 2 ^ (exponent32 x - exponent32 m)).
    assert (HN : (float32_pos x == inject_Z N * ulp32 m)%Q).
    { unfold float32_pos, N. rewrite inject_Z_mult, <- Qmult_assoc.
      rewrite <- pow2_exponent32 by lia.
      replace (exponent32 m - 23 + (exponent32 x - exponent32 m))
        with (exponent32 x - 23) by lia.
      reflexivity. }
    assert (Hs : sig32 m <= N).
    { apply round_half_even_le. apply Qle_shift_div_r; [apply ulp32_pos|].
      by rewrite <- HN. }
    rewrite HN. unfold float32_pos.
    apply Qmult_le_compat_r; [|apply Qlt_le_weak, ulp32_pos].
    by rewrite <- Zle_Qle.
  - assert (Hm1 : (2 ^ exponent32 m <= m)%Q).
    { apply exponent32_lower; [done|]. unfold exponent32 in *. lia. }
    assert (Hx1 : (float32_pos x <= 2 ^ exponent32 m)%Q).
    { eapply Qle_trans; [by apply float32_pos_upper|]. apply pow2_le. lia. }
    assert (Hs : sig32 m <= 2 ^ 23).
    { apply round_half_even_le. apply Qle_shift_div_r; [apply ulp32_pos|].
      rewrite <- pow2_exponent32 by lia.
      replace (exponent32 m - 23 + 23) with (exponent32 m) by lia.
      eapply Qle_trans; [exact Hle|exact Hx1]. }
    eapply Qle_trans; [|eapply Qle_trans; [exact Hm1|exact Hle]].
    unfold float32_pos.
    replace (2 ^ exponent32 m)%Q with (2 ^ (exponent32 m - 23 + 23))%Q
      by (f_equal; lia).
    rewrite pow2_exponent32 by lia.
    apply Qmult_le_compat_r; [|apply Qlt_le_weak, ulp32_pos].
    by rewrite <- Zle_Qle.
Qed.

Lemma float32_pos_below m x :
  (0 < m)%Q -> (0 < x)%Q -> (float32_pos x <= m)%Q ->
  (float32_pos x <= float32_pos m)%Q.
Proof.
  intros Hm Hx Hle.
  destruct (Z.lt_trichotomy (exponent32 m) (exponent32 x)) as [He|[He|He]].
  - exfalso.
    assert (H1 : (2 ^ exponent32 x <= float32_pos x)%Q)
      by (apply float32_pos_lower; [done|unfold exponent32 in *; lia]).
    assert (H2 : (m < 2 ^ (exponent32 m + 1))%Q) by (by apply exponent32_upper).
    assert (H3 : (2 ^ (exponent32 m + 1) <= 2 ^ exponent32 x)%Q) by (apply pow2_le; lia).
    apply (Qlt_irrefl m).
    eapply Qlt_le_trans; [exact H2|].
    eapply Qle_trans; [exact H3|]. eapply Qle_trans; [exact H1|exact Hle].
  - assert (Hs : sig32 x <= sig32 m).
    { apply round_half_even_ge. apply Qle_shift_div_l; [apply ulp32_pos|].
      unfold float32_pos in Hle. unfold ulp32 in *. by rewrite He. }
    unfold float32_pos. unfold ulp32. rewrite He.
    apply Qmult_le_compat_r; [|apply Qlt_le_weak, pow2_pos].
    by rewrite <- Zle_Qle.
  - eapply Qle_trans; [by apply float32_pos_upper|].
    eapply Qle_trans; [|apply float32_pos_lower; [done|unfold exponent32 in *; lia]].
    apply pow2_le. lia.
Qed.

Lemma float32_cases x :
  (x == 0 ∧ float32 x = 0)%Q
  ∨ (x < 0 ∧ float32 x = - float32_pos (- x))%Q
  ∨ (0 < x ∧ float32 x = float32_pos x)%Q.
Proof.
  unfold float32. destruct (x ?= 0)%Q eqn:C.
  - left. split; [by apply Qeq_alt|done].
  - right. left. split; [by apply Qlt_alt|done].
  - right. right. split; [by apply Qgt_alt|done].
Qed.

(** A float32 value at or above [m] is at or above the float32 nearest
    to [m]: rounding to nearest does not step over a float32 value. *)
Lemma float32_above (m x : Q) :
  (m <= float32 x)%Q -> (float32 m <= float32 x)%Q.
Proof.
  destruct (float32_cases x) as [[Cx ->]|[[Cx ->]|[Cx ->]]],
           (float32_cases m) as [[Cm ->]|[[Cm ->]|[Cm ->]]]; intros Hle.
  - apply Qle_refl.
  - assert (H : (0 <= float32_pos (- m))%Q) by (apply float32_pos_nonneg; lra). lra.
  - lra.
  - assert (H : (0 <= float32_pos (- x))%Q) by (apply float32_pos_nonneg; lra). lra.
  - assert (H : (float32_pos (- x) <= float32_pos (- m))%Q).
    { apply float32_pos_below; lra. }
    lra.
  - assert (H : (0 <= float32_pos (- x))%Q) by (apply float32_pos_nonneg; lra). lra.
  - by apply float32_pos_nonneg.
  - assert (H : (0 <= float32_pos (- m))%Q) by (apply float32_pos_nonneg; lra).
    assert (H' : (0 <= float32_pos x)%Q) by (by apply float32_pos_nonneg). lra.
  - by apply float32_pos_above.
Qed.

Lemma where_ge_spec i sims m j :
  j ∈ Search.where_ge i sims m ->
  ∃ s, sims !! (j - i)%nat = Some s ∧ (i <= j)%nat ∧ (float32 m <= s)%Q.
Proof.
  revert i. induction sims as [|s r IH]; intros i Hj; [by apply elem_of_nil in Hj|].
  cbn [Search.where_ge] in Hj.
  assert (Hrest : j ∈ Search.where_ge (S i) r m ->
                  ∃ s0, (s :: r) !! (j - i)%nat = Some s0 ∧ (i <= j)%nat
                        ∧ (float32 m <= s0)%Q).
  { intros H. destruct (IH _ H) as (s0 & H1 & H2 & H3).
    exists s0. replace (j - i)%nat with (S (j - S i)) by lia. split; [done|]. split; [lia|done]. }
  destruct (Qle_bool (float32 m) s) eqn:Hle; [|by apply Hrest].
  apply elem_of_cons in Hj as [->|Hj]; [|by apply Hrest].
  exists s. rewrite Nat.sub_diag. split; [done|]. split; [lia|]. by apply Qle_bool_iff.
Qed.

Lemma mapM_spec {A B} (f : A -> result B) (Rel : A -> B -> Prop) l :
  (forall a, a ∈ l -> ∃ b, f a = Ok b ∧ Rel a b) ->
  ∃ bs, mapM f l = Ok bs ∧ Forall2 Rel l bs.
Proof.
  induction l as [|a l IH]; intros H; [by exists []|].
  destruct (H a) as (b & Hb & Hr); [by left|].
  destruct IH as (bs & Hbs & HF); [intros; apply H; by right|].
  exists (b :: bs). cbn [mapM]. rewrite Hb, Hbs. split; [done|]. by constructor.
Qed.

Lemma StronglySorted_Forall2 {A B} (RA : relation A) (RB : relation B)
    (Rel : A -> B -> Prop) l bs :
  (forall a a' b b', Rel a b -> Rel a' b' -> RA a a' -> RB b b') ->
  Forall2 Rel l bs -> StronglySorted RA l -> StronglySorted RB bs.
Proof.
  intros Hrel HF. induction HF as [|a b l bs Hab HF IH]; intros HS; [constructor|].
  apply StronglySorted_inv in HS as [HS Ha].
  constructor; [by apply IH|].
  clear IH HS. induction HF as [|a' b' l bs Hab' HF IH]; [constructor|].
  inversion Ha; subst. constructor; [by eapply Hrel|by apply IH].
Qed.

(** The hits of [search_with]: on a store whose containers have the same
    length, and with a decoration that succeeds on the stored metadata and
    keeps the similarity, the search returns a ranked list. *)
Lemma search_with_ranked decorate embed (P : gmap string value -> Prop)
    st query top_k min_similarity :
  aligned st ->
  Forall P (metadata st) ->
  (forall r, P (Search.result_metadata r) ->
             ∃ r', decorate r = Ok r' ∧ Search.similarity r' = Search.similarity r) ->
  0 <= top_k ->
  ∃ rs, Search.search_with decorate embed st query top_k min_similarity = Ok rs
        ∧ ranked top_k (float32 min_similarity) rs.
Proof.
  intros [A1 A2] HP Hdec Hk. unfold Search.search_with.
  destruct (embeddings st) as [|e0 es] eqn:HE.
  { exists []. split; [done|]. split; [cbn; lia|]. split; constructor. }
  rewrite <- HE in A1, A2 |- *. clear e0 es HE.
  set (sims := Search.similarities (embeddings st) (embed query)).
  assert (Hsl : length sims = length (embeddings st)).
  { unfold sims, Search.similarities. apply length_map. }
  destruct (Search.where_ge 0 sims min_similarity) as [|v0 vr] eqn:HV.
  { exists []. split; [done|]. split; [cbn; lia|]. split; constructor. }
  rewrite <- HV. set (valid := Search.where_ge 0 sims min_similarity).
  assert (Hvalid : forall o, o ∈ valid ->
            ∃ s, sims !! o = Some s ∧ (float32 min_similarity <= s)%Q).
  { intros o Ho. apply where_ge_spec in Ho as (s & H1 & _ & H3).
    rewrite Nat.sub_0_r in H1. eauto. }
  clearbody valid. clear v0 vr HV.
  set (vs := map (fun i => nth i sims 0%Q) valid).
  set (sorted := Py.slice_to (rev (Search.argsort vs)) top_k).
  assert (Hsorted : StronglySorted (fun i j => (nth j vs 0 <= nth i vs 0)%Q) sorted).
  { unfold sorted. rewrite slice_to_firstn by done.
    apply StronglySorted_take. apply (StronglySorted_rev _ _ (argsort_sorted vs)). }
  assert (Hin : forall idx, idx ∈ sorted -> (idx < length valid)%nat).
  { intros idx Hidx. unfold sorted in Hidx. rewrite slice_to_firstn in Hidx by done.
    apply elem_of_take in Hidx as (i & Hi & _).
    apply list_elem_of_lookup_2 in Hi.
    rewrite list_elem_of_In in Hi. apply in_rev in Hi.
    rewrite <- list_elem_of_In in Hi.
    rewrite argsort_perm in Hi. apply elem_of_seq in Hi.
    unfold vs in Hi. rewrite length_map in Hi. lia. }
  destruct (mapM_spec
    (fun idx =>
       let* original_idx := Py.index valid idx in
       let* doc := Py.index (documents st) original_idx in
       let* sim := Py.index sims original_idx in
       let* meta := Py.index (metadata st) original_idx in
       decorate (Search.mkResult doc sim meta None None None false))
    (fun idx r => Search.similarity r = nth idx vs 0%Q
                  ∧ (float32 min_similarity <= Search.similarity r)%Q)
    sorted) as (rs & Hrs & HF).
  { intros idx Hidx. apply Hin in Hidx.
    destruct (lookup_lt_is_Some_2 valid idx Hidx) as [o Ho].
    destruct (Hvalid o) as (s & Hs & Hms); [by eapply list_elem_of_lookup_2|].
    pose proof (lookup_lt_Some _ _ _ Hs) as Ho_lt.
    destruct (lookup_lt_is_Some_2 (documents st) o) as [doc Hdoc]; [lia|].
    destruct (lookup_lt_is_Some_2 (metadata st) o) as [meta Hmeta]; [lia|].
    unfold Py.index. rewrite Ho. cbn [bind]. rewrite Hdoc. cbn [bind].
    rewrite Hs. cbn [bind]. rewrite Hmeta. cbn [bind].
    destruct (Hdec (Search.mkResult doc s meta None None None false)) as (r' & Hr' & Hsim).
    { cbn. eapply Forall_forall; [exact HP|]. by eapply list_elem_of_lookup_2. }
    exists r'. split; [done|]. rewrite Hsim. cbn [Search.similarity].
    split; [|done].
    unfold vs. erewrite nth_lookup_Some
      by (rewrite list_lookup_fmap, Ho; reflexivity).
    symmetry. by apply nth_lookup_Some. }
  exists rs. split; [exact Hrs|]. split; [|split].
  - rewrite <- (Forall2_length _ _ _ HF). unfold sorted. by apply slice_to_length_le.
  - eapply StronglySorted_Forall2; [|exact HF|exact Hsorted].
    intros a a' b b' [-> _] [-> _] H. exact H.
  - clear -HF. induction HF as [|???? [_ H]]; by constructor.
Qed.

(** ** The stores an indexer can reach *)

Lemma text_reachable_aligned env st :
  reachable (text_step env) st -> aligned st.
Proof.
  induction 1 as [|st p _ IH]; [apply aligned_empty|].
  eapply grows_aligned; [|exact IH].
  eapply index_outcome_grows, text_index_file_outcome.
Qed.

Lemma pdf_reachable_aligned env st :
  reachable (pdf_step env) st -> aligned st.
Proof.
  induction 1 as [|st p _ IH]; [apply aligned_empty|].
  eapply grows_aligned; [|exact IH].
  eapply index_outcome_grows, pdf_index_file_outcome.
Qed.

Lemma image_reachable_inv env st :
  reachable (image_step env) st -> aligned st ∧ Forall has_file_size (metadata st).
Proof.
  induction 1 as [|st p _ [IH1 IH2]]; [split; [apply aligned_empty|constructor]|].
  pose proof (image_index_file_outcome env st p) as H. split.
  - eapply grows_aligned; [|exact IH1]. eapply index_outcome_grows, H.
  - eapply index_outcome_metadata; [|exact IH2].
    eapply index_outcome_weaken; [|exact H]. by intros m [_ Hm].
Qed.

Lemma video_reachable_inv env st :
  video_reachable env st -> aligned st ∧ Forall has_times (metadata st).
Proof.
  induction 1 as [|st disk p _ [IH1 IH2]]; [split; [apply aligned_empty|constructor]|].
  pose proof (video_index_file_outcome env st disk p) as H. split.
  - eapply grows_aligned; [|exact IH1]. eapply index_outcome_grows, H.
  - eapply index_outcome_metadata; [|exact IH2].
    eapply index_outcome_weaken; [|exact H]. by intros m [_ Hm].
Qed.

Lemma add_visual_info_ok env r :
  has_file_size (Search.result_metadata r) ->
  ∃ r', ImageIndexer.add_visual_info env r = Ok r'
        ∧ Search.similarity r' = Search.similarity r.
Proof.
  intros [n Hn]. unfold ImageIndexer.add_visual_info, ImageIndexer.size_mb.
  rewrite Hn. cbn [from_option id num_of_value bind]. by eexists.
Qed.

Lemma add_time_info_ok r :
  has_times (Search.result_metadata r) ->
  ∃ r', VideoIndexer.add_time_info r = Ok r'
        ∧ Search.similarity r' = Search.similarity r.
Proof.
  intros (s & e & Hs & He). unfold VideoIndexer.add_time_info.
  rewrite Hs, He. cbn [from_option id num_of_value bind]. by eexists.
Qed.

(** C6, as the code has it. In each of the four indexers, on every
    store the indexer can hold, for every query, every count [k] and
    every threshold [m], [search] returns at most [k] hits, ordered by
    non-increasing similarity, none of them below the float32 number
    nearest to [m]: the filter compares in float32. *)
Theorem search_returns_ranked_hits
    (tenv : TextIndexer.Env) (penv : PDFIndexer.Env)
    (ienv : ImageIndexer.Env) (venv : VideoIndexer.Env)
    (st_text st_pdf st_image st_video : Store)
    (query : string) (k : nat) (m : Q) :
  reachable (text_step tenv) st_text ->
  reachable (pdf_step penv) st_pdf ->
  reachable (image_step ienv) st_image ->
  video_reachable venv st_video ->
  (∃ rs, TextIndexer.search tenv st_text query (Z.of_nat k) m = Ok rs
         ∧ ranked (Z.of_nat k) (float32 m) rs)
  ∧ (∃ rs, PDFIndexer.search penv st_pdf query (Z.of_nat k) m = Ok rs
           ∧ ranked (Z.of_nat k) (float32 m) rs)
  ∧ (∃ rs, ImageIndexer.search ienv st_image query (Z.of_nat k) m = Ok rs
           ∧ ranked (Z.of_nat k) (float32 m) rs)
  ∧ (∃ rs, VideoIndexer.search venv st_video query (Z.of_nat k) m = Ok rs
           ∧ ranked (Z.of_nat k) (float32 m) rs).
Proof.
  intros Ht Hp Hi Hv.
  apply text_reachable_aligned in Ht. apply pdf_reachable_aligned in Hp.
  apply image_reachable_inv in Hi as [Hi1 Hi2].
  apply video_reachable_inv in Hv as [Hv1 Hv2].
  split; [|split; [|split]].
  - apply (search_with_ranked _ _ (fun _ => True)); [done| |by eauto|lia].
    apply Forall_forall. done.
  - apply (search_with_ranked _ _ (fun _ => True)); [done| |by eauto|lia].
    apply Forall_forall. done.
  - apply (search_with_ranked _ _ has_file_size); [done|done| |lia].
    intros r. apply add_visual_info_ok.
  - apply (search_with_ranked _ _ has_times); [done|done| |lia].
    intros r. apply add_time_info_ok.
Qed.

Lemma search_returns_ranked_hits_witness :
  (∃ rs, TextIndexer.search Sample.txt_env
           (text_step Sample.txt_env empty_store "notes.txt") "loops" (Z.of_nat 1) (1 # 5)
         = Ok rs ∧ ranked (Z.of_nat 1) (float32 (1 # 5)) rs)
  ∧ (∃ rs, PDFIndexer.search Sample.pdf_env
             (pdf_step Sample.pdf_env empty_store "paper.pdf") "loops" (Z.of_nat 1) (1 # 5)
           = Ok rs ∧ ranked (Z.of_nat 1) (float32 (1 # 5)) rs)
  ∧ (∃ rs, ImageIndexer.search Sample.image_env
             (image_step Sample.image_env empty_store "photo.png") "loops"
             (Z.of_nat 1) (1 # 5)
           = Ok rs ∧ ranked (Z.of_nat 1) (float32 (1 # 5)) rs)
  ∧ (∃ rs, VideoIndexer.search (Sample.video_env true)
             (snd (fst (VideoIndexer.index_file (Sample.video_env true)
                          empty_store ∅ "clip.mp4")))
             "loops" (Z.of_nat 1) (1 # 5)
           = Ok rs ∧ ranked (Z.of_nat 1) (float32 (1 # 5)) rs).
Proof.
  apply (search_returns_ranked_hits Sample.txt_env Sample.pdf_env Sample.image_env
           (Sample.video_env true)).
  - apply reach_index, reach_empty.
  - apply reach_index, reach_empty.
  - apply reach_index, reach_empty.
  - apply vreach_index, vreach_empty.
Defined.

(** C6 fails as stated: the stored chunk has the similarity float32(0.7)
    with the query, which is below 0.7; with the threshold 0.7 the filter
    compares it with float32(0.7), keeps it, and [search] returns it. *)
Lemma search_returns_hit_below_threshold :
  ∃ rs,
    TextIndexer.search Sample.edge_env
      (text_step Sample.edge_env empty_store "edge.txt") "loops" (Z.of_nat 5) (7 # 10)
    = Ok rs
    ∧ map (fun r => Qred (Search.similarity r)) rs = [(11744051 # 16777216)%Q]
    ∧ Exists (fun r => (Search.similarity r < 7 # 10)%Q) rs
    ∧ ¬ ranked (Z.of_nat 5) (7 # 10) rs.
Proof.
  eexists. split; [vm_compute; reflexivity|]. split; [vm_compute; reflexivity|].
  split.
  - apply Exists_cons_hd. vm_compute. reflexivity.
  - intros (_ & _ & H). apply Forall_cons in H as [H _].
    vm_compute in H. by apply H.
Qed.

(** The sample text store has two chunks above the threshold; asking for
    one hit returns the better one, with the float32 nearest to 1.7495 as
    its similarity. *)
Example search_sample_top_1 :
  match TextIndexer.search Sample.txt_env
          (text_step Sample.txt_env empty_store "notes.txt") "loops" 1 (1 # 5) with
  | Ok rs => map (fun r => Qred (Search.similarity r)) rs
  | Raise _ => []
  end = [(7337935 # 4194304)%Q].
Proof. vm_compute. reflexivity. Qed.

(** A negative [top_k] is not a count: Python's slice then drops hits from
    the end of the ranking instead of keeping a prefix. *)
Example search_negative_top_k :
  match TextIndexer.search Sample.txt_env
          (text_step Sample.txt_env empty_store "notes.txt") "loops" (-1) (1 # 5) with
  | Ok rs => length rs
  | Raise _ => 0%nat
  end = 1%nat.
Proof. vm_compute. reflexivity. Qed.

(** C5. The three containers have the same length when the indexer is
    built, and each public operation of each indexer keeps it so; what an
    operation changes is an extension of all three by the same number of
    entries, so no entry moves in one container and not in the others. *)
Theorem parallel_containers_stay_aligned
    (tenv : TextIndexer.Env) (penv : PDFIndexer.Env)
    (ienv : ImageIndexer.Env) (venv : VideoIndexer.Env)
    (disk : VideoIndexer.Disk) (st : Store) (op : operation) :
  aligned st ->
  aligned empty_store
  ∧ (aligned (text_after tenv st op) ∧ grows st (text_after tenv st op))
  ∧ (aligned (pdf_after penv st op) ∧ grows st (pdf_after penv st op))
  ∧ (aligned (image_after ienv st op) ∧ grows st (image_after ienv st op))
  ∧ (aligned (video_after venv disk st op) ∧ grows st (video_after venv disk st op)).
Proof.
  intros Ha.
  assert (Hg : forall st', grows st st' -> aligned st' ∧ grows st st').
  { intros st' H. split; [by eapply grows_aligned|done]. }
  split; [apply aligned_empty|].
  pose proof (Hg st (grows_refl st)) as Hs.
  destruct op as [p| |]; cbn [text_after pdf_after image_after video_after];
    [|split; [exact Hs|split; [exact Hs|split; exact Hs]]..].
  split; [|split; [|split]]; apply Hg.
  - eapply index_outcome_grows, text_index_file_outcome.
  - eapply index_outcome_grows, pdf_index_file_outcome.
  - eapply index_outcome_grows, image_index_file_outcome.
  - eapply index_outcome_grows, video_index_file_outcome.
Qed.

Lemma parallel_containers_stay_aligned_witness :
  let st := text_step Sample.txt_env empty_store "notes.txt" in
  let op := OpIndexFile "notes.txt" in
  aligned empty_store
  ∧ (aligned (text_after Sample.txt_env st op) ∧ grows st (text_after Sample.txt_env st op))
  ∧ (aligned (pdf_after Sample.pdf_env st op) ∧ grows st (pdf_after Sample.pdf_env st op))
  ∧ (aligned (image_after Sample.image_env st op)
     ∧ grows st (image_after Sample.image_env st op))
  ∧ (aligned (video_after (Sample.video_env true) ∅ st op)
     ∧ grows st (video_after (Sample.video_env true) ∅ st op)).
Proof.
  apply (parallel_containers_stay_aligned Sample.txt_env Sample.pdf_env Sample.image_env
           (Sample.video_env true) ∅).
  split; reflexivity.
Defined.

(** Position by position, the metadata of a stored chunk carries the
    stored document as its content and the stored embedding is the one of
    that document; [index_file] keeps it so. *)
Lemma text_index_file_index_aligned env st file_path :
  index_aligned (TextIndexer.embed env) st ->
  index_aligned (TextIndexer.embed env) (snd (TextIndexer.index_file env st file_path)).
Proof. eapply index_outcome_index_aligned, text_index_file_outcome. Qed.

(** ** The keys of the stored metadata *)


Lemma index_outcome_true embed P st st' :
  index_outcome embed P st (Ok true) st' -> extended_with embed P st st'.
Proof. by intros [[? _]|[_ H]]. Qed.




(** What the text indexer stores for a .json file instead. *)
Lemma json_metadata_keys env st file_path st' :
  Py.lower (path_suffix (TextIndexer.fs env) file_path) = ".json" ->
  TextIndexer.index_file env st file_path = (Ok true, st') ->
  extended_with (TextIndexer.embed env)
    (json_keys (path_str (TextIndexer.fs env) file_path)) st st'.
Proof.
  intros Hj H.
  pose proof (text_index_file_outcome env st file_path) as Ho.
  rewrite H in Ho. cbn [fst snd] in Ho. apply index_outcome_true in Ho.
  unfold text_doc in Ho. by rewrite Hj in Ho.
Qed.

(** * Further properties of the code *)

(** Closes a goal [x ∉ [a; b; ...]] between distinct literals. *)
Ltac not_in_list :=
  let H := fresh in
  intros H; repeat (apply elem_of_cons in H as [H|H]; [discriminate H|]);
  by apply elem_of_nil in H.

(** ** Text cleaning and chunking *)

(** X1. [clean_text] keeps the words of the text in their order, puts
    exactly one space between two of them and nothing around them; cleaning
    a second time changes nothing. *)
Theorem clean_text_normal_form (text : string) :
  TextIndexer.clean_text text = Py.join " " (Py.split text)
  ∧ Py.split (TextIndexer.clean_text text) = Py.split text
  ∧ TextIndexer.clean_text (TextIndexer.clean_text text) = TextIndexer.clean_text text.
Proof.
  split; [apply clean_text_join|]. split; [apply split_clean_text|].
  apply clean_text_idempotent.
Qed.

Lemma chunk_text_wordless (text : string) (chunk_size overlap : Z) :
  Py.split text = [] ->
  chunk_size <> overlap ->
  TextIndexer.chunk_text text chunk_size overlap = Ok [].
Proof.
  intros Hn Hne.
  unfold TextIndexer.chunk_text, Py.range, Py.range_len. rewrite Hn.
  destruct (Z.eqb_spec (chunk_size - overlap) 0); [lia|].
  change (Z.of_nat (length [])) with 0.
  by destruct (0 <? chunk_size - overlap).
Qed.

(** X2. A text without any word (empty, or whitespace only) gives no
    chunk, whatever the chunk size and the overlap are, as long as they
    differ. *)
Theorem chunk_text_no_words (text : string) (chunk_size overlap : Z) :
  count_words text = 0%nat ->
  chunk_size <> overlap ->
  TextIndexer.chunk_text text chunk_size overlap = Ok [].
Proof.
  unfold count_words. intros Hn Hne.
  apply chunk_text_wordless; [|exact Hne]. by apply nil_length_inv.
Qed.

Lemma chunk_text_no_words_witness :
  TextIndexer.chunk_text (String " " (Py.chr 10)) 300 50 = Ok [].
Proof.
  apply (chunk_text_no_words (String " " (Py.chr 10)) 300 50).
  - reflexivity.
  - lia.
Defined.

(** X3. [index_file] of the text indexer on a .txt file that cannot be
    read, or that holds no word, returns [False] and leaves the store as
    it was. *)
Theorem index_blank_txt_file env st file_path :
  Py.lower (path_suffix (TextIndexer.fs env) file_path) = ".txt" ->
  (read_text (TextIndexer.fs env) file_path = None
   ∨ ∃ content, read_text (TextIndexer.fs env) file_path = Some content
                ∧ count_words content = 0%nat) ->
  TextIndexer.index_file env st file_path = (Ok false, st).
Proof.
  intros Hs Hr. unfold TextIndexer.index_file.
  destruct (negb _); [done|]. rewrite Hs.
  change (".txt" =? ".txt")%string with true. cbn iota.
  assert (Hd : TextIndexer.process_txt_file env file_path = []).
  { unfold TextIndexer.process_txt_file.
    destruct Hr as [->|(content & -> & Hn)]; [done|].
    rewrite chunk_text_wordless; [done| |lia].
    rewrite split_clean_text. by apply nil_length_inv. }
  by rewrite Hd.
Qed.

Lemma index_blank_txt_file_witness :
  TextIndexer.index_file
    {| TextIndexer.fs := Sample.one_file "blank.txt" ".TXT" (String " " (Py.chr 10));
       TextIndexer.embed := Sample.embed;
       TextIndexer.py_str := Sample.py_str;
       TextIndexer.json_load := fun _ => None |}
    empty_store "blank.txt"
  = (Ok false, empty_store).
Proof.
  apply index_blank_txt_file.
  - reflexivity.
  - right. exists (String " " (Py.chr 10)). split; reflexivity.
Defined.

(** X4. A file with an extension an indexer does not handle is refused:
    [index_file] returns [False] and leaves the store (and the disk) as it
    was. The test is on the lower-cased suffix. *)
Theorem index_unsupported_extension
    (tenv : TextIndexer.Env) (penv : PDFIndexer.Env)
    (ienv : ImageIndexer.Env) (venv : VideoIndexer.Env)
    (st : Store) (disk : VideoIndexer.Disk) (file_path : string) :
  Py.lower (path_suffix (TextIndexer.fs tenv) file_path) ∉ [".txt"; ".json"] ->
  Py.lower (path_suffix (PDFIndexer.fs penv) file_path) <> ".pdf" ->
  Py.lower (path_suffix (ImageIndexer.fs ienv) file_path) ∉ ImageIndexer.supported_formats ->
  Py.lower (path_suffix (VideoIndexer.fs venv) file_path) ∉ VideoIndexer.supported_formats ->
  TextIndexer.index_file tenv st file_path = (Ok false, st)
  ∧ PDFIndexer.index_file penv st file_path = (Ok false, st)
  ∧ ImageIndexer.index_file ienv st file_path = (Ok false, st)
  ∧ VideoIndexer.index_file venv st disk file_path = (Ok false, st, disk).
Proof.
  intros Ht Hp Hi Hv. split; [|split; [|split]].
  - unfold TextIndexer.index_file. destruct (negb _); [done|].
    destruct (String.eqb_spec (Py.lower (path_suffix (TextIndexer.fs tenv) file_path)) ".txt")
      as [E|_]; [destruct Ht; rewrite E; (apply elem_of_cons; by left)|].
    destruct (String.eqb_spec (Py.lower (path_suffix (TextIndexer.fs tenv) file_path)) ".json")
      as [E|_]; [destruct Ht; rewrite E; (apply elem_of_cons; right; apply elem_of_cons; by left)|].
    done.
  - unfold PDFIndexer.index_file. destruct (negb (path_exists _ _)); [done|].
    by destruct (String.eqb_spec (Py.lower (path_suffix (PDFIndexer.fs penv) file_path)) ".pdf").
  - unfold ImageIndexer.index_file. destruct (negb (path_exists _ _)); [done|].
    by rewrite bool_decide_eq_false_2.
  - unfold VideoIndexer.index_file. destruct (negb (path_exists _ _)); [done|].
    by rewrite bool_decide_eq_false_2.
Qed.

Lemma index_unsupported_extension_witness :
  let fs := Sample.one_file "archive.zip" ".ZIP" "PK" in
  let tenv := {| TextIndexer.fs := fs; TextIndexer.embed := Sample.embed;
                 TextIndexer.py_str := Sample.py_str;
                 TextIndexer.json_load := fun _ => None |} in
  TextIndexer.index_file tenv empty_store "archive.zip" = (Ok false, empty_store)
  ∧ PDFIndexer.index_file Sample.pdf_env empty_store "archive.zip" = (Ok false, empty_store)
  ∧ ImageIndexer.index_file Sample.image_env empty_store "archive.zip"
    = (Ok false, empty_store)
  ∧ VideoIndexer.index_file (Sample.video_env true) empty_store ∅ "archive.zip"
    = (Ok false, empty_store, ∅).
Proof.
  intros fs tenv.
  apply (index_unsupported_extension tenv Sample.pdf_env Sample.image_env
           (Sample.video_env true) empty_store ∅ "archive.zip").
  - not_in_list.
  - discriminate.
  - not_in_list.
  - not_in_list.
Defined.

Lemma slice_window {A} (l : list A) (i j : Z) :
  0 <= i <= j ->
  Py.slice l i j = take (Z.to_nat (j - i)) (drop (Z.to_nat i) l).
Proof.
  intros Hij. unfold Py.slice, Py.clamp_index.
  destruct (Z.ltb_spec i 0); [lia|]. destruct (Z.ltb_spec j 0); [lia|].
  destruct (Z.le_gt_cases i (Z.of_nat (length l))) as [Hi|Hi].
  - rewrite (Z.min_l i) by lia.
    destruct (Z.le_gt_cases j (Z.of_nat (length l))) as [Hj|Hj].
    + by rewrite (Z.min_l j) by lia.
    + rewrite (Z.min_r j) by lia.
      assert (X : (length (drop (Z.to_nat i) l) <= Z.to_nat (j - i))%nat)
        by (rewrite length_drop; lia).
      assert (Y : (length (drop (Z.to_nat i) l)
                   <= Z.to_nat (Z.of_nat (length l) - i))%nat)
        by (rewrite length_drop; lia).
      by rewrite (take_ge _ _ X), (take_ge _ _ Y).
  - rewrite (Z.min_r i), (Z.min_r j) by lia.
    rewrite Z.sub_diag, Nat2Z.id, drop_all. cbn [take Z.to_nat].
    rewrite (drop_ge l (Z.to_nat i)) by lia. by rewrite !take_nil.
Qed.

Lemma chunk_loop_all_windows words chunk_size starts :
  Forall wordlike words ->
  0 < chunk_size ->
  Forall (fun i => 0 <= i < Z.of_nat (length words)) starts ->
  TextIndexer.chunk_loop words chunk_size starts
  = map (fun i => Py.join " " (Py.slice words i (i + chunk_size))) starts.
Proof.
  intros Hw Hc. induction 1 as [|i rest Hi _ IH]; [done|].
  cbn [TextIndexer.chunk_loop map]. rewrite IH.
  assert (Ht : Py.truthy (Py.join " " (Py.slice words i (i + chunk_size))) = true);
    [|by rewrite Ht].
  pose proof (slice_Forall wordlike words i (i + chunk_size) Hw) as Hs.
  assert (Hl : (0 < length (Py.slice words i (i + chunk_size)))%nat).
  { rewrite slice_window by lia. rewrite length_take, length_drop. lia. }
  destruct (Py.slice words i (i + chunk_size)) as [|w ws]; [cbn in Hl; lia|].
  apply Forall_cons in Hs as [[Hw1 _] _]. by apply join_truthy.
Qed.

Lemma range_ceil (n stride : Z) :
  0 <= n -> 0 < stride -> Py.range_len 0 n stride = (n + stride - 1) / stride.
Proof.
  intros Hn Hs. unfold Py.range_len.
  destruct (Z.ltb_spec 0 stride); [|lia].
  destruct (Z.ltb_spec 0 n).
  - replace (n + stride - 1) with (n - 0 - 1 + 1 * stride) by lia.
    by rewrite Z.div_add by lia.
  - replace n with 0 by lia. symmetry. apply Z.div_small. lia.
Qed.

Lemma range_starts (n stride : Z) :
  0 <= n -> 0 < stride ->
  Py.range 0 n stride
  = Ok (map (fun k : nat => Z.of_nat k * stride)
            (seq 0 (Z.to_nat ((n + stride - 1) / stride))))
  ∧ Forall (fun k : nat => 0 <= Z.of_nat k * stride < n)
           (seq 0 (Z.to_nat ((n + stride - 1) / stride))).
Proof.
  intros Hn Hs. split.
  - unfold Py.range. destruct (Z.eqb_spec stride 0); [lia|].
    by rewrite range_ceil by done.
  - apply Forall_forall. intros k Hk. apply elem_of_seq in Hk.
    assert (Hq : 0 <= (n + stride - 1) / stride) by (apply Z.div_pos; lia).
    assert (Hk' : Z.of_nat k + 1 <= (n + stride - 1) / stride) by lia.
    assert (Hm : stride * ((n + stride - 1) / stride) <= n + stride - 1)
      by (apply Z.mul_div_le; lia).
    nia.
Qed.

(** X5. With [0 <= overlap < chunk_size] the chunks are the windows of
    [chunk_size] words that start every [chunk_size - overlap] words:
    there are ceil(N / (chunk_size - overlap)) of them for a text of N
    words, and chunk [k] is [words[k*stride : k*stride + chunk_size]]
    joined with spaces. *)
Theorem chunk_text_windows (text : string) (chunk_size overlap : Z) :
  0 <= overlap < chunk_size ->
  let words := Py.split text in
  let stride := chunk_size - overlap in
  ∃ chunks,
    TextIndexer.chunk_text text chunk_size overlap = Ok chunks
    ∧ Z.of_nat (length chunks) = (Z.of_nat (length words) + stride - 1) / stride
    ∧ ∀ k : nat,
        (k < length chunks)%nat ->
        chunks !! k
        = Some (Py.join " "
                  (Py.slice words (Z.of_nat k * stride)
                     (Z.of_nat k * stride + chunk_size))).
Proof.
  intros Ho words stride.
  assert (Hs : 0 < stride) by (unfold stride; lia).
  destruct (range_starts (Z.of_nat (length words)) stride) as [Hr Hf]; [lia|done|].
  unfold TextIndexer.chunk_text. fold words stride. rewrite Hr. cbn [bind].
  eexists. split; [reflexivity|].
  rewrite chunk_loop_all_windows;
    [|apply split_wordlike|lia|by apply Forall_map].
  rewrite !length_map, length_seq. split.
  - rewrite Z2Nat.id; [done|apply Z.div_pos; lia].
  - intros k Hk. rewrite !list_lookup_fmap, lookup_seq_lt by done. reflexivity.
Qed.

Lemma chunk_text_windows_witness :
  let words := Py.split "for while if else return" in
  let stride := 3 - 1 in
  ∃ chunks,
    TextIndexer.chunk_text "for while if else return" 3 1 = Ok chunks
    ∧ Z.of_nat (length chunks) = (Z.of_nat (length words) + stride - 1) / stride
    ∧ ∀ k : nat,
        (k < length chunks)%nat ->
        chunks !! k
        = Some (Py.join " "
                  (Py.slice words (Z.of_nat k * stride) (Z.of_nat k * stride + 3))).
Proof. apply (chunk_text_windows "for while if else return" 3 1). lia. Defined.

Lemma concat_windows {A} (l : list A) (stride n : nat) :
  concat (map (fun k => take stride (drop (k * stride) l)) (seq 0 n))
  = take (n * stride) l.
Proof.
  induction n as [|n IH]; [done|].
  rewrite seq_S, map_app, concat_app, IH. cbn [map concat].
  rewrite app_nil_r, take_take_drop. f_equal. lia.
Qed.

(** X6. With [0 <= overlap < chunk_size], dropping from every chunk the
    words past the stride (those it shares with the next chunk) and
    putting the rest end to end gives back the words of the text. *)
Theorem chunk_text_reconstructs_words (text : string) (chunk_size overlap : Z) :
  0 <= overlap < chunk_size ->
  ∃ chunks,
    TextIndexer.chunk_text text chunk_size overlap = Ok chunks
    ∧ concat (map (fun c => take (Z.to_nat (chunk_size - overlap)) (Py.split c)) chunks)
      = Py.split text.
Proof.
  intros Ho. set (stride := chunk_size - overlap).
  assert (Hs : 0 < stride) by (unfold stride; lia).
  set (words := Py.split text).
  destruct (range_starts (Z.of_nat (length words)) stride) as [Hr Hf]; [lia|done|].
  unfold TextIndexer.chunk_text. fold words stride. rewrite Hr. cbn [bind].
  eexists. split; [reflexivity|].
  rewrite chunk_loop_all_windows;
    [|apply split_wordlike|lia|by apply Forall_map].
  set (n := Z.to_nat ((Z.of_nat (length words) + stride - 1) / stride)).
  rewrite !map_map.
  rewrite (map_ext _ (fun k : nat => take (Z.to_nat stride)
                                  (drop (k * Z.to_nat stride) words))).
  - rewrite concat_windows. apply take_ge.
    assert (Hq : 0 <= (Z.of_nat (length words) + stride - 1) / stride)
      by (apply Z.div_pos; lia).
    assert (Hm : Z.of_nat (length words) + stride - 1
                 < stride * ((Z.of_nat (length words) + stride - 1) / stride + 1)).
    { rewrite Z.mul_add_distr_l, Z.mul_1_r.
      pose proof (Z.mod_pos_bound (Z.of_nat (length words) + stride - 1) stride Hs).
      pose proof (Z.div_mod (Z.of_nat (length words) + stride - 1) stride). lia. }
    unfold n. nia.
  - intros k. rewrite split_join by (apply slice_Forall, split_wordlike).
    rewrite slice_window by nia.
    rewrite take_take. f_equal; [|f_equal]; lia.
Qed.

Lemma chunk_text_reconstructs_words_witness :
  ∃ chunks,
    TextIndexer.chunk_text "for while if else return" 3 1 = Ok chunks
    ∧ concat (map (fun c => take (Z.to_nat (3 - 1)) (Py.split c)) chunks)
      = Py.split "for while if else return".
Proof. apply (chunk_text_reconstructs_words "for while if else return" 3 1). lia. Defined.

(** ** The aggregator *)

Section AggregatorFacts.

Variable py_hash : string -> Z.

Local Abbreviation fingerprint := (AdaptivePromptSystem.content_hash py_hash).
Local Abbreviation dedup_loop := (AdaptivePromptSystem.dedup_loop py_hash).

Lemma dedup_loop_sublist seen results : sublist (dedup_loop seen results) results.
Proof.
  revert seen. induction results as [|r rest IH]; intros seen; [constructor|].
  cbn [AdaptivePromptSystem.dedup_loop]. destruct (bool_decide _).
  - apply sublist_cons, IH.
  - apply sublist_skip, IH.
Qed.

Lemma dedup_loop_distinct seen results :
  NoDup (map fingerprint (dedup_loop seen results)).
Proof.
  revert seen. induction results as [|r rest IH]; intros seen; [constructor|].
  cbn [AdaptivePromptSystem.dedup_loop]. destruct (bool_decide _); [apply IH|].
  cbn [map]. apply NoDup_cons. split; [|apply IH].
  intros Hin. apply list_elem_of_fmap in Hin as (r' & Heq & Hr').
  pose proof (dedup_loop_unseen py_hash ({[fingerprint r]} ∪ seen) rest) as Hu.
  eapply Forall_forall in Hu; [|exact Hr']. apply Hu. rewrite <- Heq.
  apply elem_of_union. left. by apply elem_of_singleton.
Qed.

Lemma dedup_loop_covers seen results r :
  r ∈ results ->
  fingerprint r ∈ seen
  ∨ ∃ r', r' ∈ dedup_loop seen results ∧ fingerprint r' = fingerprint r.
Proof.
  revert seen. induction results as [|x rest IH]; intros seen Hr;
    [by apply elem_of_nil in Hr|].
  cbn [AdaptivePromptSystem.dedup_loop].
  apply elem_of_cons in Hr as [->|Hr].
  - case_bool_decide; [by left|]. right. exists x. split; [by left|done].
  - case_bool_decide; [by apply IH|].
    destruct (IH ({[fingerprint x]} ∪ seen) Hr) as [Hs|(r' & Hr' & He)].
    + apply elem_of_union in Hs as [Hs|Hs]; [|by left].
      apply elem_of_singleton in Hs. right. exists x. split; [by left|done].
    + right. exists r'. split; [by right|done].
Qed.

Lemma dedup_loop_first_kept seen pre r post :
  fingerprint r ∉ seen ->
  Forall (fun x => fingerprint x <> fingerprint r) pre ->
  r ∈ dedup_loop seen (pre ++ r :: post).
Proof.
  revert seen. induction pre as [|x pre IH]; intros seen Hs Hpre.
  - cbn [app AdaptivePromptSystem.dedup_loop].
    rewrite bool_decide_eq_false_2 by done. by left.
  - apply Forall_cons in Hpre as [Hx Hpre].
    cbn [app AdaptivePromptSystem.dedup_loop]. case_bool_decide; [by apply IH|].
    right. apply IH; [|done].
    intros Hin. apply elem_of_union in Hin as [Hin|Hin]; [|done].
    apply elem_of_singleton in Hin. congruence.
Qed.

End AggregatorFacts.

(** X7. The de-duplicated list is a sub-list of the hits, in their
    order; no two of its hits have the same fingerprint; every fingerprint
    of the input is still represented, and by its first occurrence. *)
Theorem deduplicate_results_keeps_first (py_hash : string -> Z)
    (results : list Search.SearchResult) :
  let unique := AdaptivePromptSystem._deduplicate_results py_hash results in
  let fingerprint := AdaptivePromptSystem.content_hash py_hash in
  sublist unique results
  ∧ NoDup (map fingerprint unique)
  ∧ (∀ r, r ∈ results -> ∃ r', r' ∈ unique ∧ fingerprint r' = fingerprint r)
  ∧ (∀ pre r post,
       results = pre ++ r :: post ->
       Forall (fun x => fingerprint x <> fingerprint r) pre ->
       r ∈ unique).
Proof.
  cbn zeta. unfold AdaptivePromptSystem._deduplicate_results.
  split; [apply dedup_loop_sublist|]. split; [apply dedup_loop_distinct|]. split.
  - intros r Hr. destruct (dedup_loop_covers py_hash ∅ results r Hr) as [H|H]; [|done].
    by apply not_elem_of_empty in H.
  - intros pre r post -> Hpre. apply dedup_loop_first_kept; [|done].
    apply not_elem_of_empty.
Qed.

Lemma insert_desc_perm x l : AdaptivePromptSystem.insert_desc x l ≡ₚ x :: l.
Proof.
  induction l as [|y r IH]; [done|].
  cbn [AdaptivePromptSystem.insert_desc]. destruct (Qle_bool _ _); [done|].
  rewrite IH. apply perm_swap.
Qed.

Lemma insert_desc_sorted x l :
  StronglySorted (fun a b => (Search.similarity b <= Search.similarity a)%Q) l ->
  StronglySorted (fun a b => (Search.similarity b <= Search.similarity a)%Q)
    (AdaptivePromptSystem.insert_desc x l).
Proof.
  induction 1 as [|y r Hr IH Hy]; [repeat constructor|].
  cbn [AdaptivePromptSystem.insert_desc].
  destruct (Qle_bool (Search.similarity y) (Search.similarity x)) eqn:Hle.
  - apply Qle_bool_iff in Hle. constructor; [by constructor|].
    constructor; [exact Hle|].
    eapply Forall_impl; [exact Hy|]. intros z Hz. cbn beta in Hz.
    eapply Qle_trans; [exact Hz|exact Hle].
  - constructor; [exact IH|].
    rewrite insert_desc_perm. constructor; [|exact Hy].
    apply Qlt_le_weak, Qnot_le_lt. intros Hc. apply Qle_bool_iff in Hc. congruence.
Qed.

Lemma sorted_desc_spec l :
  AdaptivePromptSystem.sorted_desc l ≡ₚ l
  ∧ StronglySorted (fun a b => (Search.similarity b <= Search.similarity a)%Q)
      (AdaptivePromptSystem.sorted_desc l).
Proof.
  induction l as [|x l [IH1 IH2]]; [by repeat constructor|].
  cbn [AdaptivePromptSystem.sorted_desc fold_right]. split.
  - rewrite insert_desc_perm. by constructor.
  - by apply insert_desc_sorted.
Qed.

Lemma sublist_Forall {A} (P : A -> Prop) (l1 l2 : list A) :
  sublist l1 l2 -> Forall P l2 -> Forall P l1.
Proof.
  induction 1 as [|x l1 l2 _ IH|x l1 l2 _ IH]; intros H; [done|..].
  - apply Forall_cons in H as [Hx H]. constructor; [done|by apply IH].
  - apply Forall_cons in H as [_ H]. by apply IH.
Qed.

Lemma topic_hits_from ix topics r :
  r ∈ AdaptivePromptSystem.topic_hits ix topics ->
  ∃ topic results r0,
    topic ∈ topics
    ∧ snd ix (Py.replace_char "_" " " topic) 2 (1 # 5)%Q = Ok results
    ∧ r0 ∈ results
    ∧ r = AdaptivePromptSystem.tag_topic (fst ix) r0.
Proof.
  induction topics as [|t rest IH]; [by intros ?%elem_of_nil|].
  cbn [AdaptivePromptSystem.topic_hits].
  destruct (snd ix _ _ _) as [results|e] eqn:Hs; [|by intros ?%elem_of_nil].
  intros [Hr|Hr]%elem_of_app.
  - apply list_elem_of_fmap in Hr as (r0 & -> & Hr0).
    exists t, results, r0. split; [by left|done].
  - destruct (IH Hr) as (topic & res & r0 & Ht & H1 & H2 & H3).
    exists topic, res, r0. split; [by right|done].
Qed.

Lemma indexer_hits_from threshold query topics ix r :
  r ∈ AdaptivePromptSystem.indexer_hits threshold query topics ix ->
  returned_by threshold query topics [ix] r.
Proof.
  unfold AdaptivePromptSystem.indexer_hits.
  destruct (snd ix query 3 threshold) as [results|e] eqn:Hs; [|by intros ?%elem_of_nil].
  intros [Hr|Hr]%elem_of_app; exists ix; (split; [by left|]).
  - apply list_elem_of_fmap in Hr as (r0 & -> & Hr0).
    split; [done|]. left. by exists results, r0.
  - destruct (topic_hits_from _ _ _ Hr) as (topic & res & r0 & Ht & H1 & H2 & ->).
    split; [done|]. right. by exists topic, res, r0.
Qed.

(** X8. What the aggregator hands on, for a non-negative limit: at most
    [max_search_results] hits, by non-increasing similarity, with
    pairwise different fingerprints; each of them is a hit that the
    search of one of the indexers returned, for the query or for a
    detected topic, and carries the key of that indexer. *)
Theorem search_indexed_content_ranked (py_hash : string -> Z)
    (indexers : list AdaptivePromptSystem.Indexer) (max_search_results : Z)
    (similarity_threshold : Q) (query : string) (detected_topics : list string) :
  0 <= max_search_results ->
  let hits :=
    AdaptivePromptSystem._search_indexed_content py_hash indexers max_search_results
      similarity_threshold query detected_topics in
  Z.of_nat (length hits) <= max_search_results
  ∧ StronglySorted (fun a b => (Search.similarity b <= Search.similarity a)%Q) hits
  ∧ NoDup (map (AdaptivePromptSystem.content_hash py_hash) hits)
  ∧ Forall (returned_by similarity_threshold query detected_topics indexers) hits.
Proof.
  intros Hmax. cbn zeta. unfold AdaptivePromptSystem._search_indexed_content.
  set (all := flat_map _ indexers).
  set (unique := AdaptivePromptSystem._deduplicate_results py_hash all).
  destruct (sorted_desc_spec unique) as [Hperm Hsorted].
  rewrite slice_to_firstn by done.
  split; [rewrite length_take; lia|]. split; [by apply StronglySorted_take|]. split.
  - eapply sublist_NoDup; [|apply fmap_sublist, sublist_take].
    rewrite Hperm. apply dedup_loop_distinct.
  - apply Forall_take. rewrite Hperm.
    eapply (sublist_Forall _ _ all); [apply dedup_loop_sublist|].
    unfold all. apply Forall_flat_map, Forall_forall. intros ix Hix.
    apply Forall_forall. intros r Hr.
    destruct (indexer_hits_from _ _ _ _ _ Hr) as (ix' & Hix' & Hrest).
    apply elem_of_cons in Hix' as [->|Hn]; [|by apply elem_of_nil in Hn].
    by exists ix.
Qed.

Lemma search_indexed_content_ranked_witness :
  let indexers : list AdaptivePromptSystem.Indexer :=
    [("text", TextIndexer.search Sample.txt_env
                (text_step Sample.txt_env empty_store "notes.txt"));
     ("pdf", PDFIndexer.search Sample.pdf_env
               (pdf_step Sample.pdf_env empty_store "paper.pdf"))] in
  let hits :=
    AdaptivePromptSystem._search_indexed_content (fun s => Z.of_nat (String.length s))
      indexers 5 (3 # 10) "loops" ["for_loops"] in
  Z.of_nat (length hits) <= 5
  ∧ StronglySorted (fun a b => (Search.similarity b <= Search.similarity a)%Q) hits
  ∧ NoDup (map (AdaptivePromptSystem.content_hash (fun s => Z.of_nat (String.length s)))
             hits)
  ∧ Forall (returned_by (3 # 10) "loops" ["for_loops"] indexers) hits.
Proof.
  intros indexers.
  apply (search_indexed_content_ranked (fun s => Z.of_nat (String.length s))
           indexers 5 (3 # 10) "loops" ["for_loops"]).
  lia.
Defined.

(** X9. An indexer whose search for the query raises is passed over: the
    aggregator returns what it returns without that indexer. *)
Theorem search_indexed_content_skips_failing (py_hash : string -> Z)
    (before after : list AdaptivePromptSystem.Indexer) (ix : AdaptivePromptSystem.Indexer)
    (max_search_results : Z) (similarity_threshold : Q)
    (query : string) (detected_topics : list string) (e : exn) :
  snd ix query 3 similarity_threshold = Raise e ->
  AdaptivePromptSystem._search_indexed_content py_hash (before ++ ix :: after)
    max_search_results similarity_threshold query detected_topics
  = AdaptivePromptSystem._search_indexed_content py_hash (before ++ after)
      max_search_results similarity_threshold query detected_topics.
Proof.
  intros He. unfold AdaptivePromptSystem._search_indexed_content.
  rewrite !flat_map_app. cbn [flat_map].
  unfold AdaptivePromptSystem.indexer_hits at 2. by rewrite He.
Qed.

Lemma search_indexed_content_skips_failing_witness :
  let good : AdaptivePromptSystem.Indexer :=
    ("text", TextIndexer.search Sample.txt_env
               (text_step Sample.txt_env empty_store "notes.txt")) in
  let bad : AdaptivePromptSystem.Indexer := ("pdf", fun _ _ _ => Raise ValueError) in
  AdaptivePromptSystem._search_indexed_content (fun s => Z.of_nat (String.length s))
    ([good] ++ bad :: []) 5 (3 # 10) "loops" []
  = AdaptivePromptSystem._search_indexed_content (fun s => Z.of_nat (String.length s))
      ([good] ++ []) 5 (3 # 10) "loops" [].
Proof.
  intros good bad.
  apply (search_indexed_content_skips_failing _ [good] [] bad 5 (3 # 10) "loops" []
           ValueError).
  reflexivity.
Defined.

(** ** Conversation memory and routing *)

(** Splits the hypotheses [x ∈ [a; b; ...]] into cases and closes each
    case by evaluation. *)
Ltac one_of_list :=
  repeat match goal with
         | H : _ ∈ [] |- _ => by apply elem_of_nil in H
         | H : _ ∈ _ :: _ |- _ => apply elem_of_cons in H as [->|H]
         end;
  first [ reflexivity
        | by apply (bool_decide_unpack _); vm_compute ].

(** X10. After an interaction is recorded, the history holds at most
    [conversation_memory] interactions (for a positive memory), they are
    the last ones of the old history followed by the new one, and the new
    one is last. *)
Theorem remember_bounded {A} (conversation_memory : Z)
    (conversation_history : list A) (interaction : A) :
  0 < conversation_memory ->
  let history :=
    AdaptivePromptSystem.remember conversation_memory conversation_history interaction in
  Z.of_nat (length history) <= conversation_memory
  ∧ history `suffix_of` (conversation_history ++ [interaction])
  ∧ last history = Some interaction.
Proof.
  intros Hm. cbn zeta. unfold AdaptivePromptSystem.remember.
  set (h := conversation_history ++ [interaction]).
  assert (Hlast : last h = Some interaction) by apply last_snoc.
  destruct (Z.ltb_spec conversation_memory (Z.of_nat (length h))) as [Hlt|Hge];
    [|by split; [lia|]].
  assert (Hs : Py.slice_from h (- conversation_memory)
               = drop (length h - Z.to_nat conversation_memory) h).
  { unfold Py.slice_from, Py.slice, Py.clamp_index.
    destruct (Z.ltb_spec (- conversation_memory) 0); [|lia].
    destruct (Z.ltb_spec (Z.of_nat (length h)) 0); [lia|].
    rewrite Z.max_r, Z.min_l by lia.
    replace (Z.to_nat (- conversation_memory + Z.of_nat (length h)))
      with (length h - Z.to_nat conversation_memory)%nat by lia.
    apply take_ge. rewrite length_drop. lia. }
  rewrite Hs. split; [rewrite length_drop; lia|]. split; [apply suffix_drop|].
  rewrite <- (take_drop (length h - Z.to_nat conversation_memory) h) in Hlast.
  rewrite last_app in Hlast.
  destruct (last (drop _ h)) eqn:Hd; [done|].
  apply last_None in Hd. apply (f_equal length) in Hd.
  rewrite length_drop in Hd. cbn in Hd. lia.
Qed.

Lemma remember_bounded_witness :
  let history := AdaptivePromptSystem.remember 2 [1%nat; 2%nat] 3%nat in
  Z.of_nat (length history) <= 2
  ∧ history `suffix_of` ([1%nat; 2%nat] ++ [3%nat])
  ∧ last history = Some 3%nat.
Proof. apply (remember_bounded 2 [1%nat; 2%nat] 3%nat). lia. Defined.

(** X11. The driver hands a file only to an indexer that accepts its
    extension: text for .txt and .json, pdf for .pdf, and the video and
    image indexers only for extensions in their [supported_formats]. *)
Theorem route_agrees_with_indexers (extension modality : string) :
  App.route extension = Some modality ->
  (modality = "text" ∧ extension ∈ [".txt"; ".json"])
  ∨ (modality = "pdf" ∧ extension = ".pdf")
  ∨ (modality = "video" ∧ extension ∈ VideoIndexer.supported_formats)
  ∨ (modality = "image" ∧ extension ∈ ImageIndexer.supported_formats).
Proof.
  unfold App.route, VideoIndexer.supported_formats, ImageIndexer.supported_formats.
  repeat case_bool_decide; intros Hr; try discriminate Hr; injection Hr as <-.
  - left. split; [done|]. one_of_list.
  - left. split; [done|]. one_of_list.
  - right. left. split; [done|]. one_of_list.
  - right. right. left. split; [done|]. one_of_list.
  - right. right. right. split; [done|]. one_of_list.
Qed.

Lemma route_agrees_with_indexers_witness :
  ("video" = "text" ∧ ".mov" ∈ [".txt"; ".json"])
  ∨ ("video" = "pdf" ∧ ".mov" = ".pdf")
  ∨ ("video" = "video" ∧ ".mov" ∈ VideoIndexer.supported_formats)
  ∨ ("video" = "image" ∧ ".mov" ∈ ImageIndexer.supported_formats).
Proof. apply (route_agrees_with_indexers ".mov" "video"). reflexivity. Defined.

(** X12. Eight extensions that the video and image indexers accept are
    skipped by the driver as unsupported: .mkv, .m4v, .flv, .wmv, .gif,
    .tiff, .tif and .webp files never reach an indexer. *)
Theorem route_skips_supported_formats (extension : string) :
  extension ∈ [".mkv"; ".m4v"; ".flv"; ".wmv"; ".gif"; ".tiff"; ".tif"; ".webp"] ->
  App.route extension = None
  ∧ (extension ∈ VideoIndexer.supported_formats
     ∨ extension ∈ ImageIndexer.supported_formats).
Proof.
  intros Hin.
  repeat match goal with
         | H : _ ∈ [] |- _ => by apply elem_of_nil in H
         | H : _ ∈ _ :: _ |- _ => apply elem_of_cons in H as [->|H]
         end;
    (split; [reflexivity|]);
    first [ by left; apply (bool_decide_unpack _); vm_compute
          | by right; apply (bool_decide_unpack _); vm_compute ].
Qed.

Lemma route_skips_supported_formats_witness :
  App.route ".mkv" = None
  ∧ (".mkv" ∈ VideoIndexer.supported_formats ∨ ".mkv" ∈ ImageIndexer.supported_formats).
Proof.
  apply (route_skips_supported_formats ".mkv").
  by apply (bool_decide_unpack _); vm_compute.
Defined.

(** ** Speech engines, colours *)

Lemma strip_truthy r : Py.truthy (Py.strip r) = true -> Py.truthy r = true.
Proof. by destruct r. Qed.

Lemma first_transcript_passed_over answers :
  Forall passed_over answers -> VideoIndexer.first_transcript answers = EmptyString.
Proof.
  induction 1 as [|a rest Ha _ IH]; [done|].
  cbn [VideoIndexer.first_transcript]. destruct a as [r|e]; [|exact IH].
  cbn in Ha. rewrite Ha. by rewrite andb_false_r.
Qed.

(** X13. [_transcribe_chunk] returns the answer of the first engine, in
    the order of preference, that answers with something that is not
    blank; the engines after it do not matter. When every engine raises or
    answers blank, it returns the empty string. *)
Theorem transcribe_chunk_first_answer env chunk_path :
  VideoIndexer.audio_file_ok env chunk_path = true ->
  (∀ before r after,
     VideoIndexer.recognize env chunk_path = before ++ Ok r :: after ->
     Forall passed_over before ->
     Py.truthy (Py.strip r) = true ->
     VideoIndexer._transcribe_chunk env chunk_path = Ok r)
  ∧ (Forall passed_over (VideoIndexer.recognize env chunk_path) ->
     VideoIndexer._transcribe_chunk env chunk_path = Ok EmptyString).
Proof.
  intros Hok. unfold VideoIndexer._transcribe_chunk. rewrite Hok. split.
  - intros before r after -> Hb Hr. f_equal.
    induction Hb as [|a rest Ha _ IH].
    + cbn [app VideoIndexer.first_transcript]. by rewrite Hr, (strip_truthy r Hr).
    + cbn [app VideoIndexer.first_transcript]. destruct a as [r0|e]; [|exact IH].
      cbn in Ha. rewrite Ha. by rewrite andb_false_r.
  - intros H. by rewrite first_transcript_passed_over.
Qed.

Lemma transcribe_chunk_first_answer_witness :
  let env := {| VideoIndexer.fs := Sample.one_file "clip.mp4" ".mp4" "mp4";
                VideoIndexer.embed := Sample.embed;
                VideoIndexer.speech_enabled := true;
                VideoIndexer.video_open := fun _ => None;
                VideoIndexer.temp_stem := fun _ => "/tmp/tmpk3x9";
                VideoIndexer.convert_ok := fun _ => true;
                VideoIndexer.wav_length_ms := fun _ => Some 12000;
                VideoIndexer.export_ok := fun _ => true;
                VideoIndexer.audio_file_ok := fun _ => true;
                VideoIndexer.recognize :=
                  fun _ => [Raise ValueError; Ok " "; Ok "hello world"; Ok "later"];
                VideoIndexer.unlink_ok := fun _ => true |} in
  VideoIndexer._transcribe_chunk env "a.wav" = Ok "hello world".
Proof.
  intros env.
  apply (proj1 (transcribe_chunk_first_answer env "a.wav" eq_refl)
           [Raise ValueError; Ok " "] "hello world" [Ok "later"]).
  - reflexivity.
  - repeat constructor.
  - reflexivity.
Defined.

(** X14. [_get_color_name] answers with one of the three grey names
    (branco, preto, cinza) exactly when the three channels lie within less
    than 30 of one another. *)
Theorem color_name_grey_iff_flat (r g b : Z) :
  ImageIndexer._get_color_name r g b ∈ ImageIndexer.grey_names
  ↔ Z.max r (Z.max g b) - Z.min r (Z.min g b) < 30.
Proof.
  unfold ImageIndexer._get_color_name, ImageIndexer.grey_names.
  destruct (Z.ltb_spec (Z.max r (Z.max g b) - Z.min r (Z.min g b)) 30) as [Hflat|Hwide].
  - split; [done|]. intros _.
    repeat match goal with
           | |- context [if ?c then _ else _] => destruct c
           end; by apply (bool_decide_unpack _); vm_compute.
  - split; [|lia]. intros Hin. exfalso.
    repeat match goal with
           | H : context [if ?c then _ else _] |- _ => destruct c
           end;
      cbn in Hin;
      repeat (apply elem_of_cons in Hin as [Hin|Hin]; [discriminate Hin|]);
      by apply elem_of_nil in Hin.
Qed.

(** ** What [index_file] of the image and video indexers returns *)

(** X15. For an existing file with a supported extension the image
    indexer never returns [False]: it either raises, leaving the store as
    it was, or returns [True] after appending exactly one entry to each
    container. *)
Theorem image_index_file_true_or_raises env st file_path :
  path_exists (ImageIndexer.fs env) file_path = true ->
  Py.lower (path_suffix (ImageIndexer.fs env) file_path) ∈ ImageIndexer.supported_formats ->
  let '(r, st') := ImageIndexer.index_file env st file_path in
  (∃ e, r = Raise e ∧ st' = st)
  ∨ (r = Ok true
     ∧ length (documents st') = S (length (documents st))
     ∧ length (embeddings st') = S (length (embeddings st))
     ∧ length (metadata st') = S (length (metadata st))).
Proof.
  intros He Hs. unfold ImageIndexer.index_file.
  rewrite He. cbn [negb]. rewrite bool_decide_eq_true_2 by done. cbn [negb].
  destruct (ImageIndexer.get_image_metadata env file_path) as [m|e]; [|left; by eexists].
  destruct (ImageIndexer.describe env file_path _) as [d|e]; [|left; by eexists].
  cbn [encode map]. right. cbn [documents embeddings metadata].
  rewrite !length_app. cbn [length]. repeat split; lia.
Qed.

Lemma image_index_file_true_or_raises_witness :
  let '(r, st') := ImageIndexer.index_file Sample.image_env empty_store "photo.png" in
  (∃ e, r = Raise e ∧ st' = empty_store)
  ∨ (r = Ok true
     ∧ length (documents st') = S (length (documents empty_store))
     ∧ length (embeddings st') = S (length (embeddings empty_store))
     ∧ length (metadata st') = S (length (metadata empty_store))).
Proof.
  apply (image_index_file_true_or_raises Sample.image_env empty_store "photo.png").
  - reflexivity.
  - by apply (bool_decide_unpack _); vm_compute.
Defined.

(** X16. For an existing file with a supported extension that moviepy
    cannot open, the video indexer does not return [False]: printing the
    duration, which is [None] then, raises [TypeError]. The store and the
    disk are as they were. *)
Theorem video_index_file_unreadable_raises env st disk file_path size :
  path_exists (VideoIndexer.fs env) file_path = true ->
  Py.lower (path_suffix (VideoIndexer.fs env) file_path) ∈ VideoIndexer.supported_formats ->
  VideoIndexer.video_open env file_path = None ->
  stat_size (VideoIndexer.fs env) file_path = Some size ->
  VideoIndexer.index_file env st disk file_path = (Raise TypeError, st, disk).
Proof.
  intros He Hs Hv Hz. unfold VideoIndexer.index_file.
  rewrite He. cbn [negb]. rewrite bool_decide_eq_true_2 by done. cbn [negb].
  unfold VideoIndexer.get_video_metadata, VideoIndexer.error_metadata.
  rewrite Hv, He, Hz. cbn [bind]. by rewrite lookup_insert_eq.
Qed.

Lemma video_index_file_unreadable_raises_witness :
  let env := {| VideoIndexer.fs := Sample.one_file "broken.avi" ".AVI" "RIFF";
                VideoIndexer.embed := Sample.embed;
                VideoIndexer.speech_enabled := false;
                VideoIndexer.video_open := fun _ => None;
                VideoIndexer.temp_stem := fun _ => "/tmp/tmpk3x9";
                VideoIndexer.convert_ok := fun _ => true;
                VideoIndexer.wav_length_ms := fun _ => None;
                VideoIndexer.export_ok := fun _ => true;
                VideoIndexer.audio_file_ok := fun _ => true;
                VideoIndexer.recognize := fun _ => [];
                VideoIndexer.unlink_ok := fun _ => true |} in
  VideoIndexer.index_file env empty_store ∅ "broken.avi" = (Raise TypeError, empty_store, ∅).
Proof.
  intros env.
  apply (video_index_file_unreadable_raises env empty_store ∅ "broken.avi" 4).
  - reflexivity.
  - by apply (bool_decide_unpack _); vm_compute.
  - reflexivity.
  - reflexivity.
Defined.

(** ** The temporary audio file *)

Lemma lower_app a b : Py.lower (a +:+ b) = Py.lower a +:+ Py.lower b.
Proof.
  induction a as [|c a IH]; [done|].
  rewrite app_String. cbn [Py.lower]. by rewrite IH.
Qed.

Lemma rev_app_app a b acc :
  String.rev_app (a +:+ b) acc = String.rev_app b (String.rev_app a acc).
Proof.
  revert acc. induction a as [|c a IH]; intros acc; [done|].
  rewrite app_String. cbn [String.rev_app]. apply IH.
Qed.

Lemma endswith_lower_wav stem : Py.endswith (Py.lower (stem +:+ ".wav")) ".wav" = true.
Proof.
  unfold Py.endswith, String.rev. rewrite lower_app, rev_app_app.
  change (Py.lower ".wav") with ".wav". cbn.
  by destruct (String.rev_app _ _).
Qed.

Lemma app_ne_self (s t : string) : t <> EmptyString -> s +:+ t <> s.
Proof.
  intros Ht. induction s as [|c s IH]; [exact Ht|].
  rewrite app_String. intros H. injection H as H. by apply IH.
Qed.

Lemma transcribe_chunks_keeps env wav_path chunks disk full_text segs p :
  (forall tail, wav_path +:+ "_chunk_" +:+ tail <> p) ->
  p ∈ disk ->
  p ∈ snd (VideoIndexer.transcribe_chunks env wav_path chunks disk full_text segs).
Proof.
  intros Hne. revert disk full_text segs.
  induction chunks as [|[i [start stop]] rest IH]; intros disk full_text segs Hp; [done|].
  cbn [VideoIndexer.transcribe_chunks].
  destruct (VideoIndexer.export_ok env _); [|by apply IH].
  assert (Hin : p ∈ ({[wav_path +:+ "_chunk_" +:+ Py.str_of_int (Z.of_nat i) +:+ ".wav"]}
                     ∪ disk : VideoIndexer.Disk)).
  { apply elem_of_union. by right. }
  assert (Hun : p ∈ VideoIndexer.unlink env
                      (wav_path +:+ "_chunk_" +:+ Py.str_of_int (Z.of_nat i) +:+ ".wav")
                      ({[wav_path +:+ "_chunk_" +:+ Py.str_of_int (Z.of_nat i) +:+ ".wav"]}
                       ∪ disk)).
  { unfold VideoIndexer.unlink. destruct (VideoIndexer.unlink_ok env _); [|done].
    apply elem_of_difference. split; [done|].
    intros Heq%elem_of_singleton. by eapply Hne. }
  destruct (VideoIndexer._transcribe_chunk env _) as [t|e]; [|by apply IH].
  destruct (Py.truthy (Py.strip t)); by apply IH.
Qed.

Lemma transcribe_audio_keeps_wav env disk audio_path :
  Py.endswith (Py.lower audio_path) ".wav" = true ->
  audio_path ∈ disk ->
  audio_path ∈ snd (VideoIndexer.transcribe_audio env disk audio_path).
Proof.
  intros Hwav Hin. unfold VideoIndexer.transcribe_audio.
  destruct (negb _); [done|].
  unfold VideoIndexer._convert_to_wav. rewrite Hwav.
  destruct (VideoIndexer.wav_length_ms env audio_path) as [len|]; [|done].
  destruct (Py.range 0 len 30000) as [starts|]; [|done].
  pose proof (transcribe_chunks_keeps env audio_path
                (Py.enumerate
                   (map (fun i => ((inject_Z i / 1000)%Q,
                                   (inject_Z (i + Z.min 30000 (len - i)) / 1000)%Q))
                        starts))
                disk EmptyString [] audio_path) as H.
  destruct (VideoIndexer.transcribe_chunks _ _ _ _ _ _) as [[full_text segs] disk2].
  cbn [snd] in *. rewrite bool_decide_eq_true_2 by done.
  apply H; [|done]. intros tail. by apply app_ne_self.
Qed.

Lemma index_audio_keeps_wav env st disk file_path audio_path video_metadata :
  Py.endswith (Py.lower audio_path) ".wav" = true ->
  audio_path ∈ disk ->
  audio_path ∈ snd (VideoIndexer.index_audio env st disk file_path audio_path
                      video_metadata).
Proof.
  intros Hwav Hin. unfold VideoIndexer.index_audio.
  pose proof (transcribe_audio_keeps_wav env disk audio_path Hwav Hin) as H.
  destruct (VideoIndexer.transcribe_audio env disk audio_path) as [transcription disk1].
  cbn [snd] in H.
  destruct (_ && _); [done|].
  destruct (VideoIndexer.chunk_transcription _ _) as [chunks|]; [|done].
  destruct (map _ _); [done|].
  by destruct (mapM _ _).
Qed.

(** X17. Once the audio track has been extracted, the temporary audio
    file is gone when [index_file] is over, whatever the transcription and
    the indexing did (returned [True], returned [False] or raised), unless
    [os.unlink] raised on it: then the file stays, and only then. *)
Theorem video_temp_audio_removed env st disk file_path video size d :
  path_exists (VideoIndexer.fs env) file_path = true ->
  Py.lower (path_suffix (VideoIndexer.fs env) file_path) ∈ VideoIndexer.supported_formats ->
  VideoIndexer.video_open env file_path = Some video ->
  stat_size (VideoIndexer.fs env) file_path = Some size ->
  num_of_value (VideoIndexer.clip_duration video) = Ok d ->
  VideoIndexer.clip_has_audio video = true ->
  VideoIndexer.clip_audio_writes video = true ->
  let temp := VideoIndexer.temp_stem env disk +:+ ".wav" in
  temp ∈ snd (VideoIndexer.index_file env st disk file_path)
  ↔ VideoIndexer.unlink_ok env temp = false.
Proof.
  intros He Hs Hv Hz Hd Ha Hw temp. unfold VideoIndexer.index_file.
  rewrite He. cbn [negb]. rewrite bool_decide_eq_true_2 by done. cbn [negb].
  unfold VideoIndexer.get_video_metadata. rewrite Hv, Hz.
  rewrite lookup_insert_eq. cbn [from_option id]. rewrite Hd.
  unfold VideoIndexer.extract_audio. rewrite Hv, Ha, Hw. cbn [negb]. fold temp.
  match goal with
  | |- context [VideoIndexer.index_audio ?e ?s ?d ?f ?a ?m] =>
      pose proof (index_audio_keeps_wav e s d f a m (endswith_lower_wav _)) as Hkeep
  end.
  destruct (VideoIndexer.index_audio _ _ _ _ _ _) as [[r st'] disk2].
  cbn [snd] in *.
  assert (Hin : temp ∈ disk2).
  { apply Hkeep. apply elem_of_union. left. by apply elem_of_singleton. }
  assert (Htr : Py.truthy temp = true).
  { unfold temp. by destruct (VideoIndexer.temp_stem env disk). }
  rewrite Htr, bool_decide_eq_true_2 by done. cbn [andb].
  unfold VideoIndexer.unlink. destruct (VideoIndexer.unlink_ok env temp).
  - split; [|done]. intros [_ Hn]%elem_of_difference.
    exfalso. apply Hn. by apply elem_of_singleton.
  - by split.
Qed.

Lemma video_temp_audio_removed_witness :
  let temp := "/tmp/tmpk3x9.wav" in
  temp ∈ snd (VideoIndexer.index_file (Sample.video_env true) empty_store ∅ "clip.mp4")
  ↔ VideoIndexer.unlink_ok (Sample.video_env true) temp = false.
Proof.
  apply (video_temp_audio_removed (Sample.video_env true) empty_store ∅ "clip.mp4"
           {| VideoIndexer.clip_duration := VFloat 12;
              VideoIndexer.clip_fps := VFloat 25;
              VideoIndexer.clip_w := 1280;
              VideoIndexer.clip_h := 720;
              VideoIndexer.clip_has_audio := true;
              VideoIndexer.clip_audio_writes := true |} 3 12%Q).
  - reflexivity.
  - by apply (bool_decide_unpack _); vm_compute.
  - reflexivity.
  - reflexivity.
  - reflexivity.
  - reflexivity.
  - reflexivity.
Defined.


(** ** What the hits of a search are *)

Lemma where_ge_complete i sims m j s :
  sims !! j = Some s -> (float32 m <= s)%Q -> (i + j)%nat ∈ Search.where_ge i sims m.
Proof.
  revert i j. induction sims as [|s0 r IH]; intros i j Hj Hs; [done|].
  cbn [Search.where_ge]. destruct j as [|j].
  - injection Hj as ->. apply Qle_bool_iff in Hs. rewrite Hs, Nat.add_0_r. by left.
  - replace (i + S j)%nat with (S i + j)%nat by lia.
    destruct (Qle_bool (float32 m) s0); [right|]; by apply IH.
Qed.

Lemma where_ge_NoDup i sims m : NoDup (Search.where_ge i sims m).
Proof.
  revert i. induction sims as [|s r IH]; intros i; [constructor|].
  cbn [Search.where_ge]. destruct (Qle_bool (float32 m) s); [|apply IH].
  apply NoDup_cons. split; [|apply IH].
  intros Hin. apply where_ge_spec in Hin as (_ & _ & Hle & _). lia.
Qed.

(** The positions [search_with] goes through, and the hit it builds at
    each of them. *)
Lemma search_with_hits embed st query top_k min_similarity :
  aligned st ->
  0 <= top_k ->
  let sims := Search.similarities (embeddings st) (embed query) in
  let valid := Search.where_ge 0 sims min_similarity in
  let vs := map (fun i => nth i sims 0%Q) valid in
  ∃ rs,
    Search.search_with Ok embed st query top_k min_similarity = Ok rs
    ∧ Forall2 (fun idx r =>
                 ∃ o, valid !! idx = Some o
                      ∧ documents st !! o = Some (Search.content r)
                      ∧ metadata st !! o = Some (Search.result_metadata r)
                      ∧ sims !! o = Some (Search.similarity r)
                      ∧ nth idx vs 0%Q = Search.similarity r)
              (take (Z.to_nat top_k) (rev (Search.argsort vs))) rs.
Proof.
  intros [A1 A2] Hk. cbn zeta. unfold Search.search_with.
  destruct (embeddings st) as [|e0 es] eqn:HE.
  { exists []. split; [done|]. cbn. rewrite take_nil. constructor. }
  rewrite <- HE in A1, A2 |- *. clear e0 es HE.
  set (sims := Search.similarities (embeddings st) (embed query)).
  assert (Hsl : length sims = length (embeddings st)).
  { unfold sims, Search.similarities. apply length_map. }
  destruct (Search.where_ge 0 sims min_similarity) as [|v0 vr] eqn:HV.
  { exists []. split; [done|]. cbn. rewrite take_nil. constructor. }
  rewrite <- HV. clear v0 vr HV.
  set (valid := Search.where_ge 0 sims min_similarity).
  set (vs := map (fun i => nth i sims 0%Q) valid).
  rewrite slice_to_firstn by done.
  apply mapM_spec. intros idx Hidx.
  assert (Hlt : (idx < length valid)%nat).
  { apply elem_of_take in Hidx as (i & Hi & _).
    apply list_elem_of_lookup_2 in Hi.
    rewrite list_elem_of_In in Hi. apply in_rev in Hi.
    rewrite <- list_elem_of_In in Hi.
    rewrite argsort_perm in Hi. apply elem_of_seq in Hi.
    unfold vs in Hi. rewrite length_map in Hi. lia. }
  destruct (lookup_lt_is_Some_2 valid idx Hlt) as [o Ho].
  assert (Hov : o ∈ valid) by (by eapply list_elem_of_lookup_2).
  apply where_ge_spec in Hov as (s & Hs & _ & _). rewrite Nat.sub_0_r in Hs.
  pose proof (lookup_lt_Some _ _ _ Hs) as Ho_lt.
  destruct (lookup_lt_is_Some_2 (documents st) o) as [doc Hdoc]; [lia|].
  destruct (lookup_lt_is_Some_2 (metadata st) o) as [meta Hmeta]; [lia|].
  unfold Py.index. rewrite Ho. cbn [bind]. rewrite Hdoc. cbn [bind].
  rewrite Hs. cbn [bind]. rewrite Hmeta. cbn [bind].
  eexists. split; [reflexivity|]. exists o. cbn.
  repeat split; try done.
  unfold vs. erewrite nth_lookup_Some by (rewrite list_lookup_fmap, Ho; reflexivity).
  by apply nth_lookup_Some.
Qed.

Lemma similarities_lookup E q o s :
  Search.similarities E q !! o = Some s -> ∃ e, E !! o = Some e ∧ s = float32 (dot e q).
Proof.
  unfold Search.similarities. rewrite list_lookup_fmap.
  destruct (E !! o) as [e|]; [|done]. intros [= <-]. by exists e.
Qed.



(** X19. The number of hits is the smaller of [top_k] and the number of
    stored entries whose similarity reaches the threshold converted to
    float32: when fewer than [top_k] entries qualify, all of them are
    returned. *)
Theorem search_returns_all_that_qualify env st query (k : nat) (m : Q) :
  aligned st ->
  let sims := Search.similarities (embeddings st) (TextIndexer.embed env query) in
  ∃ rs qualifying,
    TextIndexer.search env st query (Z.of_nat k) m = Ok rs
    ∧ NoDup qualifying
    ∧ (∀ i, i ∈ qualifying ↔ ∃ s, sims !! i = Some s ∧ (float32 m <= s)%Q)
    ∧ length rs = Nat.min k (length qualifying).
Proof.
  intros Ha sims.
  destruct (search_with_hits (TextIndexer.embed env) st query (Z.of_nat k) m Ha)
    as (rs & Hrs & HF); [lia|].
  exists rs, (Search.where_ge 0 sims m). split; [exact Hrs|].
  split; [apply where_ge_NoDup|]. split.
  - intros i. split.
    + intros Hi. apply where_ge_spec in Hi as (s & Hs & _ & Hle).
      rewrite Nat.sub_0_r in Hs. eauto.
    + intros (s & Hs & Hle). by apply (where_ge_complete 0 sims m i s).
  - rewrite <- (Forall2_length _ _ _ HF).
    rewrite length_take, length_rev, Nat2Z.id.
    rewrite (Permutation_length (argsort_perm _)), length_seq, length_map. done.
Qed.

Lemma search_returns_all_that_qualify_witness :
  let st := text_step Sample.txt_env empty_store "notes.txt" in
  let sims := Search.similarities (embeddings st) (TextIndexer.embed Sample.txt_env "loops") in
  ∃ rs qualifying,
    TextIndexer.search Sample.txt_env st "loops" (Z.of_nat 5) (1 # 5) = Ok rs
    ∧ NoDup qualifying
    ∧ (∀ i, i ∈ qualifying ↔ ∃ s, sims !! i = Some s ∧ (float32 (1 # 5) <= s)%Q)
    ∧ length rs = Nat.min 5 (length qualifying).
Proof.
  apply (search_returns_all_that_qualify Sample.txt_env
           (text_step Sample.txt_env empty_store "notes.txt") "loops" 5 (1 # 5)).
  split; reflexivity.
Defined.

(** X20. When at least one hit is asked for, the first hit is a best
    one: no stored entry that reaches the threshold has a larger
    similarity. *)
Theorem search_first_hit_is_best env st query (k : nat) (m : Q) :
  aligned st ->
  (0 < k)%nat ->
  let sims := Search.similarities (embeddings st) (TextIndexer.embed env query) in
  ∃ rs,
    TextIndexer.search env st query (Z.of_nat k) m = Ok rs
    ∧ ∀ i s, sims !! i = Some s -> (m <= s)%Q ->
             ∃ first, head rs = Some first ∧ (s <= Search.similarity first)%Q.
Proof.
  intros Ha Hk sims.
  destruct (search_with_hits (TextIndexer.embed env) st query (Z.of_nat k) m Ha)
    as (rs & Hrs & HF); [lia|].
  exists rs. split; [exact Hrs|]. intros i s Hs Hle.
  fold sims in HF.
  set (valid := Search.where_ge 0 sims m) in *.
  set (vs := map (fun j => nth j sims 0%Q) valid) in *.
  rewrite Nat2Z.id in HF.
  assert (Hle32 : (float32 m <= s)%Q).
  { destruct (similarities_lookup _ _ _ _ Hs) as (e & _ & ->). by apply float32_above. }
  pose proof (where_ge_complete 0 sims m i s Hs Hle32) as Hin. fold valid in Hin.
  apply list_elem_of_lookup_1 in Hin as [j Hj]. cbn in Hj.
  assert (Hjs : nth j vs 0%Q = s).
  { unfold vs. erewrite nth_lookup_Some by (rewrite list_lookup_fmap, Hj; reflexivity).
    by apply nth_lookup_Some. }
  assert (Hjin : j ∈ rev (Search.argsort vs)).
  { rewrite list_elem_of_In. apply in_rev. rewrite rev_involutive, <- list_elem_of_In.
    rewrite argsort_perm. apply elem_of_seq. apply lookup_lt_Some in Hj.
    unfold vs. rewrite length_map. lia. }
  pose proof (StronglySorted_rev _ _ (argsort_sorted vs)) as Hsorted.
  destruct (rev (Search.argsort vs)) as [|idx0 rest] eqn:Hrev;
    [by apply elem_of_nil in Hjin|].
  destruct k as [|k']; [lia|]. cbn [take] in HF.
  apply Forall2_cons_inv_l in HF as (first & rs' & (o & _ & _ & _ & _ & Hfirst) & _ & ->).
  exists first. split; [done|]. rewrite <- Hfirst, <- Hjs.
  apply elem_of_cons in Hjin as [->|Hjin]; [apply Qle_refl|].
  apply StronglySorted_inv in Hsorted as [_ Hall].
  eapply Forall_forall in Hall; [|exact Hjin]. exact Hall.
Qed.

Lemma search_first_hit_is_best_witness :
  let st := text_step Sample.txt_env empty_store "notes.txt" in
  let sims := Search.similarities (embeddings st) (TextIndexer.embed Sample.txt_env "loops") in
  ∃ rs,
    TextIndexer.search Sample.txt_env st "loops" (Z.of_nat 1) (1 # 5) = Ok rs
    ∧ ∀ i s, sims !! i = Some s -> (1 # 5 <= s)%Q ->
             ∃ first, head rs = Some first ∧ (s <= Search.similarity first)%Q.
Proof.
  apply (search_first_hit_is_best Sample.txt_env
           (text_step Sample.txt_env empty_store "notes.txt") "loops" 1 (1 # 5)).
  - split; reflexivity.
  - lia.
Defined.

(** ** Timestamps *)

Lemma Qfloor_unique (x : Q) (n : Z) :
  (inject_Z n <= x)%Q -> (x < inject_Z (n + 1))%Q -> Qfloor x = n.
Proof.
  intros Hlo Hhi.
  pose proof (Qfloor_le x) as H1. pose proof (Qlt_floor x) as H2.
  assert (Ha : n < Qfloor x + 1).
  { rewrite Zlt_Qlt. eapply Qle_lt_trans; [exact Hlo|exact H2]. }
  assert (Hb : Qfloor x < n + 1).
  { rewrite Zlt_Qlt. eapply Qle_lt_trans; [exact H1|exact Hhi]. }
  lia.
Qed.

(** X21. [format_timestamp] prints whole minutes and whole seconds, both
    on two digits at least: the fraction of a second is dropped, and the
    minutes are not folded into hours. *)
Theorem format_timestamp_minutes_seconds (minutes secs : Z) (fraction : Q) :
  0 <= minutes -> 0 <= secs < 60 -> (0 <= fraction < 1)%Q ->
  VideoIndexer.format_timestamp (inject_Z (60 * minutes + secs) + fraction)
  = VideoIndexer.format_02d minutes +:+ ":" +:+ VideoIndexer.format_02d secs.
Proof.
  intros Hm [Hs0 Hs1] [Hf0 Hf1]. unfold VideoIndexer.format_timestamp.
  assert (Hs0q : (0 <= inject_Z secs)%Q).
  { change 0%Q with (inject_Z 0). by rewrite <- Zle_Qle. }
  assert (Hs1q : (inject_Z secs <= 59)%Q).
  { change 59%Q with (inject_Z 59). rewrite <- Zle_Qle. lia. }
  assert (Hm0q : (0 <= inject_Z minutes)%Q).
  { change 0%Q with (inject_Z 0). by rewrite <- Zle_Qle. }
  assert (Hx : (inject_Z (60 * minutes + secs) == 60 * inject_Z minutes + inject_Z secs)%Q).
  { by rewrite inject_Z_plus, inject_Z_mult. }
  assert (H1 : Qfloor ((inject_Z (60 * minutes + secs) + fraction) / 60) = minutes).
  { apply Qfloor_unique.
    - apply Qle_shift_div_l; [reflexivity|]. rewrite Hx. lra.
    - apply Qlt_shift_div_r; [reflexivity|]. rewrite Hx, inject_Z_plus.
      change (inject_Z 1) with 1%Q. lra. }
  rewrite H1.
  assert (H2 : Qfloor (inject_Z (60 * minutes + secs) + fraction - 60 * inject_Z minutes)
               = secs).
  { apply Qfloor_unique.
    - rewrite Hx. lra.
    - rewrite Hx, inject_Z_plus. change (inject_Z 1) with 1%Q. lra. }
  by rewrite H2.
Qed.

Lemma format_timestamp_minutes_seconds_witness :
  VideoIndexer.format_timestamp (inject_Z (60 * 62 + 5) + (3 # 4)) = "62:05".
Proof.
  apply (format_timestamp_minutes_seconds 62 5 (3 # 4)).
  - lia.
  - lia.
  - split; [discriminate|reflexivity].
Defined.

(** ** Videos without a speech engine *)

Lemma finally_unlink env (stem : string) (disk : VideoIndexer.Disk) :
  let temp := stem +:+ ".wav" in
  (if Py.truthy temp && bool_decide (temp ∈ {[temp]} ∪ disk)
   then VideoIndexer.unlink env temp ({[temp]} ∪ disk)
   else {[temp]} ∪ disk)
  = if VideoIndexer.unlink_ok env temp then disk ∖ {[temp]} else {[temp]} ∪ disk.
Proof.
  intros temp.
  assert (Htr : Py.truthy temp = true) by (unfold temp; by destruct stem).
  assert (Hin : temp ∈ ({[temp]} ∪ disk : VideoIndexer.Disk)).
  { apply elem_of_union. left. by apply elem_of_singleton. }
  rewrite Htr, bool_decide_eq_true_2 by done. cbn [andb].
  unfold VideoIndexer.unlink. destruct (VideoIndexer.unlink_ok env temp); [|done].
  apply set_eq. intros x. rewrite !elem_of_difference, elem_of_union. tauto.
Qed.

(** X22. When speech recognition is not installed, a video whose audio
    track can be extracted is still indexed: [index_file] returns [True]
    and stores one entry whose content is the placeholder text, with
    both timestamps 00:00 and the language unknown. The temporary audio
    file is removed at the end, unless [os.unlink] raises on it: then it
    stays on disk. *)
Theorem video_index_file_without_speech env st disk file_path video size d :
  path_exists (VideoIndexer.fs env) file_path = true ->
  Py.lower (path_suffix (VideoIndexer.fs env) file_path) ∈ VideoIndexer.supported_formats ->
  VideoIndexer.video_open env file_path = Some video ->
  stat_size (VideoIndexer.fs env) file_path = Some size ->
  num_of_value (VideoIndexer.clip_duration video) = Ok d ->
  VideoIndexer.clip_has_audio video = true ->
  VideoIndexer.clip_audio_writes video = true ->
  VideoIndexer.speech_enabled env = false ->
  let temp := VideoIndexer.temp_stem env disk +:+ ".wav" in
  ∃ doc,
    VideoIndexer.index_file env st disk file_path
    = (Ok true,
       store_extend st [VideoIndexer.placeholder_text]
         (encode (VideoIndexer.embed env) [VideoIndexer.placeholder_text]) [doc],
       if VideoIndexer.unlink_ok env temp then disk ∖ {[temp]} else {[temp]} ∪ disk)
    ∧ doc !! "content" = Some (VStr VideoIndexer.placeholder_text)
    ∧ doc !! "start_timestamp" = Some (VStr "00:00")
    ∧ doc !! "end_timestamp" = Some (VStr "00:00")
    ∧ doc !! "language" = Some (VStr "unknown")
    ∧ doc !! "segments_count" = Some (VInt 0).
Proof.
  intros He Hs Hv Hz Hd Ha Hw Hsp temp. unfold VideoIndexer.index_file.
  rewrite He. cbn [negb]. rewrite bool_decide_eq_true_2 by done. cbn [negb].
  unfold VideoIndexer.get_video_metadata. rewrite Hv, Hz.
  rewrite lookup_insert_eq. cbn [from_option id]. rewrite Hd.
  unfold VideoIndexer.extract_audio. rewrite Hv, Ha, Hw. cbn [negb]. fold temp.
  unfold VideoIndexer.index_audio, VideoIndexer.transcribe_audio.
  rewrite Hsp. cbn [negb VideoIndexer.text VideoIndexer.language]. rewrite andb_false_r.
  destruct (VideoIndexer.chunk_transcription _ 60) as [chunks|e] eqn:Hc;
    vm_compute in Hc; [|discriminate Hc].
  injection Hc as <-.
  cbn [Py.enumerate length seq combine map mapM].
  unfold doc_content at 1, meta_str at 1.
  unfold VideoIndexer.video_document at 1. rewrite lookup_insert_eq. cbn [bind snd].
  unfold temp. rewrite finally_unlink. fold temp.
  eexists. split; [reflexivity|].
  unfold VideoIndexer.video_document.
  repeat split; by simplify_map_eq.
Qed.

Lemma video_index_file_without_speech_witness :
  ∃ doc,
    VideoIndexer.index_file (Sample.video_env true) empty_store ∅ "clip.mp4"
    = (Ok true,
       store_extend empty_store [VideoIndexer.placeholder_text]
         (encode Sample.embed [VideoIndexer.placeholder_text]) [doc],
       if VideoIndexer.unlink_ok (Sample.video_env true) "/tmp/tmpk3x9.wav"
       then ∅ ∖ {["/tmp/tmpk3x9.wav"]} else {["/tmp/tmpk3x9.wav"]} ∪ ∅)
    ∧ doc !! "content" = Some (VStr VideoIndexer.placeholder_text)
    ∧ doc !! "start_timestamp" = Some (VStr "00:00")
    ∧ doc !! "end_timestamp" = Some (VStr "00:00")
    ∧ doc !! "language" = Some (VStr "unknown")
    ∧ doc !! "segments_count" = Some (VInt 0).
Proof.
  apply (video_index_file_without_speech (Sample.video_env true) empty_store ∅ "clip.mp4"
           {| VideoIndexer.clip_duration := VFloat 12;
              VideoIndexer.clip_fps := VFloat 25;
              VideoIndexer.clip_w := 1280;
              VideoIndexer.clip_h := 720;
              VideoIndexer.clip_has_audio := true;
              VideoIndexer.clip_audio_writes := true |} 3 12%Q).
  - reflexivity.
  - by apply (bool_decide_unpack _); vm_compute.
  - reflexivity.
  - reflexivity.
  - reflexivity.
  - reflexivity.
  - reflexivity.
  - reflexivity.
Defined.

(** ** Sentence chunks of the PDF indexer *)

Lemma split_sentences_nonempty st cur stops s :
  PDFIndexer.split_sentences st cur stops s <> [].
Proof.
  revert st cur stops. induction s as [|c r IH]; intros st cur stops.
  - cbn. by destruct st.
  - cbn [PDFIndexer.split_sentences].
    destruct st, (PDFIndexer.is_stop c), (Py.isspace c); try apply IH; done.
Qed.

Lemma chunk_loop_current_nonempty chunk_size overlap sentences chunks current len :
  sentences <> [] ∨ current <> [] ->
  snd (PDFIndexer.chunk_loop chunk_size overlap sentences chunks current len) <> [].
Proof.
  revert chunks current len.
  induction sentences as [|s rest IH]; intros chunks current len H.
  - cbn. by destruct H.
  - cbn [PDFIndexer.chunk_loop].
    cbv zeta. destruct (_ && _); apply IH; right; intros E;
      apply app_eq_nil in E; by destruct E.
Qed.

(** X23. [chunk_text] of the PDF indexer always returns at least one
    chunk, even for the empty text, so the test for an empty chunk list
    in [index_file] never fires. *)
Theorem pdf_chunk_text_never_empty (text : string) (chunk_size overlap : Z) :
  PDFIndexer.chunk_text text chunk_size overlap <> [].
Proof.
  unfold PDFIndexer.chunk_text.
  pose proof (chunk_loop_current_nonempty chunk_size overlap
                (PDFIndexer.split_sentences PDFIndexer.InSentence "" "" text) [] [] 0) as H.
  destruct (PDFIndexer.chunk_loop _ _ _ _ _ _) as [chunks current].
  cbn [snd] in H. destruct current as [|c cs].
  - destruct H; [|done]. left. apply split_sentences_nonempty.
  - intros E. apply app_eq_nil in E. by destruct E.
Qed.

(** ** Statistics of the text indexer *)

Lemma size_list_to_set_le (l : list string) :
  (size (list_to_set l : gset string) <= length l)%nat.
Proof.
  induction l as [|x l IH]; [done|].
  cbn [list_to_set length]. rewrite size_union_alt, size_singleton.
  pose proof (subseteq_size (list_to_set l ∖ {[x]}) (list_to_set l : gset string)) as H.
  assert (list_to_set l ∖ {[x]} ⊆ (list_to_set l : gset string)) as Hs.
  { intros y Hy. by apply elem_of_difference in Hy as [Hy _]. }
  specialize (H Hs). lia.
Qed.

Lemma text_index_file_sources env st file_path :
  Forall (fun m => ∃ s t, m !! "source" = Some (VStr s) ∧ m !! "type" = Some (VStr t)
                          ∧ t ∈ ["text"; "json"])
         (metadata st) ->
  Forall (fun m => ∃ s t, m !! "source" = Some (VStr s) ∧ m !! "type" = Some (VStr t)
                          ∧ t ∈ ["text"; "json"])
         (metadata (snd (TextIndexer.index_file env st file_path))).
Proof.
  intros Hst. unfold TextIndexer.index_file.
  destruct (negb _); [done|].
  destruct (String.eqb _ ".txt").
  - destruct (process_txt_file_shape env file_path) as (chunks & ->).
    rewrite txt_documents_contents.
    destruct (map _ _) as [|d ds] eqn:Hd; [done|].
    cbn. apply Forall_app. split; [done|]. rewrite <- Hd.
    apply Forall_map, Forall_forall. intros ic _.
    exists (path_str (TextIndexer.fs env) file_path), "text".
    unfold TextIndexer.txt_document.
    split; [by simplify_map_eq|]. split; [by simplify_map_eq|].
    apply elem_of_cons. by left.
  - destruct (String.eqb _ ".json"); [|done].
    pose proof (process_json_file_keys env file_path) as Hk.
    destruct (TextIndexer.process_json_file env file_path) as [|d ds]; [done|].
    destruct (mapM doc_content (d :: ds)); [|done].
    cbn. apply Forall_app. split; [done|].
    eapply Forall_impl; [exact Hk|].
    intros m [(Hs & Ht & _) _].
    exists (path_str (TextIndexer.fs env) file_path), "json".
    split; [done|]. split; [done|]. apply elem_of_cons. right. apply elem_of_cons. by left.
Qed.

(** X24. On every store the text indexer can hold, [get_stats] succeeds
    (no stored metadata lacks [source] or [type]); the number of files it
    reports is at most the number of documents, and the types it reports
    are among text and json. *)
Theorem text_get_stats_on_reachable env st :
  reachable (text_step env) st ->
  ∃ stats,
    TextIndexer.get_stats st = Ok stats
    ∧ TextIndexer.total_documents stats = length (documents st)
    ∧ (TextIndexer.total_files stats <= TextIndexer.total_documents stats)%nat
    ∧ ∀ t, t ∈ TextIndexer.types stats -> t ∈ ["text"; "json"].
Proof.
  intros Hr.
  assert (Hm : Forall (fun m => ∃ s t, m !! "source" = Some (VStr s)
                                      ∧ m !! "type" = Some (VStr t)
                                      ∧ t ∈ ["text"; "json"]) (metadata st)).
  { induction Hr as [|st p _ IH]; [constructor|].
    apply text_index_file_sources, IH. }
  assert (Ha : aligned st) by (by eapply text_reachable_aligned).
  unfold TextIndexer.get_stats.
  destruct (mapM_spec (meta_str "source")
              (fun m s => m !! "source" = Some (VStr s)) (metadata st))
    as (sources & Hs & Fs).
  { intros m Hin. rewrite Forall_forall in Hm.
    destruct (Hm m Hin) as (s & t & H1 & _). exists s. unfold meta_str. by rewrite H1. }
  destruct (mapM_spec (meta_str "type")
              (fun m t => m !! "type" = Some (VStr t)) (metadata st))
    as (tys & Ht & Ft).
  { intros m Hin. rewrite Forall_forall in Hm.
    destruct (Hm m Hin) as (s & t & _ & H2 & _). exists t. unfold meta_str. by rewrite H2. }
  rewrite Hs, Ht. cbn [bind]. eexists. split; [reflexivity|].
  cbn [TextIndexer.total_documents TextIndexer.total_files TextIndexer.types].
  split; [done|]. split.
  - pose proof (size_list_to_set_le sources) as Hle.
    apply Forall2_length in Fs. destruct Ha as [A1 A2]. lia.
  - intros t Hin. apply elem_of_list_to_set in Hin.
    apply list_elem_of_lookup_1 in Hin as [i Hi].
    destruct (Forall2_lookup_r _ _ _ _ _ Ft Hi) as (m & Hmi & Hty).
    rewrite Forall_forall in Hm.
    destruct (Hm m) as (s' & t' & _ & Ht' & Hin'); [by eapply list_elem_of_lookup_2|].
    rewrite Hty in Ht'. by injection Ht' as <-.
Qed.

Lemma text_get_stats_on_reachable_witness :
  ∃ stats,
    TextIndexer.get_stats (text_step Sample.txt_env empty_store "notes.txt") = Ok stats
    ∧ TextIndexer.total_documents stats
      = length (documents (text_step Sample.txt_env empty_store "notes.txt"))
    ∧ (TextIndexer.total_files stats <= TextIndexer.total_documents stats)%nat
    ∧ ∀ t, t ∈ TextIndexer.types stats -> t ∈ ["text"; "json"].
Proof.
  apply (text_get_stats_on_reachable Sample.txt_env
           (text_step Sample.txt_env empty_store "notes.txt")).
  apply reach_index, reach_empty.
Defined.

(** ** Chunks of a transcription, by time *)

Lemma all_chars_app p a b :
  all_chars p (a +:+ b) = all_chars p a && all_chars p b.
Proof.
  induction a as [|c a IH]; [done|].
  rewrite app_String. cbn [all_chars]. by rewrite IH, andb_assoc.
Qed.

Lemma rstrip_truthy s :
  Py.truthy (Py.rstrip s) = negb (all_chars Py.isspace s).
Proof.
  induction s as [|c r IH]; [done|].
  cbn [Py.rstrip all_chars].
  destruct (Py.rstrip r) as [|d r'].
  - cbn in IH. apply (f_equal negb) in IH. rewrite negb_involutive in IH.
    rewrite <- IH, andb_true_r. by destruct (Py.isspace c).
  - cbn in IH. apply (f_equal negb) in IH. rewrite negb_involutive in IH.
    rewrite <- IH, andb_false_r. done.
Qed.

Lemma lstrip_blank s :
  all_chars Py.isspace (Py.lstrip s) = all_chars Py.isspace s.
Proof.
  induction s as [|c r IH]; [done|].
  cbn [Py.lstrip]. destruct (Py.isspace c) eqn:Hc; [|done].
  cbn [all_chars]. by rewrite Hc, IH.
Qed.

Lemma strip_truthy_blank s :
  Py.truthy (Py.strip s) = negb (all_chars Py.isspace s).
Proof. unfold Py.strip. by rewrite rstrip_truthy, lstrip_blank. Qed.

Lemma time_chunks_inv (d : Q) segs :
  (0 < d)%Q ->
  Forall (fun seg => all_chars Py.isspace (VideoIndexer.seg_text seg) = false) segs ->
  ∀ chunks cur,
    Forall (well_timed d) chunks ->
    (VideoIndexer.chunk_segments cur = [] ∧ VideoIndexer.chunk_text cur = EmptyString)
    ∨ (all_chars Py.isspace (VideoIndexer.chunk_text cur) = false ∧ well_timed d cur) ->
    ∃ chunks' cur',
      VideoIndexer.time_chunks d segs chunks cur = (chunks', cur')
      ∧ Forall (well_timed d) chunks'
      ∧ (segs <> [] ->
         all_chars Py.isspace (VideoIndexer.chunk_text cur') = false ∧ well_timed d cur')
      ∧ concat (map VideoIndexer.chunk_segments chunks') ++ VideoIndexer.chunk_segments cur'
        = concat (map VideoIndexer.chunk_segments chunks)
          ++ VideoIndexer.chunk_segments cur ++ segs.
Proof.
  intros Hd. induction 1 as [|seg rest Hseg _ IH]; intros chunks cur Hch Hcur.
  - exists chunks, cur. cbn. split; [done|]. split; [done|]. split; [done|].
    by rewrite app_nil_r.
  - cbn [VideoIndexer.time_chunks].
    assert (Hfresh : (VideoIndexer.seg_start seg < VideoIndexer.seg_start seg + d)%Q) by lra.
    destruct (Qle_bool _ _ && Py.truthy _) eqn:Hcond.
    + apply andb_true_iff in Hcond as [_ Htr].
      destruct Hcur as [[_ Hempty]|[Hnb Hwt]]; [by rewrite Hempty in Htr|].
      cbv zeta. rewrite strip_truthy_blank, Hnb. cbn [negb].
      edestruct (IH (chunks ++ [VideoIndexer.mkChunk (Py.strip (VideoIndexer.chunk_text cur))
                                  (VideoIndexer.start_time cur) (VideoIndexer.end_time cur)
                                  (VideoIndexer.chunk_segments cur)])
                    (VideoIndexer.mkChunk (VideoIndexer.seg_text seg)
                       (VideoIndexer.seg_start seg) (VideoIndexer.seg_end seg) [seg]))
        as (chunks' & cur' & Heq & H1 & H2 & H3).
      { apply Forall_app. split; [done|]. constructor; [|constructor]. exact Hwt. }
      { right. split; [exact Hseg|]. split; [by exists seg|]. split; [by exists seg|].
        cbn. constructor; [exact Hfresh|constructor]. }
      exists chunks', cur'. split; [exact Heq|]. split; [exact H1|].
      assert (Hgood : all_chars Py.isspace (VideoIndexer.chunk_text cur') = false
                      ∧ well_timed d cur').
      { destruct rest as [|s2 rest']; [|by apply H2].
        cbn in Heq. injection Heq as <- <-. split; [exact Hseg|].
        split; [by exists seg|]. split; [by exists seg|].
        cbn. constructor; [exact Hfresh|constructor]. }
      split; [by intros _|].
      rewrite H3, map_app, concat_app. cbn. by rewrite app_nil_r, <- !app_assoc.
    + cbv zeta.
      set (cur2 := VideoIndexer.mkChunk _ _ _ _).
      assert (Hgood2 : all_chars Py.isspace (VideoIndexer.chunk_text cur2) = false
                       ∧ well_timed d cur2).
      { subst cur2. cbn [VideoIndexer.chunk_text]. split.
        { rewrite !all_chars_app, Hseg. by rewrite !andb_false_r. }
        destruct Hcur as [[Hnone Hempty]|[Hnb ((f & Hf & Hfs) & _ & Hall)]].
        - rewrite Hempty, Hnone. cbn.
          split; [by exists seg|]. split; [by exists seg|].
          constructor; [exact Hfresh|constructor].
        - assert (Htr : Py.truthy (VideoIndexer.chunk_text cur) = true).
          { destruct (VideoIndexer.chunk_text cur); [discriminate Hnb|done]. }
          rewrite Htr in Hcond |- *. rewrite andb_true_r in Hcond.
          assert (Hlt : (VideoIndexer.seg_start seg < VideoIndexer.start_time cur + d)%Q).
          { apply Qnot_le_lt. intros Hle. apply Qle_bool_iff in Hle. congruence. }
          cbn. split; [|split].
          + exists f. split; [|exact Hfs].
            destruct (VideoIndexer.chunk_segments cur); [discriminate Hf|exact Hf].
          + exists seg. split; [apply last_snoc|done].
          + apply Forall_app. split; [exact Hall|]. constructor; [exact Hlt|constructor]. }
      edestruct (IH chunks cur2) as (chunks' & cur' & Heq & H1 & H2 & H3);
        [exact Hch|by right|].
      exists chunks', cur'. split; [exact Heq|]. split; [exact H1|].
      split.
      * intros _. destruct rest as [|s2 rest']; [|by apply H2].
        cbn in Heq. injection Heq as <- <-. exact Hgood2.
      * rewrite H3. subst cur2. cbn. by rewrite <- !app_assoc.
Qed.

(** X25. When there is at least one segment, every segment has a text
    that is not blank and [chunk_duration] is positive,
    [chunk_transcription] cuts the segments into consecutive groups
    without losing or reordering any; a chunk starts where its first
    segment starts, ends where its last segment ends, and each of its
    segments starts less than [chunk_duration] after the chunk does. *)
Theorem chunk_transcription_keeps_segments transcription (chunk_duration : Q) :
  (0 < chunk_duration)%Q ->
  VideoIndexer.segments transcription <> [] ->
  Forall (fun seg => Py.truthy (Py.strip (VideoIndexer.seg_text seg)) = true)
         (VideoIndexer.segments transcription) ->
  ∃ chunks,
    VideoIndexer.chunk_transcription transcription chunk_duration = Ok chunks
    ∧ concat (map VideoIndexer.chunk_segments chunks) = VideoIndexer.segments transcription
    ∧ Forall (well_timed chunk_duration) chunks.
Proof.
  intros Hd Hne Hsegs. unfold VideoIndexer.chunk_transcription.
  destruct (time_chunks_inv chunk_duration (VideoIndexer.segments transcription) Hd)
    with (chunks := @nil VideoIndexer.Chunk)
         (cur := VideoIndexer.mkChunk EmptyString 0 0 [])
    as (closed & cur & Heq & H1 & H2 & H3).
  { eapply Forall_impl; [exact Hsegs|]. intros seg Hs. cbn beta in Hs.
    rewrite strip_truthy_blank in Hs. by destruct (all_chars _ _). }
  { constructor. }
  { by left. }
  rewrite Heq. destruct (H2 Hne) as [Hnb Hwt].
  rewrite strip_truthy_blank, Hnb. cbn [negb].
  exists (closed ++ [cur]). split; [by destruct closed|].
  split.
  - rewrite map_app, concat_app. cbn. rewrite app_nil_r. exact H3.
  - apply Forall_app. split; [exact H1|]. by constructor.
Qed.

Lemma chunk_transcription_keeps_segments_witness :
  let segs := [VideoIndexer.mkSegment 0 30 "first part";
               VideoIndexer.mkSegment 30 60 "second part";
               VideoIndexer.mkSegment 60 90 "third part"] in
  ∃ chunks,
    VideoIndexer.chunk_transcription
      (VideoIndexer.mkTranscription "first part second part third part" "pt-BR" segs) 60
    = Ok chunks
    ∧ concat (map VideoIndexer.chunk_segments chunks) = segs
    ∧ Forall (well_timed 60) chunks.
Proof.
  apply (chunk_transcription_keeps_segments
           (VideoIndexer.mkTranscription "first part second part third part" "pt-BR"
              [VideoIndexer.mkSegment 0 30 "first part";
               VideoIndexer.mkSegment 30 60 "second part";
               VideoIndexer.mkSegment 60 90 "third part"]) 60).
  - reflexivity.
  - discriminate.
  - repeat constructor.
Defined.

(** ** The characters of a cleaned PDF text *)





